(** * ZeroMQ binding benchmark (C++): latency and throughput harnesses

    A shallow embedding of the four programs of [cpp/src]:
    [local_lat.cpp] (REP echo server), [remote_lat.cpp] (REQ round-trip
    timer), [local_thr.cpp] (PULL receiver) and [remote_thr.cpp] (PUSH
    sender), together with the properties their specification states.

    Conventions of the embedding.
    - [int] is a 32-bit two's-complement integer held in [Z]; arithmetic that
      can leave the range is wrapped with [Int32.wrap] (what mainstream
      compilers produce; the C++ standard leaves signed overflow undefined).
      [size_t] is 64 bits wide and unsigned.
    - [double] is IEEE-754 binary64, taken from [SpecFloat] with
      [prec = 53] and [emax = 1024]; every operation rounds to nearest even.
    - The ZeroMQ socket, the clock and the standard streams are the
      environment: each call consults an oracle for its outcome and is
      recorded in a log, most recent event first. A receive or a send
      yields a value, yields nothing ([EAGAIN]) or throws [zmq::error_t],
      as cppzmq has it.
    - The clock ticks in nanoseconds; its readings and their differences fit
      64 bits. Memory suffices for every buffer up to [max_size ()].
    - [std::atoi] follows glibc: [(int) strtol (s, NULL, 10)]. *)

From Stdlib Require Import ZArith List String Ascii Bool Lia.
From Stdlib Require Import Floats.SpecFloat.
Import ListNotations.
Local Open Scope string_scope.
Local Open Scope list_scope.
Local Open Scope Z_scope.

(** ** Machine integers *)

Module Int32.
Definition min_signed : Z := - 2 ^ 31.
Definition max_signed : Z := 2 ^ 31 - 1.
(** Reduction of a mathematical integer to the [int] that holds it. *)
Definition wrap (z : Z) : Z := (z + 2 ^ 31) mod 2 ^ 32 - 2 ^ 31.
End Int32.

Module Int64.
Definition min_signed : Z := - 2 ^ 63.
Definition max_signed : Z := 2 ^ 63 - 1.
(** [strtol] saturates at the ends of [long]. *)
Definition clamp (z : Z) : Z := Z.max min_signed (Z.min max_signed z).
End Int64.

Module SizeT.
Definition modulus : Z := 2 ^ 64.
(** Conversion of an [int] (or any integer) to [size_t]. *)
Definition of_int (z : Z) : Z := z mod modulus.
(** Unsigned multiplication. *)
Definition mul (a b : Z) : Z := (a * b) mod modulus.
(** [std::vector<char>::max_size ()], i.e. [PTRDIFF_MAX]. *)
Definition vector_max_size : Z := 2 ^ 63 - 1.
End SizeT.

(** ** [std::atoi] *)

Definition is_space (c : ascii) : bool :=
  let n := Z.of_nat (nat_of_ascii c) in
  (n =? 32) || ((9 <=? n) && (n <=? 13)).

Definition digit_of (c : ascii) : option Z :=
  let n := Z.of_nat (nat_of_ascii c) in
  if (48 <=? n) && (n <=? 57) then Some (n - 48) else None.

Fixpoint skip_spaces (s : string) : string :=
  match s with
  | String c r => if is_space c then skip_spaces r else s
  | EmptyString => s
  end.

(** Value of the longest prefix of decimal digits, continuing [acc]. *)
Fixpoint read_digits (acc : Z) (s : string) : Z :=
  match s with
  | String c r =>
      match digit_of c with
      | Some d => read_digits (acc * 10 + d) r
      | None => acc
      end
  | EmptyString => acc
  end.

Definition strtol (s : string) : Z :=
  match skip_spaces s with
  | String c r =>
      if Ascii.eqb c "-" then Int64.clamp (- read_digits 0 r)
      else if Ascii.eqb c "+" then Int64.clamp (read_digits 0 r)
      else Int64.clamp (read_digits 0 (String c r))
  | EmptyString => 0
  end.

Definition atoi (s : string) : Z := Int32.wrap (strtol s).

(** ** [double] *)

Definition double : Type := spec_float.
Definition prec : Z := 53.
Definition emax : Z := 1024.

(** Conversion of an integer to [double] ([static_cast<double>] and the
    usual arithmetic conversions). *)
Definition d_of_Z (z : Z) : double := binary_normalize prec emax z 0 false.
Definition d_mul : double -> double -> double := SFmul prec emax.
Definition d_div : double -> double -> double := SFdiv prec emax.

(** ** Messages, streams and the event log *)

Definition message : Type := list ascii.

(** [zmq::message_t::size ()]. *)
Definition size (m : message) : Z := Z.of_nat (List.length m).

(** [zmq::message_t (data, size)]: a copy of the first [size] bytes. *)
Definition message_of (data : list ascii) (sz : Z) : message :=
  firstn (Z.to_nat sz) data.

(** What is written with [<<]: text, an integer, a [double], or the text of
    an exception. *)
Inductive item : Type :=
| Str (s : string)
| Num (z : Z)
| Dbl (x : double)
| What.

Inductive socket_type : Type := REP | REQ | PULL | PUSH.

Inductive exn : Type := ZmqError | StdException.

(** Outcome of [socket.recv (msg, recv_flags::none)]: a message arrived,
    the call gave up with [EAGAIN] (empty result), or it threw. *)
Inductive recv_outcome : Type :=
| RecvMsg (m : message)
| RecvAgain
| RecvThrow.

(** Outcome of [socket.send (msg, send_flags::none)]. *)
Inductive send_outcome : Type :=
| SendOk
| SendAgain
| SendThrow.

Inductive event : Type :=
| EContext (ok : bool)
| ESocket (t : socket_type) (ok : bool)
| EBind (addr : string) (ok : bool)
| EConnect (addr : string) (ok : bool)
| ERecv (r : recv_outcome)
| ESend (m : message) (r : send_outcome)
| ESleep (ms : Z)
| EStdout (line : list item)
| EStderr (line : list item).

(** The oracles of one run. *)
Record environment : Type := mkEnv {
  ctx_ok : bool;
  socket_ok : bool;
  attach_ok : bool;
  recv_at : nat -> recv_outcome;
  send_at : nat -> send_outcome;
  now_at : nat -> Z
}.

Record world : Type := mkWorld {
  env : environment;
  n_recv : nat;
  n_send : nat;
  n_now : nat;
  log : list event
}.

Definition init (e : environment) : world := mkWorld e 0 0 0 [].

Definition record (ev : event) (w : world) : world :=
  mkWorld (env w) (n_recv w) (n_send w) (n_now w) (ev :: log w).

(** ** The monad of a C++ function body: state, early [return], exceptions *)

Inductive outcome (A : Type) : Type :=
| Normal (a : A)
| Returned (code : Z)
| Thrown (e : exn).
Arguments Normal {A} a.
Arguments Returned {A} code.
Arguments Thrown {A} e.

Definition M (A : Type) : Type := world -> outcome A * world.

Definition ret {A} (a : A) : M A := fun w => (Normal a, w).

Definition bind {A B} (m : M A) (k : A -> M B) : M B := fun w =>
  match m w with
  | (Normal a, w') => k a w'
  | (Returned c, w') => (Returned c, w')
  | (Thrown e, w') => (Thrown e, w')
  end.

Declare Scope prog_scope.
Delimit Scope prog_scope with prog.
Notation "x <- m ;; k" := (bind m (fun x => k))
  (at level 100, m at next level, right associativity) : prog_scope.
Notation "m ;; k" := (bind m (fun _ => k))
  (at level 100, right associativity) : prog_scope.
Local Open Scope prog_scope.

(** [return code;] *)
Definition return_ {A} (code : Z) : M A := fun w => (Returned code, w).

Definition throw {A} (e : exn) : M A := fun w => (Thrown e, w).

Definition emit (ev : event) : M unit := fun w => (Normal tt, record ev w).
Definition cout (line : list item) : M unit := emit (EStdout line).
Definition cerr (line : list item) : M unit := emit (EStderr line).

(** The two handlers every [main] ends with. *)
Definition try_catch (body : M unit) : M unit := fun w =>
  match body w with
  | (Thrown ZmqError, w') =>
      (cerr [Str "ZMQ Error: "; What; Str "\n"] ;; return_ 1) w'
  | (Thrown StdException, w') =>
      (cerr [Str "Error: "; What; Str "\n"] ;; return_ 1) w'
  | r => r
  end.

(** [for (int i = lo; i < hi; i++) body] *)
Fixpoint for_loop (fuel : nat) (i : Z) (body : Z -> M unit) : M unit :=
  match fuel with
  | O => ret tt
  | S fuel' => body i ;; for_loop fuel' (i + 1) body
  end.

Definition for_range (lo hi : Z) (body : Z -> M unit) : M unit :=
  for_loop (Z.to_nat (hi - lo)) lo body.

(** ** The ZeroMQ binding, the clock and the allocator *)

Definition guarded (ok : bool) (ev : bool -> event) : M unit := fun w =>
  if ok then (Normal tt, record (ev true) w)
  else (Thrown ZmqError, record (ev false) w).

Definition context_new : M unit := fun w => guarded (ctx_ok (env w)) EContext w.
Definition socket_new (t : socket_type) : M unit := fun w =>
  guarded (socket_ok (env w)) (ESocket t) w.
Definition socket_bind (addr : string) : M unit := fun w =>
  guarded (attach_ok (env w)) (EBind addr) w.
Definition socket_connect (addr : string) : M unit := fun w =>
  guarded (attach_ok (env w)) (EConnect addr) w.

(** [socket.recv (msg, zmq::recv_flags::none)]: [Some m] when the result
    holds a value and [msg] holds [m]; [None] when the result is empty and
    [msg] was left as it was. *)
Definition socket_recv : M (option message) := fun w =>
  let r := recv_at (env w) (n_recv w) in
  let w' := mkWorld (env w) (S (n_recv w)) (n_send w) (n_now w)
                    (ERecv r :: log w) in
  match r with
  | RecvMsg m => (Normal (Some m), w')
  | RecvAgain => (Normal None, w')
  | RecvThrow => (Thrown ZmqError, w')
  end.

(** [socket.send (msg, zmq::send_flags::none)]: whether the result holds a
    value. *)
Definition socket_send (m : message) : M bool := fun w =>
  let r := send_at (env w) (n_send w) in
  let w' := mkWorld (env w) (n_recv w) (S (n_send w)) (n_now w)
                    (ESend m r :: log w) in
  match r with
  | SendOk => (Normal true, w')
  | SendAgain => (Normal false, w')
  | SendThrow => (Thrown ZmqError, w')
  end.

(** [std::chrono::high_resolution_clock::now ()], in ticks of one
    nanosecond. *)
Definition clock_now : M Z := fun w =>
  (Normal (now_at (env w) (n_now w)),
   mkWorld (env w) (n_recv w) (n_send w) (S (n_now w)) (log w)).

(** [duration_cast<microseconds> (end - start).count ()]: truncation. *)
Definition elapsed_us (start stop : Z) : Z := Z.quot (stop - start) 1000.

Definition sleep_for (ms : Z) : M unit := emit (ESleep ms).

(** [std::vector<char> v (n, c)]: [std::length_error] beyond [max_size]. *)
Definition vector_new (n : Z) (c : ascii) : M (list ascii) :=
  if n >? SizeT.vector_max_size then throw StdException
  else ret (repeat c (Z.to_nat n)).

Definition argc (argv : list string) : Z := Z.of_nat (List.length argv).
Definition arg (argv : list string) (k : nat) : string := nth k argv "".

(** Exit status of the process: the value [main] returns; by falling off
    the end, 0; after an exception nothing catches, [abort] (134). *)
Definition run (main : M unit) (w : world) : Z * world :=
  match main w with
  | (Normal _, w') => (0, w')
  | (Returned c, w') => (c, w')
  | (Thrown _, w') => (134, w')
  end.

(** ** local_lat.cpp: the latency server *)

(** One turn of the echo loop. *)
Definition local_lat_echo (message_size : Z) (i : Z) : M unit :=
  recv_result <- socket_recv ;;
  match recv_result with
  | None =>
      cerr [Str "Error: Failed to receive message "; Num i; Str "\n"] ;;
      return_ 1
  | Some request =>
      if negb (size request =? message_size) then
        cerr [Str "Error: Message size mismatch. Expected "; Num message_size;
              Str ", got "; Num (size request); Str "\n"] ;;
        return_ 1
      else
        send_result <- socket_send request ;;
        if negb send_result then
          cerr [Str "Error: Failed to send message "; Num i; Str "\n"] ;;
          return_ 1
        else ret tt
  end.

(** The body of the [try] block. *)
Definition local_lat_session (bind_to : string)
    (message_size roundtrip_count : Z) : M unit :=
  context_new ;;
  socket_new REP ;;
  socket_bind bind_to ;;
  cout [Str "Listening on "; Str bind_to; Str "\n"] ;;
  cout [Str "Message size: "; Num message_size; Str " bytes\n"] ;;
  cout [Str "Roundtrip count: "; Num roundtrip_count; Str "\n"] ;;
  cout [Str "Waiting for messages...\n"] ;;
  (* Warm-up: neither result is looked at. *)
  warmup <- socket_recv ;;
  socket_send (match warmup with Some m => m | None => [] end) ;;
  for_range 0 roundtrip_count (local_lat_echo message_size) ;;
  cout [Str "\nCompleted "; Num roundtrip_count; Str " roundtrips.\n"].

Definition local_lat_main (argv : list string) : M unit :=
  if negb (argc argv =? 4) then
    cerr [Str "Usage: "; Str (arg argv 0);
          Str " <bind_to> <message_size> <roundtrip_count>\n"] ;;
    cerr [Str "Example: "; Str (arg argv 0); Str " tcp://*:5555 64 10000\n"] ;;
    return_ 1
  else
    let bind_to := arg argv 1 in
    let message_size := SizeT.of_int (atoi (arg argv 2)) in
    let roundtrip_count := atoi (arg argv 3) in
    if (message_size <=? 0) || (roundtrip_count <=? 0) then
      cerr [Str "Error: message_size and roundtrip_count must be positive\n"] ;;
      return_ 1
    else
      try_catch (local_lat_session bind_to message_size roundtrip_count) ;;
      return_ 0.

(** ** remote_lat.cpp: the latency client *)

Definition remote_lat_roundtrip (send_buf : list ascii) (message_size : Z)
    (i : Z) : M unit :=
  send_result <- socket_send (message_of send_buf message_size) ;;
  if negb send_result then
    cerr [Str "Error: Failed to send message "; Num i; Str "\n"] ;;
    return_ 1
  else
    recv_result <- socket_recv ;;
    match recv_result with
    | None =>
        cerr [Str "Error: Failed to receive message "; Num i; Str "\n"] ;;
        return_ 1
    | Some reply =>
        if negb (size reply =? message_size) then
          cerr [Str "Error: Message size mismatch. Expected ";
                Num message_size; Str ", got "; Num (size reply); Str "\n"] ;;
          return_ 1
        else ret tt
    end.

(** [static_cast<double> (elapsed) / static_cast<double> (roundtrip_count * 2)];
    the product is an [int]. *)
Definition remote_lat_latency (elapsed roundtrip_count : Z) : double :=
  d_div (d_of_Z elapsed) (d_of_Z (Int32.wrap (roundtrip_count * 2))).

(** [roundtrip_count * 1000000.0 / elapsed] *)
Definition remote_lat_rate (elapsed roundtrip_count : Z) : double :=
  d_div (d_mul (d_of_Z roundtrip_count) (d_of_Z 1000000)) (d_of_Z elapsed).

Definition remote_lat_report (elapsed roundtrip_count : Z) : M unit :=
  let latency := remote_lat_latency elapsed roundtrip_count in
  cout [Str "\n=== Latency Test Results ===\n"] ;;
  cout [Str "Average latency: "; Dbl latency; Str " us\n"] ;;
  cout [Str "Total elapsed time: "; Num elapsed; Str " us\n"] ;;
  cout [Str "Message rate: "; Dbl (remote_lat_rate elapsed roundtrip_count);
        Str " msg/s\n"].

Definition remote_lat_session (connect_to : string)
    (message_size roundtrip_count : Z) : M unit :=
  context_new ;;
  socket_new REQ ;;
  socket_connect connect_to ;;
  cout [Str "Connected to "; Str connect_to; Str "\n"] ;;
  cout [Str "Message size: "; Num message_size; Str " bytes\n"] ;;
  cout [Str "Roundtrip count: "; Num roundtrip_count; Str "\n"] ;;
  send_buf <- vector_new message_size "X" ;;
  _recv_buf <- vector_new message_size "000" ;;
  (* Warm-up: neither result is looked at. *)
  socket_send (message_of send_buf message_size) ;;
  socket_recv ;;
  start <- clock_now ;;
  for_range 0 roundtrip_count (remote_lat_roundtrip send_buf message_size) ;;
  stop <- clock_now ;;
  remote_lat_report (elapsed_us start stop) roundtrip_count.

Definition remote_lat_main (argv : list string) : M unit :=
  if negb (argc argv =? 4) then
    cerr [Str "Usage: "; Str (arg argv 0);
          Str " <connect_to> <message_size> <roundtrip_count>\n"] ;;
    cerr [Str "Example: "; Str (arg argv 0);
          Str " tcp://localhost:5555 64 10000\n"] ;;
    return_ 1
  else
    let connect_to := arg argv 1 in
    let message_size := SizeT.of_int (atoi (arg argv 2)) in
    let roundtrip_count := atoi (arg argv 3) in
    if (message_size <=? 0) || (roundtrip_count <=? 0) then
      cerr [Str "Error: message_size and roundtrip_count must be positive\n"] ;;
      return_ 1
    else
      try_catch (remote_lat_session connect_to message_size roundtrip_count) ;;
      return_ 0.

(** ** The progress indicator of the two throughput programs *)

(** [if (message_count > 100 && (i + 1) % (message_count / 10) == 0)];
    [&&] does not evaluate the remainder when the count is small. *)
Definition progress_due (message_count i : Z) : bool :=
  if message_count >? 100
  then Z.rem (i + 1) (Z.quot message_count 10) =? 0
  else false.

(** [int progress = ((i + 1) * 100) / message_count;] *)
Definition progress_percent (message_count i : Z) : Z :=
  Z.quot (Int32.wrap ((i + 1) * 100)) message_count.

Definition progress_line (message_count i : Z) : list item :=
  [Str "Progress: "; Num (progress_percent message_count i); Str "% (";
   Num (i + 1); Str "/"; Num message_count; Str ")\n"].

Definition progress_indicator (message_count i : Z) : M unit :=
  if progress_due message_count i
  then cout (progress_line message_count i)
  else ret tt.

(** ** local_thr.cpp: the throughput receiver *)

Definition local_thr_receive (message_size message_count : Z) (i : Z)
  : M unit :=
  recv_result <- socket_recv ;;
  match recv_result with
  | None =>
      cerr [Str "Error: Failed to receive message "; Num i; Str "\n"] ;;
      return_ 1
  | Some msg =>
      if negb (size msg =? message_size) then
        cerr [Str "Error: Message size mismatch at message "; Num i;
              Str ". Expected "; Num message_size; Str ", got ";
              Num (size msg); Str "\n"] ;;
        return_ 1
      else progress_indicator message_count i
  end.

(** [static_cast<double> (elapsed) / 1000000.0] *)
Definition local_thr_elapsed_sec (elapsed : Z) : double :=
  d_div (d_of_Z elapsed) (d_of_Z 1000000).

(** [static_cast<double> (message_count - 1) / elapsed_sec] *)
Definition local_thr_throughput (message_count : Z) (elapsed_sec : double)
  : double :=
  d_div (d_of_Z (message_count - 1)) elapsed_sec.

(** [(throughput * message_size * 8) / 1000000.0] *)
Definition local_thr_megabits (throughput : double) (message_size : Z)
  : double :=
  d_div (d_mul (d_mul throughput (d_of_Z message_size)) (d_of_Z 8))
        (d_of_Z 1000000).

(** [message_size * message_count / (1024.0 * 1024.0)]; the product is a
    [size_t]. *)
Definition total_data_mb (message_size message_count : Z) : double :=
  d_div (d_of_Z (SizeT.mul message_size (SizeT.of_int message_count)))
        (d_mul (d_of_Z 1024) (d_of_Z 1024)).

Definition local_thr_report (elapsed message_size message_count : Z)
  : M unit :=
  let elapsed_sec := local_thr_elapsed_sec elapsed in
  let throughput := local_thr_throughput message_count elapsed_sec in
  let megabits := local_thr_megabits throughput message_size in
  cout [Str "\n=== Throughput Test Results ===\n"] ;;
  cout [Str "Received: "; Num message_count; Str " messages\n"] ;;
  cout [Str "Message size: "; Num message_size; Str " bytes\n"] ;;
  cout [Str "Total data: "; Dbl (total_data_mb message_size message_count);
        Str " MB\n"] ;;
  cout [Str "Elapsed time: "; Dbl elapsed_sec; Str " seconds\n"] ;;
  cout [Str "Throughput: "; Dbl throughput; Str " msg/s\n"] ;;
  cout [Str "Throughput: "; Dbl megabits; Str " Mb/s\n"].

Definition local_thr_first (message_size : Z) : M unit :=
  recv_result <- socket_recv ;;
  match recv_result with
  | None =>
      cerr [Str "Error: Failed to receive first message\n"] ;;
      return_ 1
  | Some first_msg =>
      if negb (size first_msg =? message_size) then
        cerr [Str "Error: Message size mismatch. Expected "; Num message_size;
              Str ", got "; Num (size first_msg); Str "\n"] ;;
        return_ 1
      else ret tt
  end.

Definition local_thr_session (bind_to : string)
    (message_size message_count : Z) : M unit :=
  context_new ;;
  socket_new PULL ;;
  socket_bind bind_to ;;
  cout [Str "Listening on "; Str bind_to; Str "\n"] ;;
  cout [Str "Message size: "; Num message_size; Str " bytes\n"] ;;
  cout [Str "Message count: "; Num message_count; Str "\n"] ;;
  cout [Str "Waiting for messages...\n"] ;;
  local_thr_first message_size ;;
  cout [Str "First message received. Starting measurement...\n"] ;;
  start <- clock_now ;;
  for_range 1 message_count (local_thr_receive message_size message_count) ;;
  stop <- clock_now ;;
  local_thr_report (elapsed_us start stop) message_size message_count.

Definition local_thr_main (argv : list string) : M unit :=
  if negb (argc argv =? 4) then
    cerr [Str "Usage: "; Str (arg argv 0);
          Str " <bind_to> <message_size> <message_count>\n"] ;;
    cerr [Str "Example: "; Str (arg argv 0); Str " tcp://*:5556 64 1000000\n"] ;;
    return_ 1
  else
    let bind_to := arg argv 1 in
    let message_size := SizeT.of_int (atoi (arg argv 2)) in
    let message_count := atoi (arg argv 3) in
    if (message_size <=? 0) || (message_count <=? 0) then
      cerr [Str "Error: message_size and message_count must be positive\n"] ;;
      return_ 1
    else
      try_catch (local_thr_session bind_to message_size message_count) ;;
      return_ 0.

(** ** remote_thr.cpp: the throughput sender *)

Definition remote_thr_send (buffer : list ascii)
    (message_size message_count : Z) (i : Z) : M unit :=
  result <- socket_send (message_of buffer message_size) ;;
  if negb result then
    cerr [Str "Error: Failed to send message "; Num i; Str "\n"] ;;
    return_ 1
  else progress_indicator message_count i.

Definition remote_thr_session (connect_to : string)
    (message_size message_count : Z) : M unit :=
  context_new ;;
  socket_new PUSH ;;
  socket_connect connect_to ;;
  cout [Str "Connected to "; Str connect_to; Str "\n"] ;;
  cout [Str "Message size: "; Num message_size; Str " bytes\n"] ;;
  cout [Str "Message count: "; Num message_count; Str "\n"] ;;
  sleep_for 100 ;;
  buffer <- vector_new message_size "X" ;;
  cout [Str "Sending messages...\n"] ;;
  for_range 0 message_count (remote_thr_send buffer message_size message_count) ;;
  cout [Str "\nSent "; Num message_count; Str " messages successfully.\n"] ;;
  cout [Str "Total data sent: ";
        Dbl (total_data_mb message_size message_count); Str " MB\n"] ;;
  sleep_for 100.

Definition remote_thr_main (argv : list string) : M unit :=
  if negb (argc argv =? 4) then
    cerr [Str "Usage: "; Str (arg argv 0);
          Str " <connect_to> <message_size> <message_count>\n"] ;;
    cerr [Str "Example: "; Str (arg argv 0);
          Str " tcp://localhost:5556 64 1000000\n"] ;;
    return_ 1
  else
    let connect_to := arg argv 1 in
    let message_size := SizeT.of_int (atoi (arg argv 2)) in
    let message_count := atoi (arg argv 3) in
    if (message_size <=? 0) || (message_count <=? 0) then
      cerr [Str "Error: message_size and message_count must be positive\n"] ;;
      return_ 1
    else
      try_catch (remote_thr_session connect_to message_size message_count) ;;
      return_ 0.

(** ** What an observer sees of a run *)

(** The events in the order they happened. *)
Definition history (w : world) : list event := rev (log w).

Definition is_transport (ev : event) : bool :=
  match ev with
  | EContext _ | ESocket _ _ | EBind _ _ | EConnect _ _
  | ERecv _ | ESend _ _ => true
  | ESleep _ | EStdout _ | EStderr _ => false
  end.

Definition is_exchange (ev : event) : bool :=
  match ev with
  | ERecv _ | ESend _ _ => true
  | _ => false
  end.

Definition transport_ops (w : world) : list event :=
  filter is_transport (history w).

Definition exchanges (w : world) : list event :=
  filter is_exchange (history w).

Definition stderr_of (ev : event) : list (list item) :=
  match ev with EStderr l => [l] | _ => [] end.

Definition stderr_lines (w : world) : list (list item) :=
  flat_map stderr_of (history w).

(** A peer and a clock given by finite scripts. *)
Definition scripted (ctx sock attach : bool) (recvs : list recv_outcome)
    (sends : list send_outcome) (ticks : list Z) : environment :=
  mkEnv ctx sock attach
        (fun k => nth k recvs RecvThrow)
        (fun k => nth k sends SendOk)
        (fun k => nth k ticks 0).

(** A peer that always delivers [m], a socket that always sends, a clock
    that reads [t0] first and [t1] afterwards. *)
Definition steady (m : message) (t0 t1 : Z) : environment :=
  mkEnv true true true
        (fun _ => RecvMsg m)
        (fun _ => SendOk)
        (fun k => match k with O => t0 | _ => t1 end).

Definition bytes (s : string) : message := list_ascii_of_string s.

(** ** Specification-side vocabulary *)

Inductive exchange_kind : Type := KRecv | KSend.

Definition kind_of (ev : event) : list exchange_kind :=
  match ev with
  | ERecv _ => [KRecv]
  | ESend _ _ => [KSend]
  | _ => []
  end.

(** [k] receive/send pairs, one after the other. *)
Definition pairs (k : nat) : list exchange_kind :=
  List.concat (repeat [KRecv; KSend] k).

(** The content of the [message_t] a receive was given, after the call. *)
Definition payload (r : recv_outcome) : message :=
  match r with
  | RecvMsg m => m
  | RecvAgain | RecvThrow => []
  end.

(** A sequence of exchanges in which every receive is answered at once by a
    send of the very bytes received. *)
Fixpoint echoes (l : list event) : Prop :=
  match l with
  | [] => True
  | ERecv r :: ESend m _ :: l' => m = payload r /\ echoes l'
  | _ => False
  end.

(** The exchanges of [msgs] echoed in turn. *)
Definition echo_events (msgs : list message) : list event :=
  flat_map (fun m => [ERecv (RecvMsg m); ESend m SendOk]) msgs.

(** How [main] turns the outcome of its [try] block into an exit status. *)
Definition finish (r : outcome unit * world) : Z * world :=
  match r with
  | (Normal _, w) => (0, w)
  | (Returned c, w) => (c, w)
  | (Thrown ZmqError, w) =>
      (1, record (EStderr [Str "ZMQ Error: "; What; Str "\n"]) w)
  | (Thrown StdException, w) =>
      (1, record (EStderr [Str "Error: "; What; Str "\n"]) w)
  end.

(** The history of a run of the latency server that completes: set-up, the
    warm-up exchange, the echoed messages, the closing line. *)
Definition local_lat_history (bind_to : string)
    (message_size roundtrip_count : Z) (r0 : recv_outcome) (s0 : send_outcome)
    (msgs : list message) : list event :=
  [EContext true; ESocket REP true; EBind bind_to true;
   EStdout [Str "Listening on "; Str bind_to; Str "\n"];
   EStdout [Str "Message size: "; Num message_size; Str " bytes\n"];
   EStdout [Str "Roundtrip count: "; Num roundtrip_count; Str "\n"];
   EStdout [Str "Waiting for messages...\n"];
   ERecv r0; ESend (payload r0) s0]
  ++ echo_events msgs
  ++ [EStdout [Str "\nCompleted "; Num roundtrip_count;
               Str " roundtrips.\n"]].

(** The two wordings of the size-mismatch diagnostic. *)
Definition mismatch_diagnostic (expected actual : Z) : list item :=
  [Str "Error: Message size mismatch. Expected "; Num expected;
   Str ", got "; Num actual; Str "\n"].

Definition mismatch_diagnostic_at (index expected actual : Z) : list item :=
  [Str "Error: Message size mismatch at message "; Num index;
   Str ". Expected "; Num expected; Str ", got "; Num actual; Str "\n"].

(** A line names a number when it prints it. *)
Definition names (line : list item) (z : Z) : Prop := In (Num z) line.

(** The run ended on its [k]-th receive, which delivered [m]: the receive
    and then the diagnostic [diag] on standard error are the last two
    things that happened. *)
Definition stopped_at (w : world) (k : nat) (m : message)
    (diag : list item) : Prop :=
  n_recv w = S k /\
  exists l, log w = EStderr diag :: ERecv (RecvMsg m) :: l.

(** A loop body that receives at most once and, when the message received
    has not the size [s], leaves with status 1 after printing [diag]. *)
Definition checked_turn (s : Z) (diag : Z -> message -> list item)
    (body : Z -> M unit) : Prop :=
  forall i w o w', body i w = (o, w') ->
    env w' = env w /\
    ((n_recv w' = n_recv w /\ o <> Normal tt) \/
     (n_recv w' = S (n_recv w) /\
      match recv_at (env w) (n_recv w) with
      | RecvMsg m =>
          if size m =? s then True
          else o = Returned 1 /\
               exists l, log w' = EStderr (diag i m) :: ERecv (RecvMsg m) :: l
      | RecvAgain | RecvThrow => o <> Normal tt
      end)).

(** Concrete runs used to exercise the theorems. *)
Definition server_demo : Z * world :=
  run (local_lat_main ["./local_lat"; "tcp://*:5555"; "2"; "3"])
      (init (steady (bytes "ab") 0 0)).

(** A run ended by the size check on its [k]-th receive. *)
Definition fatal_mismatch (r : Z * world) (k : nat) (m : message)
    (diag : list item) : Prop :=
  fst r = 1 /\ stopped_at (snd r) k m diag.

Definition mismatch_peer : environment :=
  scripted true true true [RecvMsg (bytes "ab"); RecvMsg (bytes "abc")] [] [].

(** A peer whose first message has three bytes and every later one two. *)
Definition warmup_mismatch_peer : environment :=
  mkEnv true true true
        (fun k => match k with
                  | O => RecvMsg (bytes "abc")
                  | S _ => RecvMsg (bytes "ab")
                  end)
        (fun _ => SendOk)
        (fun _ => 0).

(** The latest line of standard output of the form [label x unit], with
    [x] a [double]. *)
Fixpoint find_report (label unit : string) (l : list event) : option double :=
  match l with
  | [] => None
  | EStdout [Str a; Dbl x; Str b] :: l' =>
      if (String.eqb a label && String.eqb b unit)%bool then Some x
      else find_report label unit l'
  | _ :: l' => find_report label unit l'
  end.

Definition reported (label unit : string) (w : world) : option double :=
  find_report label unit (log w).

(** The microseconds between the two readings of the clock. *)
Definition measured_us (e : environment) : Z :=
  elapsed_us (now_at e 0%nat) (now_at e 1%nat).

(** The formulas of the specification, in [double] arithmetic over the
    mathematical integers. *)
Definition spec_latency_us (elapsed_us roundtrip_count : Z) : double :=
  d_div (d_of_Z elapsed_us) (d_of_Z (roundtrip_count * 2)).

Definition spec_message_rate (elapsed_us roundtrip_count : Z) : double :=
  d_div (d_mul (d_of_Z roundtrip_count) (d_of_Z 1000000)) (d_of_Z elapsed_us).

Definition spec_elapsed_sec (elapsed_us : Z) : double :=
  d_div (d_of_Z elapsed_us) (d_of_Z 1000000).

Definition spec_throughput (message_count : Z) (elapsed_sec : double)
  : double :=
  d_div (d_of_Z (message_count - 1)) elapsed_sec.

Definition spec_megabits (throughput : double) (message_size : Z) : double :=
  d_div (d_mul (d_mul throughput (d_of_Z message_size)) (d_of_Z 8))
        (d_of_Z 1000000).

Definition spec_total_mb (message_size message_count : Z) : double :=
  d_div (d_of_Z (message_size * message_count)) (d_of_Z (1024 * 1024)).

(** A loop body that leaves the environment and the clock alone and leaves
    the loop early only with status 1. *)
Definition quiet_turn (body : Z -> M unit) : Prop :=
  forall i w o w', body i w = (o, w') ->
    env w' = env w /\ n_now w' = n_now w /\
    match o with Returned c => c = 1 | _ => True end.

(** A peer and a transport with which nothing fails: set-up succeeds, every
    send is accepted, the warm-up receive does not throw (its message may
    have any size), and every later receive delivers [s] bytes. *)
Definition cooperative (e : environment) (s : Z) : Prop :=
  ctx_ok e = true /\ socket_ok e = true /\ attach_ok e = true /\
  (forall k, send_at e k = SendOk) /\
  recv_at e 0%nat <> RecvThrow /\
  (forall k, (1 <= k)%nat -> exists m, recv_at e k = RecvMsg m /\ size m = s).

Definition receiver_demo : Z * world :=
  run (local_thr_main ["./local_thr"; "tcp://*:5556"; "2"; "4"])
      (init (steady (bytes "ab") 0 2000000)).

(** The four programs, each with the body of its [try] block. *)
Definition programs
  : list ((list string -> M unit) * (string -> Z -> Z -> M unit)) :=
  [(local_lat_main, local_lat_session);
   (remote_lat_main, remote_lat_session);
   (local_thr_main, local_thr_session);
   (remote_thr_main, remote_thr_session)].

(** Shapes of argument strings. *)
Fixpoint digit_free (s : string) : bool :=
  match s with
  | EmptyString => true
  | String c r =>
      match digit_of c with
      | Some _ => false
      | None => digit_free r
      end
  end.

Fixpoint all_digits (s : string) : bool :=
  match s with
  | EmptyString => true
  | String c r =>
      match digit_of c with
      | Some _ => all_digits r
      | None => false
      end
  end.

Definition starts_with_digit (s : string) : bool :=
  match s with
  | EmptyString => false
  | String c _ =>
      match digit_of c with
      | Some _ => true
      | None => false
      end
  end.

(** A run that stopped at the validation of its arguments: status 1 and
    nothing done on the transport. *)
Definition rejected (r : Z * world) : Prop :=
  fst r = 1 /\ transport_ops (snd r) = [].

(** The values the loop variable takes: [fuel] of them, from [i] on. *)
Fixpoint indices (fuel : nat) (i : Z) : list Z :=
  match fuel with
  | O => []
  | S fuel' => i :: indices fuel' (i + 1)
  end.

(** The cumulative message counts [first], [first + 1], ..., [c]. *)
Definition cumulative_counts (first c : Z) : list Z :=
  indices (Z.to_nat (c - first + 1)) first.

(** [k] is a multiple of a tenth of the count, the tenth rounded down. *)
Definition on_tenth (c k : Z) : bool := k mod (c / 10) =? 0.

Definition tenth_multiples (first c : Z) : list Z :=
  filter (on_tenth c) (cumulative_counts first c).

(** The progress line for a cumulative count [k], percentage rounded
    down. *)
Definition spec_progress_line (c k : Z) : list item :=
  [Str "Progress: "; Num (k * 100 / c); Str "% ("; Num k; Str "/"; Num c;
   Str ")\n"].

(** With the [k]-th message the fraction received, [k / c], reaches or
    passes a multiple of 10% that [(k - 1) / c] was still below. *)
Definition crosses_tenth (c k : Z) : bool :=
  (10 * (k - 1)) / c <? (10 * k) / c.

Definition progress_of (ev : event) : list (list item) :=
  match ev with
  | EStdout (Str a :: rest) =>
      if String.eqb a "Progress: " then [Str a :: rest] else []
  | _ => []
  end.

Definition progress_lines (w : world) : list (list item) :=
  flat_map progress_of (history w).

(** The count a progress line shows. *)
Definition shown_count (line : list item) : list Z :=
  match line with
  | [_; _; _; Num k; _; _; _] => [k]
  | _ => []
  end.

Definition shown_counts (w : world) : list Z :=
  flat_map shown_count (progress_lines w).

(** A loop body that, when it completes, has printed the progress line of
    its turn if one was due, and no other. *)
Definition progress_turn (c : Z) (body : Z -> M unit) : Prop :=
  forall i w w', body i w = (Normal tt, w') ->
    progress_lines w'
    = progress_lines w
      ++ (if progress_due c i then [progress_line c i] else []).

(** What the progress indicator of a run with first count [first] shows. *)
Definition progress_as_scheduled (first c : Z) (w : world) : Prop :=
  (c <= 100 -> progress_lines w = []) /\
  (100 < c ->
   shown_counts w = tenth_multiples first c /\
   (c <= 21474836 ->
    progress_lines w = map (spec_progress_line c) (tenth_multiples first c)) /\
   (c mod 10 = 0 ->
    tenth_multiples first c
    = filter (fun k => (10 * k) mod c =? 0) (cumulative_counts first c))).

Definition progress_demo : Z * world :=
  run (local_thr_main ["./local_thr"; "tcp://*:5556"; "2"; "110"])
      (init (steady (bytes "ab") 0 2000000)).

(** ** Vocabulary for whole runs *)

(** What a program does apart from writing to its two streams: the calls on
    the transport and the pauses. *)
Definition is_action (ev : event) : bool :=
  match ev with
  | EStdout _ | EStderr _ => false
  | _ => true
  end.

Definition actions (w : world) : list event :=
  filter is_action (history w).

(** The message the two active programs send: [message_size] times ['X']. *)
Definition request (message_size : Z) : message :=
  repeat "X"%char (Z.to_nat message_size).

(** The actions of a run of the throughput sender that completes. *)
Definition remote_thr_actions (connect_to : string)
    (message_size message_count : Z) : list event :=
  [EContext true; ESocket PUSH true; EConnect connect_to true; ESleep 100]
  ++ repeat (ESend (request message_size) SendOk) (Z.to_nat message_count)
  ++ [ESleep 100].

(** The actions of a run of the latency client that completes: the warm-up
    exchange with outcomes [s0] and [r0], then one request and one reply per
    round trip. *)
Definition remote_lat_actions (connect_to : string) (message_size : Z)
    (s0 : send_outcome) (r0 : recv_outcome) (replies : list message)
  : list event :=
  [EContext true; ESocket REQ true; EConnect connect_to true;
   ESend (request message_size) s0; ERecv r0]
  ++ flat_map (fun m => [ESend (request message_size) SendOk;
                         ERecv (RecvMsg m)]) replies.

(** The actions of a run of the throughput receiver that completes. *)
Definition local_thr_actions (bind_to : string) (msgs : list message)
  : list event :=
  [EContext true; ESocket PULL true; EBind bind_to true]
  ++ map (fun m => ERecv (RecvMsg m)) msgs.

(** A loop body whose completed turn adds to the actions a segment with
    [P] and nothing to standard error, and whose early [return] has
    status 1 and a diagnostic as the last thing written. *)
Definition orderly_turn (P : list event -> Prop) (body : Z -> M unit)
  : Prop :=
  forall i w o w', body i w = (o, w') ->
    match o with
    | Normal _ =>
        (exists seg, P seg /\ actions w' = actions w ++ seg) /\
        stderr_lines w' = stderr_lines w
    | Returned c => c = 1 /\ exists d l, log w' = EStderr d :: l
    | Thrown _ => stderr_lines w' = stderr_lines w
    end.

(** The same of a whole [try] block started in a fresh world, with the
    actions of a completed run given by [expected]. *)
Definition orderly_session (expected : list event -> Prop)
    (r : outcome unit * world) : Prop :=
  match fst r with
  | Normal _ => expected (actions (snd r)) /\ stderr_lines (snd r) = []
  | Returned c => c = 1 /\ exists d l, log (snd r) = EStderr d :: l
  | Thrown _ => stderr_lines (snd r) = []
  end.

(** The diagnostic of the handler for [zmq::error_t]. *)
Definition zmq_error_line : list item := [Str "ZMQ Error: "; What; Str "\n"].

(** The diagnostic of the handler for [std::exception]. *)
Definition std_error_line : list item := [Str "Error: "; What; Str "\n"].

(** The first [j] positive multiples of [q]. *)
Definition multiples (q : Z) (j : nat) : list Z :=
  map (fun i => i * q) (indices j 1).

(** A run whose status and diagnostics agree: status 0 and nothing on
    standard error, or status 1 and a diagnostic as the last thing done. *)
Definition accounted (r : Z * world) : Prop :=
  (fst r = 0 /\ stderr_lines (snd r) = []) \/
  (fst r = 1 /\ exists d l, log (snd r) = EStderr d :: l).

(** The transport set itself up. *)
Definition set_up (e : environment) : Prop :=
  ctx_ok e = true /\ socket_ok e = true /\ attach_ok e = true.

(** A run that failed while setting the transport up: status 1, not one
    message received or sent, and the [zmq::error_t] diagnostic alone on
    standard error. *)
Definition failed_at_setup (r : Z * world) : Prop :=
  fst r = 1 /\ exchanges (snd r) = [] /\
  stderr_lines (snd r) = [zmq_error_line].

Definition sender_demo : Z * world :=
  run (remote_thr_main ["./remote_thr"; "tcp://localhost:5556"; "2"; "3"])
      (init (steady (bytes "ab") 0 0)).

Definition client_demo : Z * world :=
  run (remote_lat_main ["./remote_lat"; "tcp://localhost:5555"; "2"; "3"])
      (init (steady (bytes "ab") 0 50000)).

(** A transport on which binding and connecting fail. *)
Definition unreachable : environment := scripted true true false [] [] [].

(** ** Progress in runs that stop early *)

(** A message that arrived with the configured size, or a message the
    socket accepted. *)
Definition made_it (s : Z) (ev : event) : bool :=
  match ev with
  | ERecv (RecvMsg m) => size m =? s
  | ESend _ SendOk => true
  | _ => false
  end.

(** The cumulative count a run reached: how many messages it received with
    the configured size, or had accepted for sending. *)
Definition delivered (s : Z) (w : world) : Z :=
  Z.of_nat (List.length (filter (made_it s) (history w))).

(** A loop body that, when its turn completes, has delivered one message
    more and printed the progress line of the turn if one was due, and that
    otherwise has delivered and printed nothing. *)
Definition counting_turn (s c : Z) (body : Z -> M unit) : Prop :=
  forall i w o w', body i w = (o, w') ->
    match o with
    | Normal _ =>
        delivered s w' = delivered s w + 1 /\
        progress_lines w'
        = progress_lines w
          ++ (if progress_due c i then [progress_line c i] else [])
    | _ =>
        delivered s w' = delivered s w /\ progress_lines w' = progress_lines w
    end.

(** What the progress indicator has shown when a run ends, however it ends:
    a line at each cumulative count from [first] to the count reached that
    is a multiple of a tenth of [c]. *)
Definition progress_follows (first c s : Z) (w : world) : Prop :=
  (c <= 100 -> progress_lines w = []) /\
  (100 < c ->
   shown_counts w
   = filter (on_tenth c) (cumulative_counts first (delivered s w)) /\
   (c <= 21474836 ->
    progress_lines w
    = map (spec_progress_line c)
          (filter (on_tenth c) (cumulative_counts first (delivered s w)))) /\
   (c mod 10 = 0 ->
    filter (on_tenth c) (cumulative_counts first (delivered s w))
    = filter (fun k => (10 * k) mod c =? 0)
             (cumulative_counts first (delivered s w)))).

(** A peer whose 150th message has three bytes; the others have two. *)
Definition late_mismatch_peer : environment :=
  mkEnv true true true
        (fun k => if (k =? 149)%nat then RecvMsg (bytes "abc")
                  else RecvMsg (bytes "ab"))
        (fun _ => SendOk)
        (fun _ => 0).

Definition stopped_demo : Z * world :=
  run (local_thr_main ["./local_thr"; "tcp://*:5556"; "2"; "200"])
      (init late_mismatch_peer).
(** * Properties *)

(** ** Reasoning principles *)

Lemma run_try_catch (body : M unit) (w : world) :
  run (try_catch body ;; return_ 0) w = finish (body w).
Proof.
  unfold run, bind, try_catch, finish.
  destruct (body w) as [[[]|c|[]] w1]; reflexivity.
Qed.

(** Invariant rule for the counted loop: [I] holds between turns, [Q] holds
    of a turn that leaves the loop early. *)
Lemma for_loop_rule (body : Z -> M unit)
    (I : Z -> world -> Prop) (Q : outcome unit -> world -> Prop) :
  (forall i w o w', I i w -> body i w = (o, w') ->
     match o with Normal _ => I (i + 1) w' | _ => Q o w' end) ->
  forall fuel i w o w', I i w -> for_loop fuel i body w = (o, w') ->
     match o with Normal _ => I (i + Z.of_nat fuel) w' | _ => Q o w' end.
Proof.
  intros Hbody fuel. induction fuel as [|fuel IH]; intros i w o w' Hi Hrun.
  - cbn in Hrun. injection Hrun as <- <-. now rewrite Z.add_0_r.
  - cbn [for_loop] in Hrun. unfold bind in Hrun.
    destruct (body i w) as [o1 w1] eqn:Hb.
    specialize (Hbody i w o1 w1 Hi Hb).
    destruct o1 as [[]|c|e].
    + specialize (IH (i + 1) w1 o w' Hbody Hrun).
      replace (i + Z.of_nat (S fuel)) with (i + 1 + Z.of_nat fuel) by lia.
      exact IH.
    + injection Hrun as <- <-. exact Hbody.
    + injection Hrun as <- <-. exact Hbody.
Qed.

(** Stepping through a [main]: the end of a run, a set-up call and its
    failure, a line of output, an allocation, a reading of the clock. *)

Ltac done_run := let H := fresh "Hend" in intros H; injection H as <- <-.

Ltac setup_step :=
  unfold bind at 1;
  unfold context_new, socket_new, socket_bind, socket_connect, guarded;
  cbn [env record n_recv n_send n_now log init];
  match goal with
  | |- context [if ?b then _ else _] => destruct b
  end.

Ltac emit_step :=
  unfold bind at 1; unfold cout, cerr, sleep_for, emit;
  cbn [env record n_recv n_send n_now log init].

Ltac vector_step :=
  unfold bind at 1; unfold vector_new at 1;
  match goal with
  | |- context [if ?b then _ else _] => destruct b
  end; unfold throw, ret.

Ltac clock_step :=
  unfold bind at 1; unfold clock_now at 1;
  cbn [env record n_recv n_send n_now log init].

(** ** The arguments of [main] *)

Section MainShape.
Variables prog addr sarg carg : string.

Lemma local_lat_main_valid w :
  0 < SizeT.of_int (atoi sarg) -> 0 < atoi carg ->
  run (local_lat_main [prog; addr; sarg; carg]) w
  = finish (local_lat_session addr (SizeT.of_int (atoi sarg)) (atoi carg) w).
Proof.
  intros Hs Hc. unfold local_lat_main.
  change (argc [prog; addr; sarg; carg] =? 4) with true.
  cbn [negb arg nth].
  replace ((SizeT.of_int (atoi sarg) <=? 0) || (atoi carg <=? 0))%bool
    with false
    by (symmetry; apply orb_false_iff; split; apply Z.leb_gt; assumption).
  apply run_try_catch.
Qed.

Lemma remote_lat_main_valid w :
  0 < SizeT.of_int (atoi sarg) -> 0 < atoi carg ->
  run (remote_lat_main [prog; addr; sarg; carg]) w
  = finish (remote_lat_session addr (SizeT.of_int (atoi sarg)) (atoi carg) w).
Proof.
  intros Hs Hc. unfold remote_lat_main.
  change (argc [prog; addr; sarg; carg] =? 4) with true.
  cbn [negb arg nth].
  replace ((SizeT.of_int (atoi sarg) <=? 0) || (atoi carg <=? 0))%bool
    with false
    by (symmetry; apply orb_false_iff; split; apply Z.leb_gt; assumption).
  apply run_try_catch.
Qed.

Lemma local_thr_main_valid w :
  0 < SizeT.of_int (atoi sarg) -> 0 < atoi carg ->
  run (local_thr_main [prog; addr; sarg; carg]) w
  = finish (local_thr_session addr (SizeT.of_int (atoi sarg)) (atoi carg) w).
Proof.
  intros Hs Hc. unfold local_thr_main.
  change (argc [prog; addr; sarg; carg] =? 4) with true.
  cbn [negb arg nth].
  replace ((SizeT.of_int (atoi sarg) <=? 0) || (atoi carg <=? 0))%bool
    with false
    by (symmetry; apply orb_false_iff; split; apply Z.leb_gt; assumption).
  apply run_try_catch.
Qed.

Lemma remote_thr_main_valid w :
  0 < SizeT.of_int (atoi sarg) -> 0 < atoi carg ->
  run (remote_thr_main [prog; addr; sarg; carg]) w
  = finish (remote_thr_session addr (SizeT.of_int (atoi sarg)) (atoi carg) w).
Proof.
  intros Hs Hc. unfold remote_thr_main.
  change (argc [prog; addr; sarg; carg] =? 4) with true.
  cbn [negb arg nth].
  replace ((SizeT.of_int (atoi sarg) <=? 0) || (atoi carg <=? 0))%bool
    with false
    by (symmetry; apply orb_false_iff; split; apply Z.leb_gt; assumption).
  apply run_try_catch.
Qed.
End MainShape.

(** ** The exchanges of the latency server *)

Lemma local_lat_echo_turn s i w o w' :
  local_lat_echo s i w = (o, w') ->
  match o with
  | Normal _ =>
      exists m, size m = s /\
        log w' = ESend m SendOk :: ERecv (RecvMsg m) :: log w
  | Returned c => c = 1
  | Thrown _ => True
  end.
Proof.
  unfold local_lat_echo, bind, socket_recv, socket_send, cerr, emit, return_,
    ret.
  destruct (recv_at (env w) (n_recv w)) as [m| |]; cbn.
  - destruct (size m =? s) eqn:Hsz; cbn.
    + destruct (send_at (env w) (n_send w)); cbn; intros H; injection H as <- <-; auto.
      exists m. split; [now apply Z.eqb_eq|reflexivity].
    + intros H; injection H as <- <-; auto.
  - intros H; injection H as <- <-; auto.
  - intros H; injection H as <- <-; auto.
Qed.

Lemma local_lat_loop_shape s fuel : forall i w o w',
  for_loop fuel i (local_lat_echo s) w = (o, w') ->
  match o with
  | Normal _ =>
      exists msgs, List.length msgs = fuel /\
        Forall (fun m => size m = s) msgs /\
        log w' = rev (echo_events msgs) ++ log w
  | Returned c => c = 1
  | Thrown _ => True
  end.
Proof.
  induction fuel as [|fuel IH]; intros i w o w' Hrun.
  - injection Hrun as <- <-. exists []. repeat split. constructor.
  - cbn [for_loop] in Hrun. unfold bind in Hrun.
    destruct (local_lat_echo s i w) as [o1 w1] eqn:Hturn.
    apply local_lat_echo_turn in Hturn.
    destruct o1 as [[]|c1|e1].
    + destruct Hturn as (m & Hm & Hlog).
      specialize (IH _ _ _ _ Hrun).
      destruct o as [[]|c|e]; auto.
      destruct IH as (msgs & Hlen & Hall & Hlog').
      exists (m :: msgs). repeat split.
      * cbn. now rewrite Hlen.
      * now constructor.
      * rewrite Hlog', Hlog. cbn [echo_events flat_map app rev].
        fold (echo_events msgs). now rewrite <- !app_assoc.
    + injection Hrun as <- <-. exact Hturn.
    + injection Hrun as <- <-. exact I.
Qed.

Lemma local_lat_session_shape addr s n w o w' :
  local_lat_session addr s n w = (o, w') ->
  match o with
  | Normal _ =>
      exists r0 s0 msgs, List.length msgs = Z.to_nat n /\
        Forall (fun m => size m = s) msgs /\
        log w' = rev (local_lat_history addr s n r0 s0 msgs) ++ log w
  | Returned c => c = 1
  | Thrown _ => True
  end.
Proof.
  unfold local_lat_session, for_range.
  unfold bind at 1. unfold context_new, guarded.
  destruct (ctx_ok (env w)); [|intros H; injection H as <- <-; exact I].
  unfold bind at 1. unfold socket_new, guarded. cbn [env record].
  destruct (socket_ok (env w)); [|intros H; injection H as <- <-; exact I].
  unfold bind at 1. unfold socket_bind, guarded. cbn [env record].
  destruct (attach_ok (env w)); [|intros H; injection H as <- <-; exact I].
  unfold cout, emit.
  do 4 (unfold bind at 1; cbn [env record n_recv n_send n_now log]).
  unfold bind at 1. unfold socket_recv. cbn [env record n_recv n_send n_now log].
  remember (recv_at (env w) (n_recv w)) as r0 eqn:Hr0.
  assert (Hpay : match r0 with RecvMsg m => m | _ => [] end = payload r0)
    by (destruct r0; reflexivity).
  destruct r0 as [m0| |];
    [ | | intros H; injection H as <- <-; exact I ].
  all: unfold bind at 1; unfold socket_send;
    cbn [env record n_recv n_send n_now log];
    remember (send_at (env w) (n_send w)) as s0 eqn:Hs0;
    destruct s0; [ | | intros H; injection H as <- <-; exact I ].
  all: unfold bind at 1;
    match goal with
    | |- context [for_loop ?f ?i ?b ?w0] =>
        destruct (for_loop f i b w0) as [o1 w1] eqn:Hloop
    end;
    apply local_lat_loop_shape in Hloop;
    destruct o1 as [[]|c1|e1];
    [ | intros H; injection H as <- <-; exact Hloop
      | intros H; injection H as <- <-; exact I ];
    intros H; injection H as <- <-;
    destruct Hloop as (msgs & Hlen & Hall & Hlog);
    cbn [log] in Hlog.
  all: exists (recv_at (env w) (n_recv w)), (send_at (env w) (n_send w)), msgs;
    rewrite <- Hr0, <- Hs0;
    (split; [rewrite Hlen; f_equal; lia|]);
    (split; [exact Hall|]);
    cbn [record log]; rewrite Hlog; unfold local_lat_history;
    rewrite !rev_app_distr; cbn [rev app payload];
    rewrite <- !app_assoc; reflexivity.
Qed.

Lemma exchanges_of_echo_events msgs :
  filter is_exchange (echo_events msgs) = echo_events msgs.
Proof.
  induction msgs as [|m msgs IH]; [reflexivity|].
  cbn. fold (echo_events msgs). now rewrite IH.
Qed.

Lemma transport_of_echo_events msgs :
  filter is_transport (echo_events msgs) = echo_events msgs.
Proof.
  induction msgs as [|m msgs IH]; [reflexivity|].
  cbn. fold (echo_events msgs). now rewrite IH.
Qed.

Lemma kinds_of_echo_events msgs :
  flat_map kind_of (echo_events msgs) = pairs (List.length msgs).
Proof.
  induction msgs as [|m msgs IH]; [reflexivity|].
  cbn. fold (echo_events msgs). now rewrite IH.
Qed.

Lemma echoes_echo_events msgs : echoes (echo_events msgs).
Proof.
  induction msgs as [|m msgs IH]; [exact I|].
  cbn. fold (echo_events msgs). now split.
Qed.

Lemma filter_none {A} (f : A -> bool) (l : list A) :
  Forall (fun x => f x = false) l -> filter f l = [].
Proof.
  induction 1 as [|x l Hx _ IH]; [reflexivity|].
  cbn. now rewrite Hx.
Qed.

Section ConfigurationErrors.
Variables prog addr sarg carg : string.
Variable w : world.
Hypothesis invalid : SizeT.of_int (atoi sarg) <= 0 \/ atoi carg <= 0.

Lemma positivity_check_fails :
((SizeT.of_int (atoi sarg) <=? 0) || (atoi carg <=? 0))%bool = true.
Proof.
apply orb_true_iff.
destruct invalid; [left|right]; now apply Z.leb_le.
Qed.

Lemma local_lat_main_invalid :
  run (local_lat_main [prog; addr; sarg; carg]) w
  = (1, record (EStderr
      [Str "Error: message_size and roundtrip_count must be positive\n"]) w).
Proof.
  unfold local_lat_main.
  change (argc [prog; addr; sarg; carg] =? 4) with true.
  cbn [negb arg nth]. now rewrite positivity_check_fails.
Qed.

Lemma remote_lat_main_invalid :
  run (remote_lat_main [prog; addr; sarg; carg]) w
  = (1, record (EStderr
      [Str "Error: message_size and roundtrip_count must be positive\n"]) w).
Proof.
  unfold remote_lat_main.
  change (argc [prog; addr; sarg; carg] =? 4) with true.
  cbn [negb arg nth]. now rewrite positivity_check_fails.
Qed.

Lemma local_thr_main_invalid :
  run (local_thr_main [prog; addr; sarg; carg]) w
  = (1, record (EStderr
      [Str "Error: message_size and message_count must be positive\n"]) w).
Proof.
  unfold local_thr_main.
  change (argc [prog; addr; sarg; carg] =? 4) with true.
  cbn [negb arg nth]. now rewrite positivity_check_fails.
Qed.

Lemma remote_thr_main_invalid :
  run (remote_thr_main [prog; addr; sarg; carg]) w
  = (1, record (EStderr
      [Str "Error: message_size and message_count must be positive\n"]) w).
Proof.
  unfold remote_thr_main.
  change (argc [prog; addr; sarg; carg] =? 4) with true.
  cbn [negb arg nth]. now rewrite positivity_check_fails.
Qed.
End ConfigurationErrors.

(** A run of the latency server that exits with status 0 went through its
    whole session. *)
Lemma local_lat_success e prog addr sarg carg w' :
  run (local_lat_main [prog; addr; sarg; carg]) (init e) = (0, w') ->
  0 < atoi carg /\
  local_lat_session addr (SizeT.of_int (atoi sarg)) (atoi carg) (init e)
  = (Normal tt, w').
Proof.
  intros Hrun.
  destruct (Z.le_gt_cases (SizeT.of_int (atoi sarg)) 0) as [Hs|Hs].
  { rewrite local_lat_main_invalid in Hrun by now left. discriminate. }
  destruct (Z.le_gt_cases (atoi carg) 0) as [Hc|Hc].
  { rewrite local_lat_main_invalid in Hrun by now right. discriminate. }
  split; [exact Hc|].
  rewrite local_lat_main_valid in Hrun by assumption.
  destruct (local_lat_session _ _ _ _) as [o w1] eqn:Hses.
  pose proof (local_lat_session_shape _ _ _ _ _ _ Hses) as Hshape.
  destruct o as [[]|c|[]]; cbn in Hrun.
  - now injection Hrun as <-.
  - injection Hrun as -> <-. discriminate.
  - discriminate.
  - discriminate.
Qed.

Lemma local_lat_success_history e prog addr sarg carg w' :
  run (local_lat_main [prog; addr; sarg; carg]) (init e) = (0, w') ->
  exists r0 s0 msgs,
    List.length msgs = Z.to_nat (atoi carg) /\
    Forall (fun m => size m = SizeT.of_int (atoi sarg)) msgs /\
    history w' = local_lat_history addr (SizeT.of_int (atoi sarg))
                   (atoi carg) r0 s0 msgs.
Proof.
  intros Hrun. apply local_lat_success in Hrun as [_ Hses].
  apply local_lat_session_shape in Hses.
  destruct Hses as (r0 & s0 & msgs & Hlen & Hall & Hlog).
  exists r0, s0, msgs. repeat split; try assumption.
  unfold history. rewrite Hlog. cbn [init log].
  now rewrite app_nil_r, rev_involutive.
Qed.

Lemma local_lat_history_exchanges addr s n r0 s0 msgs :
  filter is_exchange (local_lat_history addr s n r0 s0 msgs)
  = ERecv r0 :: ESend (payload r0) s0 :: echo_events msgs.
Proof.
  unfold local_lat_history. rewrite !filter_app, exchanges_of_echo_events.
  cbn. now rewrite app_nil_r.
Qed.

Lemma local_lat_history_transport addr s n r0 s0 msgs :
  filter is_transport (local_lat_history addr s n r0 s0 msgs)
  = [EContext true; ESocket REP true; EBind addr true]
    ++ ERecv r0 :: ESend (payload r0) s0 :: echo_events msgs.
Proof.
  unfold local_lat_history. rewrite !filter_app, transport_of_echo_events.
  cbn. now rewrite app_nil_r.
Qed.

(** C3. A run of the latency server that exits with status 0 performs
    exactly [roundtrip_count + 1] receive/send pairs, the warm-up pair
    followed by the [roundtrip_count] pairs of the counted loop; beyond
    creating and binding its socket it does nothing else on the transport. *)
Theorem local_lat_performs_count_plus_one_pairs e prog addr sarg carg w' :
  run (local_lat_main [prog; addr; sarg; carg]) (init e) = (0, w') ->
  0 < atoi carg /\
  flat_map kind_of (exchanges w') = pairs 1 ++ pairs (Z.to_nat (atoi carg)) /\
  Z.of_nat (List.length (exchanges w')) = 2 * (atoi carg + 1) /\
  transport_ops w'
  = [EContext true; ESocket REP true; EBind addr true] ++ exchanges w'.
Proof.
  intros Hrun.
  destruct (local_lat_success _ _ _ _ _ _ Hrun) as [Hpos _].
  apply local_lat_success_history in Hrun.
  destruct Hrun as (r0 & s0 & msgs & Hlen & _ & Hhist).
  unfold exchanges, transport_ops. rewrite Hhist.
  rewrite local_lat_history_exchanges, local_lat_history_transport.
  assert (Hkinds : flat_map kind_of (echo_events msgs)
                   = pairs (Z.to_nat (atoi carg)))
    by (now rewrite kinds_of_echo_events, Hlen).
  repeat split.
  - exact Hpos.
  - cbn [flat_map kind_of app]. now rewrite Hkinds.
  - cbn [List.length]. unfold echo_events.
    rewrite (flat_map_constant_length (c := 2%nat)) by reflexivity.
    rewrite Hlen. lia.
Qed.

Lemma local_lat_performs_count_plus_one_pairs_witness :
  run (local_lat_main ["./local_lat"; "tcp://*:5555"; "2"; "3"])
      (init (steady (bytes "ab") 0 0))
  = (0, snd server_demo) /\
  Z.of_nat (List.length (exchanges (snd server_demo))) = 2 * (atoi "3" + 1).
Proof.
  assert (H : run (local_lat_main ["./local_lat"; "tcp://*:5555"; "2"; "3"])
                  (init (steady (bytes "ab") 0 0)) = (0, snd server_demo))
    by (vm_compute; reflexivity).
  split; [exact H|].
  exact (proj1 (proj2 (proj2
    (local_lat_performs_count_plus_one_pairs _ _ _ _ _ _ H)))).
Defined.

(** C4. In a run of the latency server that exits with status 0, every
    message received, whatever its bytes, is answered by a send of exactly
    the bytes received: the exchanges are receive/send pairs whose two
    payloads are equal, and every message of the counted loop has the
    configured size. *)
Theorem local_lat_echoes_each_message e prog addr sarg carg w' :
  run (local_lat_main [prog; addr; sarg; carg]) (init e) = (0, w') ->
  echoes (exchanges w') /\
  exists r0 s0 msgs,
    exchanges w' = ERecv r0 :: ESend (payload r0) s0 :: echo_events msgs /\
    Forall (fun m => size m = SizeT.of_int (atoi sarg)) msgs.
Proof.
  intros Hrun. apply local_lat_success_history in Hrun.
  destruct Hrun as (r0 & s0 & msgs & _ & Hall & Hhist).
  unfold exchanges. rewrite Hhist, local_lat_history_exchanges. split.
  - cbn [echoes]. split; [reflexivity|apply echoes_echo_events].
  - now exists r0, s0, msgs.
Qed.

Lemma local_lat_echoes_each_message_witness :
  run (local_lat_main ["./local_lat"; "tcp://*:5555"; "2"; "3"])
      (init (steady (bytes "ab") 0 0))
  = (0, snd server_demo) /\
  echoes (exchanges (snd server_demo)).
Proof.
  assert (H : run (local_lat_main ["./local_lat"; "tcp://*:5555"; "2"; "3"])
                  (init (steady (bytes "ab") 0 0)) = (0, snd server_demo))
    by (vm_compute; reflexivity).
  split; [exact H|].
  exact (proj1 (local_lat_echoes_each_message _ _ _ _ _ _ H)).
Defined.

(** ** Loops that check sizes *)

Lemma local_lat_echo_checked s :
  checked_turn s (fun _ m => mismatch_diagnostic s (size m)) (local_lat_echo s).
Proof.
  intros i w o w'.
  unfold local_lat_echo, bind, socket_recv, socket_send, cerr, emit, return_,
    ret.
  destruct (recv_at (env w) (n_recv w)) as [m| |] eqn:Hr; cbn.
  - destruct (size m =? s) eqn:Hsz; cbn.
    + destruct (send_at (env w) (n_send w)); cbn; done_run;
        (split; [reflexivity|right; split; [reflexivity|exact I]]).
    + done_run. split; [reflexivity|right]. cbn.
      split; [reflexivity|split; [reflexivity|eexists; reflexivity]].
  - done_run. split; [reflexivity|right]. split; [reflexivity|discriminate].
  - done_run. split; [reflexivity|right]. split; [reflexivity|discriminate].
Qed.

Lemma remote_lat_roundtrip_checked buf s :
  checked_turn s (fun _ m => mismatch_diagnostic s (size m))
    (remote_lat_roundtrip buf s).
Proof.
  intros i w o w'.
  unfold remote_lat_roundtrip, bind, socket_recv, socket_send, cerr, emit,
    return_, ret.
  destruct (send_at (env w) (n_send w)); cbn.
  - destruct (recv_at (env w) (n_recv w)) as [m| |] eqn:Hr; cbn.
    + destruct (size m =? s) eqn:Hsz; cbn; done_run;
        (split; [reflexivity|right; split; [reflexivity|]]).
      * exact I.
      * split; [reflexivity|eexists; reflexivity].
    + done_run. split; [reflexivity|right]. split; [reflexivity|discriminate].
    + done_run. split; [reflexivity|right]. split; [reflexivity|discriminate].
  - done_run. split; [reflexivity|left]. split; [reflexivity|discriminate].
  - done_run. split; [reflexivity|left]. split; [reflexivity|discriminate].
Qed.

Lemma local_thr_receive_checked s c :
  checked_turn s (fun i m => mismatch_diagnostic_at i s (size m))
    (local_thr_receive s c).
Proof.
  intros i w o w'.
  unfold local_thr_receive, bind, socket_recv, cerr, emit, return_, ret.
  destruct (recv_at (env w) (n_recv w)) as [m| |] eqn:Hr; cbn.
  - destruct (size m =? s) eqn:Hsz; cbn.
    + unfold progress_indicator, cout, emit, ret.
      destruct (progress_due c i); done_run;
        (split; [reflexivity|right; split; [reflexivity|exact I]]).
    + done_run. split; [reflexivity|right]. cbn.
      split; [reflexivity|split; [reflexivity|eexists; reflexivity]].
  - done_run. split; [reflexivity|right]. split; [reflexivity|discriminate].
  - done_run. split; [reflexivity|right]. split; [reflexivity|discriminate].
Qed.

(** A loop of checked turns: the first receive that delivers a message of
    the wrong size ends the run. *)
Lemma checked_loop s diag body (Hbody : checked_turn s diag body)
    fuel i w o w' :
  for_loop fuel i body w = (o, w') ->
  env w' = env w /\ (n_recv w <= n_recv w')%nat /\
  (o = Normal tt -> forall k m, (n_recv w <= k < n_recv w')%nat ->
     recv_at (env w) k = RecvMsg m -> size m = s) /\
  forall k m, (n_recv w <= k < n_recv w')%nat ->
    recv_at (env w) k = RecvMsg m -> size m <> s ->
    o = Returned 1 /\
    stopped_at w' k m (diag (i + Z.of_nat (k - n_recv w)) m).
Proof.
  intros Hrun.
  pose (good := fun w1 : world => forall k m,
    (n_recv w <= k < n_recv w1)%nat ->
    recv_at (env w) k = RecvMsg m -> size m = s).
  pose (Inv := fun (j : Z) (w1 : world) =>
    env w1 = env w /\ (n_recv w <= n_recv w1)%nat /\
    Z.of_nat (n_recv w1) = Z.of_nat (n_recv w) + (j - i) /\ good w1).
  pose (Post := fun (o1 : outcome unit) (w1 : world) =>
    env w1 = env w /\ (n_recv w <= n_recv w1)%nat /\
    forall k m, (n_recv w <= k < n_recv w1)%nat ->
      recv_at (env w) k = RecvMsg m -> size m <> s ->
      o1 = Returned 1 /\
      stopped_at w1 k m (diag (i + Z.of_nat (k - n_recv w)) m)).
  assert (Hstart : Inv i w).
  { unfold Inv, good. split; [reflexivity|]. split; [lia|]. split; [lia|].
    intros k m Hk. lia. }
  assert (Hstep : forall j w1 o1 w2, Inv j w1 -> body j w1 = (o1, w2) ->
            match o1 with Normal _ => Inv (j + 1) w2 | _ => Post o1 w2 end).
  { intros j w1 o1 w2 (He & Hle & Hj & Hgood) Hb.
    destruct (Hbody _ _ _ _ Hb) as (He2 & [[Hn Ho]|[Hn Hr]]).
    - assert (Post o1 w2) as HPost.
      { split; [congruence|]. split; [lia|].
        intros k m Hk Hrk Hsz. rewrite Hn in Hk.
        exfalso. apply Hsz. exact (Hgood k m Hk Hrk). }
      destruct o1 as [[]|?|?]; [now elim Ho|assumption|assumption].
    - rewrite He in Hr.
      assert (Hold : forall k m, (n_recv w <= k < n_recv w2)%nat ->
                recv_at (env w) k = RecvMsg m -> size m <> s -> k = n_recv w1).
      { intros k m Hk Hrk Hsz. rewrite Hn in Hk.
        destruct (Nat.eq_dec k (n_recv w1)) as [|Hne]; [assumption|].
        exfalso. apply Hsz. apply (Hgood k m); [lia|assumption]. }
      assert (HPost : Post o1 w2).
      { split; [congruence|]. split; [lia|].
        intros k m Hk Hrk Hsz. pose proof (Hold k m Hk Hrk Hsz) as ->.
        rewrite Hrk in Hr.
        destruct (size m =? s) eqn:E; [apply Z.eqb_eq in E; contradiction|].
        destruct Hr as [-> [l Hlog]]. split; [reflexivity|].
        split; [assumption|]. exists l.
        replace (i + Z.of_nat (n_recv w1 - n_recv w)) with j by lia.
        exact Hlog. }
      destruct o1 as [[]|c1|e1]; try exact HPost.
      split; [congruence|]. split; [lia|]. split; [lia|].
      intros k m Hk Hrk. rewrite Hn in Hk.
      destruct (Nat.eq_dec k (n_recv w1)) as [->|Hne].
      + rewrite Hrk in Hr. destruct (size m =? s) eqn:E.
        * now apply Z.eqb_eq.
        * destruct Hr as [Hr _]. discriminate.
      + apply (Hgood k m); [lia|assumption]. }
  pose proof (for_loop_rule body Inv Post Hstep fuel i w o w' Hstart Hrun) as H.
  destruct o as [[]|c1|e1].
  - destruct H as (He & Hle & _ & Hgood).
    split; [assumption|]. split; [assumption|]. split; [intros _; exact Hgood|].
    intros k m Hk Hrk Hsz. elim Hsz. exact (Hgood k m Hk Hrk).
  - destruct H as (He & Hle & Hbad).
    split; [assumption|]. split; [assumption|]. split; [discriminate|exact Hbad].
  - destruct H as (He & Hle & Hbad).
    split; [assumption|]. split; [assumption|]. split; [discriminate|exact Hbad].
Qed.

Lemma local_lat_session_checked addr s n e o w' :
  local_lat_session addr s n (init e) = (o, w') ->
  forall k m, (1 <= k < n_recv w')%nat ->
    recv_at e k = RecvMsg m -> size m <> s ->
    o = Returned 1 /\ stopped_at w' k m (mismatch_diagnostic s (size m)).
Proof.
  unfold local_lat_session, for_range.
  setup_step; [|done_run; cbn; lia].
  setup_step; [|done_run; cbn; lia].
  setup_step; [|done_run; cbn; lia].
  do 4 emit_step.
  unfold bind at 1. unfold socket_recv. cbn [env record n_recv n_send n_now log init].
  destruct (recv_at e 0%nat) as [m0| |]; [ | | done_run; cbn; lia].
  all: unfold bind at 1; unfold socket_send;
    cbn [env record n_recv n_send n_now log init];
    destruct (send_at e 0%nat); [ | | done_run; cbn; lia].
  all: unfold bind at 1;
    match goal with
    | |- context [for_loop ?f ?i ?b ?w0] =>
        destruct (for_loop f i b w0) as [o1 w1] eqn:Hloop
    end;
    apply (checked_loop _ _ _ (local_lat_echo_checked s)) in Hloop;
    cbn [env n_recv] in Hloop;
    destruct Hloop as (He & Hle & Hgood & Hbad);
    destruct o1 as [[]|c1|e1]; unfold cout, emit; done_run;
    cbn [record n_recv]; intros k m Hk Hrk Hsz;
    try (elim Hsz; apply (Hgood eq_refl k m Hk Hrk));
    exact (Hbad k m Hk Hrk Hsz).
Qed.

Lemma remote_lat_session_checked addr s n e o w' :
  remote_lat_session addr s n (init e) = (o, w') ->
  forall k m, (1 <= k < n_recv w')%nat ->
    recv_at e k = RecvMsg m -> size m <> s ->
    o = Returned 1 /\ stopped_at w' k m (mismatch_diagnostic s (size m)).
Proof.
  unfold remote_lat_session, for_range.
  setup_step; [|done_run; cbn; lia].
  setup_step; [|done_run; cbn; lia].
  setup_step; [|done_run; cbn; lia].
  do 3 emit_step.
  vector_step; [done_run; cbn; lia|].
  vector_step; [done_run; cbn; lia|].
  unfold bind at 1. unfold socket_send at 1.
  cbn [env record n_recv n_send n_now log init].
  destruct (send_at e 0%nat); [ | | done_run; cbn; lia].
  all: unfold bind at 1; unfold socket_recv at 1;
    cbn [env record n_recv n_send n_now log init];
    destruct (recv_at e 0%nat) as [m0| |]; [ | | done_run; cbn; lia].
  all: clock_step; unfold bind at 1;
    match goal with
    | |- context [for_loop ?f ?i ?b ?w0] =>
        destruct (for_loop f i b w0) as [o1 w1] eqn:Hloop
    end;
    apply (checked_loop _ _ _ (remote_lat_roundtrip_checked _ s)) in Hloop;
    cbn [env n_recv] in Hloop;
    destruct Hloop as (He & Hle & Hgood & Hbad);
    destruct o1 as [[]|c1|e1];
    [ clock_step; unfold remote_lat_report; do 3 emit_step;
      unfold cout, emit | | ];
    done_run; cbn [record n_recv]; intros k m Hk Hrk Hsz;
    try (elim Hsz; apply (Hgood eq_refl k m Hk Hrk));
    exact (Hbad k m Hk Hrk Hsz).
Qed.

Lemma local_thr_session_checked addr s n e o w' :
  local_thr_session addr s n (init e) = (o, w') ->
  forall k m, (k < n_recv w')%nat ->
    recv_at e k = RecvMsg m -> size m <> s ->
    o = Returned 1 /\
    stopped_at w' k m
      match k with
      | O => mismatch_diagnostic s (size m)
      | S _ => mismatch_diagnostic_at (Z.of_nat k) s (size m)
      end.
Proof.
  unfold local_thr_session, for_range.
  setup_step; [|done_run; cbn; lia].
  setup_step; [|done_run; cbn; lia].
  setup_step; [|done_run; cbn; lia].
  do 4 emit_step.
  unfold bind at 1. unfold local_thr_first, bind at 1, socket_recv at 1.
  cbn [env record n_recv n_send n_now log init].
  destruct (recv_at e 0%nat) as [m0| |] eqn:Hfirst.
  - destruct (size m0 =? s) eqn:Hsz0; cbn [negb].
    + unfold ret at 1. emit_step. clock_step. unfold bind at 1.
      match goal with
      | |- context [for_loop ?f ?i ?b ?w0] =>
          destruct (for_loop f i b w0) as [o1 w1] eqn:Hloop
      end.
      apply (checked_loop _ _ _ (local_thr_receive_checked s n)) in Hloop.
      cbn [env n_recv] in Hloop.
      destruct Hloop as (He & Hle & Hgood & Hbad).
      assert (Hzero : forall m, recv_at e 0%nat = RecvMsg m -> size m = s).
      { intros m Hm. rewrite Hfirst in Hm. injection Hm as <-.
        now apply Z.eqb_eq. }
      assert (Hdiag : forall k m, (1 <= k)%nat ->
                mismatch_diagnostic_at (1 + Z.of_nat (k - 1)) s (size m)
                = match k with
                  | O => mismatch_diagnostic s (size m)
                  | S _ => mismatch_diagnostic_at (Z.of_nat k) s (size m)
                  end).
      { intros [|k] m Hk; [lia|]. f_equal. lia. }
      destruct o1 as [[]|c1|e1];
        [ clock_step; unfold local_thr_report; do 6 emit_step;
          unfold cout, emit | | ];
        done_run; cbn [record n_recv]; intros k m Hk Hrk Hsz;
        (destruct (Nat.eq_dec k 0) as [->|Hne];
         [elim Hsz; now apply Hzero|]);
        try (elim Hsz; apply (Hgood eq_refl k m); [lia|assumption]);
        rewrite <- Hdiag by lia; apply Hbad; try assumption; lia.
    + unfold bind at 1, cerr, emit, return_.
      done_run. cbn [record n_recv log]. intros k m Hk Hrk Hsz.
      assert (k = 0%nat) as -> by lia.
      rewrite Hfirst in Hrk. injection Hrk as <-.
      split; [reflexivity|]. split; [reflexivity|].
      eexists. reflexivity.
  - unfold bind at 1, cerr, emit, return_.
    done_run. cbn [record n_recv log]. intros k m Hk Hrk Hsz.
    assert (k = 0%nat) as -> by lia. congruence.
  - done_run. cbn [record n_recv log]. intros k m Hk Hrk Hsz.
    assert (k = 0%nat) as -> by lia. congruence.
Qed.

Lemma local_lat_main_cases e prog addr sarg carg :
  n_recv (snd (run (local_lat_main [prog; addr; sarg; carg]) (init e))) = 0%nat
  \/ run (local_lat_main [prog; addr; sarg; carg]) (init e)
     = finish (local_lat_session addr (SizeT.of_int (atoi sarg)) (atoi carg)
                 (init e)).
Proof.
  destruct (Z.le_gt_cases (SizeT.of_int (atoi sarg)) 0) as [Hs|Hs].
  { left. now rewrite local_lat_main_invalid by now left. }
  destruct (Z.le_gt_cases (atoi carg) 0) as [Hc|Hc].
  { left. now rewrite local_lat_main_invalid by now right. }
  right. now apply local_lat_main_valid.
Qed.

Lemma remote_lat_main_cases e prog addr sarg carg :
  n_recv (snd (run (remote_lat_main [prog; addr; sarg; carg]) (init e))) = 0%nat
  \/ run (remote_lat_main [prog; addr; sarg; carg]) (init e)
     = finish (remote_lat_session addr (SizeT.of_int (atoi sarg)) (atoi carg)
                 (init e)).
Proof.
  destruct (Z.le_gt_cases (SizeT.of_int (atoi sarg)) 0) as [Hs|Hs].
  { left. now rewrite remote_lat_main_invalid by now left. }
  destruct (Z.le_gt_cases (atoi carg) 0) as [Hc|Hc].
  { left. now rewrite remote_lat_main_invalid by now right. }
  right. now apply remote_lat_main_valid.
Qed.

Lemma local_thr_main_cases e prog addr sarg carg :
  n_recv (snd (run (local_thr_main [prog; addr; sarg; carg]) (init e))) = 0%nat
  \/ run (local_thr_main [prog; addr; sarg; carg]) (init e)
     = finish (local_thr_session addr (SizeT.of_int (atoi sarg)) (atoi carg)
                 (init e)).
Proof.
  destruct (Z.le_gt_cases (SizeT.of_int (atoi sarg)) 0) as [Hs|Hs].
  { left. now rewrite local_thr_main_invalid by now left. }
  destruct (Z.le_gt_cases (atoi carg) 0) as [Hc|Hc].
  { left. now rewrite local_thr_main_invalid by now right. }
  right. now apply local_thr_main_valid.
Qed.

(** [finish] keeps the receive count of the session. *)
Lemma finish_n_recv r : n_recv (snd (finish r)) = n_recv (snd r).
Proof. destruct r as [[[]|c|[]] w]; reflexivity. Qed.

Lemma local_lat_mismatch e prog addr sarg carg k m :
  recv_at e k = RecvMsg m -> size m <> SizeT.of_int (atoi sarg) ->
  (1 <= k < n_recv (snd (run (local_lat_main [prog; addr; sarg; carg])
                              (init e))))%nat ->
  fatal_mismatch (run (local_lat_main [prog; addr; sarg; carg]) (init e)) k m
    (mismatch_diagnostic (SizeT.of_int (atoi sarg)) (size m)).
Proof.
  intros Hrk Hsz Hk.
  destruct (local_lat_main_cases e prog addr sarg carg) as [H0|Hrun]; [lia|].
  rewrite Hrun in *. rewrite finish_n_recv in Hk.
  destruct (local_lat_session _ _ _ _) as [o w1] eqn:Hses.
  destruct (local_lat_session_checked _ _ _ _ _ _ Hses k m Hk Hrk Hsz)
    as [-> Hstop].
  split; [reflexivity|exact Hstop].
Qed.

Lemma remote_lat_mismatch e prog addr sarg carg k m :
  recv_at e k = RecvMsg m -> size m <> SizeT.of_int (atoi sarg) ->
  (1 <= k < n_recv (snd (run (remote_lat_main [prog; addr; sarg; carg])
                              (init e))))%nat ->
  fatal_mismatch (run (remote_lat_main [prog; addr; sarg; carg]) (init e)) k m
    (mismatch_diagnostic (SizeT.of_int (atoi sarg)) (size m)).
Proof.
  intros Hrk Hsz Hk.
  destruct (remote_lat_main_cases e prog addr sarg carg) as [H0|Hrun]; [lia|].
  rewrite Hrun in *. rewrite finish_n_recv in Hk.
  destruct (remote_lat_session _ _ _ _) as [o w1] eqn:Hses.
  destruct (remote_lat_session_checked _ _ _ _ _ _ Hses k m Hk Hrk Hsz)
    as [-> Hstop].
  split; [reflexivity|exact Hstop].
Qed.

Lemma local_thr_mismatch e prog addr sarg carg k m :
  recv_at e k = RecvMsg m -> size m <> SizeT.of_int (atoi sarg) ->
  (k < n_recv (snd (run (local_thr_main [prog; addr; sarg; carg])
                         (init e))))%nat ->
  fatal_mismatch (run (local_thr_main [prog; addr; sarg; carg]) (init e)) k m
    match k with
    | O => mismatch_diagnostic (SizeT.of_int (atoi sarg)) (size m)
    | S _ => mismatch_diagnostic_at (Z.of_nat k) (SizeT.of_int (atoi sarg))
               (size m)
    end.
Proof.
  intros Hrk Hsz Hk.
  destruct (local_thr_main_cases e prog addr sarg carg) as [H0|Hrun]; [lia|].
  rewrite Hrun in *. rewrite finish_n_recv in Hk.
  destruct (local_thr_session _ _ _ _) as [o w1] eqn:Hses.
  destruct (local_thr_session_checked _ _ _ _ _ _ Hses k m Hk Hrk Hsz)
    as [-> Hstop].
  split; [reflexivity|exact Hstop].
Qed.

(** ** Runs that complete, and the latency report *)

Lemma quiet_loop body (Hbody : quiet_turn body) fuel i w o w' :
  for_loop fuel i body w = (o, w') ->
  env w' = env w /\ n_now w' = n_now w /\
  match o with Returned c => c = 1 | _ => True end.
Proof.
  intros Hrun.
  pose (Inv := fun (_ : Z) (w1 : world) =>
    env w1 = env w /\ n_now w1 = n_now w).
  pose (Post := fun (o1 : outcome unit) (w1 : world) =>
    env w1 = env w /\ n_now w1 = n_now w /\
    match o1 with Returned c => c = 1 | _ => True end).
  assert (Hstep : forall j w1 o1 w2, Inv j w1 -> body j w1 = (o1, w2) ->
            match o1 with Normal _ => Inv (j + 1) w2 | _ => Post o1 w2 end).
  { intros j w1 o1 w2 [He Hn] Hb.
    destruct (Hbody _ _ _ _ Hb) as (He2 & Hn2 & Hc).
    destruct o1; unfold Inv, Post; repeat split; congruence. }
  pose proof (for_loop_rule body Inv Post Hstep fuel i w o w'
                (conj eq_refl eq_refl) Hrun) as H.
  destruct o; unfold Inv, Post in H; tauto.
Qed.

Lemma remote_lat_roundtrip_quiet buf s : quiet_turn (remote_lat_roundtrip buf s).
Proof.
  intros i w o w'.
  unfold remote_lat_roundtrip, bind, socket_recv, socket_send, cerr, emit,
    return_, ret.
  destruct (send_at (env w) (n_send w)); cbn;
    [destruct (recv_at (env w) (n_recv w)) as [m| |]; cbn;
     [destruct (size m =? s); cbn| |] | |];
    done_run; auto.
Qed.

Lemma local_thr_receive_quiet s c : quiet_turn (local_thr_receive s c).
Proof.
  intros i w o w'.
  unfold local_thr_receive, bind, socket_recv, cerr, emit, return_, ret.
  destruct (recv_at (env w) (n_recv w)) as [m| |]; cbn;
    [destruct (size m =? s); cbn;
     [unfold progress_indicator, cout, emit, ret;
      destruct (progress_due c i)|] | |];
    done_run; auto.
Qed.

Lemma remote_lat_session_report addr s n e o w' :
  remote_lat_session addr s n (init e) = (o, w') ->
  match o with
  | Normal _ =>
      reported "Average latency: " " us\n" w'
      = Some (remote_lat_latency (measured_us e) n) /\
      reported "Message rate: " " msg/s\n" w'
      = Some (remote_lat_rate (measured_us e) n)
  | Returned c => c = 1
  | Thrown _ => True
  end.
Proof.
  unfold remote_lat_session, for_range.
  setup_step; [|done_run; exact I].
  setup_step; [|done_run; exact I].
  setup_step; [|done_run; exact I].
  do 3 emit_step.
  vector_step; [done_run; exact I|].
  vector_step; [done_run; exact I|].
  unfold bind at 1. unfold socket_send at 1.
  cbn [env record n_recv n_send n_now log init].
  destruct (send_at e 0%nat); [ | | done_run; exact I].
  all: unfold bind at 1; unfold socket_recv at 1;
    cbn [env record n_recv n_send n_now log init];
    destruct (recv_at e 0%nat) as [m0| |]; [ | | done_run; exact I].
  all: clock_step; unfold bind at 1;
    match goal with
    | |- context [for_loop ?f ?i ?b ?w0] =>
        destruct (for_loop f i b w0) as [o1 w1] eqn:Hloop
    end;
    apply (quiet_loop _ (remote_lat_roundtrip_quiet _ s)) in Hloop;
    cbn [env n_now] in Hloop;
    destruct Hloop as (He & Hn & Hc);
    destruct o1 as [[]|c1|e1];
    [ | done_run; exact Hc | done_run; exact I ];
    clock_step; rewrite He, Hn;
    unfold remote_lat_report; do 3 emit_step; unfold cout, emit;
    done_run; unfold reported;
    cbn [record log find_report String.eqb Ascii.eqb Bool.eqb andb];
    split; reflexivity.
Qed.

Lemma remote_lat_loop_cooperative buf s fuel : forall i w,
  (forall k, send_at (env w) k = SendOk) ->
  (forall k, (n_recv w <= k)%nat ->
     exists m, recv_at (env w) k = RecvMsg m /\ size m = s) ->
  exists w', for_loop fuel i (remote_lat_roundtrip buf s) w = (Normal tt, w').
Proof.
  induction fuel as [|fuel IH]; intros i w Hsend Hrecv.
  - now exists w.
  - cbn [for_loop]. unfold bind at 1.
    unfold remote_lat_roundtrip at 1, bind, socket_send, socket_recv.
    rewrite Hsend. cbn [negb env n_recv].
    destruct (Hrecv (n_recv w)) as (m & -> & Hm); [lia|].
    rewrite Hm, Z.eqb_refl. cbn [negb ret].
    apply IH; cbn [env n_recv]; [assumption|].
    intros k Hk. apply Hrecv. lia.
Qed.

Lemma local_lat_loop_cooperative s fuel : forall i w,
  (forall k, send_at (env w) k = SendOk) ->
  (forall k, (n_recv w <= k)%nat ->
     exists m, recv_at (env w) k = RecvMsg m /\ size m = s) ->
  exists w', for_loop fuel i (local_lat_echo s) w = (Normal tt, w').
Proof.
  induction fuel as [|fuel IH]; intros i w Hsend Hrecv.
  - now exists w.
  - cbn [for_loop]. unfold bind at 1.
    unfold local_lat_echo at 1, bind, socket_send, socket_recv.
    destruct (Hrecv (n_recv w)) as (m & -> & Hm); [lia|].
    rewrite Hm, Z.eqb_refl. cbn [negb env n_send]. rewrite Hsend.
    cbn [negb ret].
    apply IH; cbn [env n_recv]; [assumption|].
    intros k Hk. apply Hrecv. lia.
Qed.

Lemma remote_lat_session_cooperative addr s n e :
  cooperative e s -> s <= SizeT.vector_max_size ->
  exists w', remote_lat_session addr s n (init e) = (Normal tt, w').
Proof.
  intros (Hctx & Hsock & Hatt & Hsend & Hwarm & Hrecv) Hs.
  unfold remote_lat_session, for_range.
  unfold bind at 1, context_new, guarded; cbn [env init record]; rewrite Hctx;
    cbn [env record n_recv n_send n_now log init].
  unfold bind at 1, socket_new, guarded; cbn [env init record]; rewrite Hsock;
    cbn [env record n_recv n_send n_now log init].
  unfold bind at 1, socket_connect, guarded; cbn [env init record]; rewrite Hatt;
    cbn [env record n_recv n_send n_now log init].
  do 3 emit_step.
  assert (Hfit : (s >? SizeT.vector_max_size) = false)
    by (rewrite Z.gtb_ltb; apply Z.ltb_ge; exact Hs).
  unfold bind at 1, vector_new at 1. rewrite Hfit. unfold ret at 1.
  unfold bind at 1, vector_new at 1. rewrite Hfit. unfold ret at 1.
  unfold bind at 1. unfold socket_send at 1.
  cbn [env record n_recv n_send n_now log init]. rewrite Hsend.
  unfold bind at 1. unfold socket_recv at 1.
  cbn [env record n_recv n_send n_now log init].
  destruct (recv_at e 0%nat) as [m0| |] eqn:H0; [ | | now elim Hwarm].
  all: clock_step; unfold bind at 1;
    match goal with
    | |- context [for_loop ?f ?i ?b ?w0] =>
        destruct (remote_lat_loop_cooperative
                    (repeat "X"%char (Z.to_nat s)) s f i w0) as [w1 Hloop];
        [exact Hsend | exact Hrecv | rewrite Hloop]
    end;
    clock_step; unfold remote_lat_report; do 3 emit_step; unfold cout, emit;
    eexists; reflexivity.
Qed.

Lemma local_lat_session_cooperative addr s n e :
  cooperative e s ->
  exists w', local_lat_session addr s n (init e) = (Normal tt, w').
Proof.
  intros (Hctx & Hsock & Hatt & Hsend & Hwarm & Hrecv).
  unfold local_lat_session, for_range.
  unfold bind at 1, context_new, guarded; cbn [env init record]; rewrite Hctx;
    cbn [env record n_recv n_send n_now log init].
  unfold bind at 1, socket_new, guarded; cbn [env init record]; rewrite Hsock;
    cbn [env record n_recv n_send n_now log init].
  unfold bind at 1, socket_bind, guarded; cbn [env init record]; rewrite Hatt;
    cbn [env record n_recv n_send n_now log init].
  do 4 emit_step.
  unfold bind at 1. unfold socket_recv at 1.
  cbn [env record n_recv n_send n_now log init].
  destruct (recv_at e 0%nat) as [m0| |] eqn:H0; [ | | now elim Hwarm].
  all: unfold bind at 1; unfold socket_send at 1;
    cbn [env record n_recv n_send n_now log init]; rewrite Hsend;
    unfold bind at 1;
    match goal with
    | |- context [for_loop ?f ?i ?b ?w0] =>
        destruct (local_lat_loop_cooperative s f i w0) as [w1 Hloop];
        [exact Hsend | exact Hrecv | rewrite Hloop]
    end;
    unfold cout, emit; eexists; reflexivity.
Qed.

(** A run of the latency client that exits with status 0 printed the two
    metrics computed from the clock readings and the round-trip count. *)
Lemma remote_lat_success_report e prog addr sarg carg w' :
  run (remote_lat_main [prog; addr; sarg; carg]) (init e) = (0, w') ->
  0 < atoi carg /\
  reported "Average latency: " " us\n" w'
  = Some (remote_lat_latency (measured_us e) (atoi carg)) /\
  reported "Message rate: " " msg/s\n" w'
  = Some (remote_lat_rate (measured_us e) (atoi carg)).
Proof.
  intros Hrun.
  destruct (Z.le_gt_cases (SizeT.of_int (atoi sarg)) 0) as [Hs|Hs].
  { rewrite remote_lat_main_invalid in Hrun by now left. discriminate. }
  destruct (Z.le_gt_cases (atoi carg) 0) as [Hc|Hc].
  { rewrite remote_lat_main_invalid in Hrun by now right. discriminate. }
  split; [exact Hc|].
  rewrite remote_lat_main_valid in Hrun by assumption.
  destruct (remote_lat_session _ _ _ _) as [o w1] eqn:Hses.
  apply remote_lat_session_report in Hses.
  destruct o as [[]|c|[]]; cbn in Hrun.
  - injection Hrun as <-. exact Hses.
  - injection Hrun as -> <-. discriminate.
  - discriminate.
  - discriminate.
Qed.

(** While [roundtrip_count * 2] fits an [int], the latency printed is the
    one of the specification; the message rate always is. *)
Lemma remote_lat_latency_in_range elapsed n :
  0 < n < 2 ^ 30 -> remote_lat_latency elapsed n = spec_latency_us elapsed n.
Proof.
  intros Hn. unfold remote_lat_latency, spec_latency_us, Int32.wrap.
  rewrite Z.mod_small by lia. do 2 f_equal. lia.
Qed.

Lemma remote_lat_rate_spec elapsed n :
  remote_lat_rate elapsed n = spec_message_rate elapsed n.
Proof. reflexivity. Qed.

Lemma steady_cooperative m t0 t1 : cooperative (steady m t0 t1) (size m).
Proof.
  repeat split; try reflexivity; try discriminate.
  intros k _. now exists m.
Qed.

(** C1, at a round-trip count of 2^30. With one-byte messages against an
    echoing peer and clock readings 60 000 s apart the client exits with
    status 0, and the average latency it prints is the elapsed time divided
    by -2^31: [roundtrip_count * 2] has wrapped. The specification's
    [elapsed / (n * 2)] is a different (positive) number; the message rate,
    whose product is taken in [double], is the specified one. *)
Theorem remote_lat_latency_wraps_at_2_pow_30 :
  fst (run (remote_lat_main
              ["./remote_lat"; "tcp://localhost:5555"; "1"; "1073741824"])
           (init (steady (bytes "a") 0 60000000000000))) = 0 /\
  reported "Average latency: " " us\n"
    (snd (run (remote_lat_main
                 ["./remote_lat"; "tcp://localhost:5555"; "1"; "1073741824"])
              (init (steady (bytes "a") 0 60000000000000))))
  = Some (d_div (d_of_Z 60000000000) (d_of_Z (- 2147483648))) /\
  reported "Message rate: " " msg/s\n"
    (snd (run (remote_lat_main
                 ["./remote_lat"; "tcp://localhost:5555"; "1"; "1073741824"])
              (init (steady (bytes "a") 0 60000000000000))))
  = Some (spec_message_rate 60000000000 1073741824) /\
  d_div (d_of_Z 60000000000) (d_of_Z (- 2147483648))
  <> spec_latency_us 60000000000 1073741824.
Proof.
  assert (Hs : SizeT.of_int (atoi "1") = 1) by (vm_compute; reflexivity).
  assert (Hn : atoi "1073741824" = 1073741824) by (vm_compute; reflexivity).
  rewrite remote_lat_main_valid
    by (rewrite ?Hs, ?Hn; reflexivity).
  rewrite Hs, Hn.
  destruct (remote_lat_session_cooperative "tcp://localhost:5555" 1 1073741824
              (steady (bytes "a") 0 60000000000000)) as [w' Hses].
  { exact (steady_cooperative (bytes "a") 0 60000000000000). }
  { vm_compute. discriminate. }
  rewrite Hses. cbn [finish fst snd].
  apply remote_lat_session_report in Hses. destruct Hses as [Hlat Hrate].
  split; [reflexivity|]. split; [|split].
  - rewrite Hlat. f_equal.
  - rewrite Hrate. reflexivity.
  - vm_compute. discriminate.
Qed.

(** ** Size mismatches *)

Lemma mismatch_diagnostic_names expected actual :
  names (mismatch_diagnostic expected actual) expected /\
  names (mismatch_diagnostic expected actual) actual.
Proof. unfold names, mismatch_diagnostic. cbn. auto 10. Qed.

Lemma mismatch_diagnostic_at_names index expected actual :
  names (mismatch_diagnostic_at index expected actual) index /\
  names (mismatch_diagnostic_at index expected actual) expected /\
  names (mismatch_diagnostic_at index expected actual) actual.
Proof. unfold names, mismatch_diagnostic_at. cbn. auto 10. Qed.

(** C5, as the programs have it. Let the [k]-th receive of a run deliver a
    message whose length is not the configured size, where [k >= 1] for the
    latency server and the latency client (receive 0 is their warm-up) and
    [k >= 0] for the throughput receiver. Then the process exits with
    status 1, that receive is the last transport operation, and the last
    line on standard error names the expected and the actual size; in the
    counted loop of the throughput receiver it also names the index [k] of
    the message. *)
Theorem size_mismatch_stops_the_run e prog addr sarg carg k m :
  recv_at e k = RecvMsg m ->
  size m <> SizeT.of_int (atoi sarg) ->
  ((1 <= k < n_recv (snd (run (local_lat_main [prog; addr; sarg; carg])
                               (init e))))%nat ->
   fatal_mismatch (run (local_lat_main [prog; addr; sarg; carg]) (init e)) k m
     (mismatch_diagnostic (SizeT.of_int (atoi sarg)) (size m))) /\
  ((1 <= k < n_recv (snd (run (remote_lat_main [prog; addr; sarg; carg])
                               (init e))))%nat ->
   fatal_mismatch (run (remote_lat_main [prog; addr; sarg; carg]) (init e)) k m
     (mismatch_diagnostic (SizeT.of_int (atoi sarg)) (size m))) /\
  ((k < n_recv (snd (run (local_thr_main [prog; addr; sarg; carg])
                          (init e))))%nat ->
   fatal_mismatch (run (local_thr_main [prog; addr; sarg; carg]) (init e)) k m
     match k with
     | O => mismatch_diagnostic (SizeT.of_int (atoi sarg)) (size m)
     | S _ => mismatch_diagnostic_at (Z.of_nat k) (SizeT.of_int (atoi sarg))
                (size m)
     end) /\
  (names (mismatch_diagnostic (SizeT.of_int (atoi sarg)) (size m))
         (SizeT.of_int (atoi sarg)) /\
   names (mismatch_diagnostic (SizeT.of_int (atoi sarg)) (size m)) (size m)) /\
  (names (mismatch_diagnostic_at (Z.of_nat k) (SizeT.of_int (atoi sarg))
            (size m)) (Z.of_nat k) /\
   names (mismatch_diagnostic_at (Z.of_nat k) (SizeT.of_int (atoi sarg))
            (size m)) (SizeT.of_int (atoi sarg)) /\
   names (mismatch_diagnostic_at (Z.of_nat k) (SizeT.of_int (atoi sarg))
            (size m)) (size m)).
Proof.
  intros Hrk Hsz.
  split; [now apply local_lat_mismatch|].
  split; [now apply remote_lat_mismatch|].
  split; [now apply local_thr_mismatch|].
  split; [apply mismatch_diagnostic_names|apply mismatch_diagnostic_at_names].
Qed.

Lemma size_mismatch_stops_the_run_witness :
  (recv_at mismatch_peer 1%nat = RecvMsg (bytes "abc") /\
   size (bytes "abc") <> SizeT.of_int (atoi "2")) /\
  fatal_mismatch
    (run (local_lat_main ["./local_lat"; "tcp://*:5555"; "2"; "10"])
         (init mismatch_peer)) 1 (bytes "abc")
    (mismatch_diagnostic (SizeT.of_int (atoi "2")) (size (bytes "abc"))) /\
  fatal_mismatch
    (run (local_thr_main ["./local_lat"; "tcp://*:5555"; "2"; "10"])
         (init mismatch_peer)) 1 (bytes "abc")
    (mismatch_diagnostic_at 1 (SizeT.of_int (atoi "2")) (size (bytes "abc"))).
Proof.
  assert (H1 : recv_at mismatch_peer 1%nat = RecvMsg (bytes "abc"))
    by reflexivity.
  assert (H2 : size (bytes "abc") <> SizeT.of_int (atoi "2"))
    by (vm_compute; discriminate).
  split; [split; assumption|].
  pose proof (size_mismatch_stops_the_run mismatch_peer
                "./local_lat" "tcp://*:5555" "2" "10" 1 (bytes "abc") H1 H2)
    as (Hlat & _ & Hthr & _).
  split.
  - apply Hlat. vm_compute. lia.
  - apply Hthr. vm_compute. lia.
Defined.

(** C5 fails as stated, twice. The latency server is given two-byte
    messages and its first counted message (index 0, the second message of
    the session) has three bytes: it exits with status 1, and its only
    diagnostic names the sizes 2 and 3 but no index. The latency client is
    given a three-byte warm-up reply where two bytes are configured: it goes
    on to its counted round trip, receives again, and exits with
    status 0. *)
Lemma size_mismatch_without_index_or_exit :
  (recv_at mismatch_peer 1%nat = RecvMsg (bytes "abc") /\
   fst (run (local_lat_main ["./local_lat"; "tcp://*:5555"; "2"; "10"])
            (init mismatch_peer)) = 1 /\
   stderr_lines
     (snd (run (local_lat_main ["./local_lat"; "tcp://*:5555"; "2"; "10"])
               (init mismatch_peer)))
   = [mismatch_diagnostic 2 3] /\
   ~ names (mismatch_diagnostic 2 3) 0 /\
   ~ names (mismatch_diagnostic 2 3) 1) /\
  (recv_at warmup_mismatch_peer 0%nat = RecvMsg (bytes "abc") /\
   size (bytes "abc") <> SizeT.of_int (atoi "2") /\
   fst (run (remote_lat_main
               ["./remote_lat"; "tcp://localhost:5555"; "2"; "1"])
            (init warmup_mismatch_peer)) = 0 /\
   n_recv (snd (run (remote_lat_main
                       ["./remote_lat"; "tcp://localhost:5555"; "2"; "1"])
                    (init warmup_mismatch_peer))) = 2%nat).
Proof.
  split.
  - split; [reflexivity|]. split; [vm_compute; reflexivity|].
    split; [vm_compute; reflexivity|].
    unfold names, mismatch_diagnostic.
    split; intros H; cbn in H; intuition discriminate.
  - split; [reflexivity|]. split; [vm_compute; discriminate|].
    split; vm_compute; reflexivity.
Qed.

Lemma atoi_range s : Int32.min_signed <= atoi s <= Int32.max_signed.
Proof.
  unfold atoi, Int32.wrap, Int32.min_signed, Int32.max_signed.
  pose proof (Z.mod_pos_bound (strtol s + 2 ^ 31) (2 ^ 32)). lia.
Qed.

Lemma size_of_positive_argument s :
  0 < atoi s -> SizeT.of_int (atoi s) = atoi s.
Proof.
  intros Hpos. pose proof (atoi_range s) as Hr.
  unfold Int32.min_signed, Int32.max_signed in Hr.
  unfold SizeT.of_int, SizeT.modulus. apply Z.mod_small. lia.
Qed.

(** C6, as the programs have it. Every message received by the throughput
    receiver, its first one included, and every message received by the
    latency server and the latency client after their warm-up exchange is
    checked: a length other than the configured size ends the run with
    status 1. The warm-up message of the two latency programs is not
    checked: with a peer that is otherwise cooperative they exit with
    status 0 whatever was received first. *)
Theorem size_checked_except_latency_warmup e prog addr sarg carg :
  (forall k m,
     recv_at e k = RecvMsg m -> size m <> SizeT.of_int (atoi sarg) ->
     ((1 <= k < n_recv (snd (run (local_lat_main [prog; addr; sarg; carg])
                                  (init e))))%nat ->
      fst (run (local_lat_main [prog; addr; sarg; carg]) (init e)) = 1) /\
     ((1 <= k < n_recv (snd (run (remote_lat_main [prog; addr; sarg; carg])
                                  (init e))))%nat ->
      fst (run (remote_lat_main [prog; addr; sarg; carg]) (init e)) = 1) /\
     ((k < n_recv (snd (run (local_thr_main [prog; addr; sarg; carg])
                             (init e))))%nat ->
      fst (run (local_thr_main [prog; addr; sarg; carg]) (init e)) = 1)) /\
  (0 < atoi sarg -> 0 < atoi carg -> cooperative e (atoi sarg) ->
   fst (run (local_lat_main [prog; addr; sarg; carg]) (init e)) = 0 /\
   fst (run (remote_lat_main [prog; addr; sarg; carg]) (init e)) = 0).
Proof.
  split.
  - intros k m Hrk Hsz. repeat split; intros Hk.
    + now apply (local_lat_mismatch _ _ _ _ _ _ _ Hrk Hsz).
    + now apply (remote_lat_mismatch _ _ _ _ _ _ _ Hrk Hsz).
    + now apply (local_thr_mismatch _ _ _ _ _ _ _ Hrk Hsz).
  - intros Hs Hc Hcoop.
    pose proof (size_of_positive_argument sarg Hs) as Hsize.
    pose proof (atoi_range sarg) as Hr. unfold Int32.max_signed in Hr.
    split.
    + rewrite local_lat_main_valid by (rewrite ?Hsize; assumption).
      rewrite Hsize.
      destruct (local_lat_session_cooperative addr (atoi sarg) (atoi carg) e
                  Hcoop) as [w' ->].
      reflexivity.
    + rewrite remote_lat_main_valid by (rewrite ?Hsize; assumption).
      rewrite Hsize.
      destruct (remote_lat_session_cooperative addr (atoi sarg) (atoi carg) e
                  Hcoop) as [w' ->]; [|reflexivity].
      unfold SizeT.vector_max_size. lia.
Qed.

Lemma warmup_mismatch_peer_cooperative : cooperative warmup_mismatch_peer 2.
Proof.
  repeat split; try reflexivity; try discriminate.
  intros [|k] Hk; [lia|]. now exists (bytes "ab").
Qed.

Lemma size_checked_except_latency_warmup_witness :
  (0 < atoi "2" /\ 0 < atoi "5" /\
   cooperative warmup_mismatch_peer (atoi "2")) /\
  (fst (run (local_lat_main ["./local_lat"; "tcp://*:5555"; "2"; "5"])
            (init warmup_mismatch_peer)) = 0 /\
   fst (run (remote_lat_main ["./local_lat"; "tcp://*:5555"; "2"; "5"])
            (init warmup_mismatch_peer)) = 0) /\
  (recv_at mismatch_peer 1%nat = RecvMsg (bytes "abc") /\
   size (bytes "abc") <> SizeT.of_int (atoi "2")) /\
  fst (run (local_thr_main ["./local_thr"; "tcp://*:5556"; "2"; "5"])
           (init mismatch_peer)) = 1.
Proof.
  assert (H1 : 0 < atoi "2") by (vm_compute; reflexivity).
  assert (H2 : 0 < atoi "5") by (vm_compute; reflexivity).
  assert (H3 : cooperative warmup_mismatch_peer (atoi "2"))
    by exact warmup_mismatch_peer_cooperative.
  assert (H4 : recv_at mismatch_peer 1%nat = RecvMsg (bytes "abc"))
    by reflexivity.
  assert (H5 : size (bytes "abc") <> SizeT.of_int (atoi "2"))
    by (vm_compute; discriminate).
  split; [split; [exact H1|split; [exact H2|exact H3]]|].
  split.
  - exact (proj2 (size_checked_except_latency_warmup warmup_mismatch_peer
                    "./local_lat" "tcp://*:5555" "2" "5") H1 H2 H3).
  - split; [split; [exact H4|exact H5]|].
    refine (proj2 (proj2 (proj1 (size_checked_except_latency_warmup
              mismatch_peer "./local_thr" "tcp://*:5556" "2" "5")
              1%nat (bytes "abc") H4 H5)) _).
    vm_compute. lia.
Defined.

(** C6 fails as stated: the warm-up message of the latency server and of
    the latency client has three bytes where two are configured, and both
    programs run to the end and exit with status 0; the server even echoes
    the three bytes back. *)
Lemma latency_warmup_is_not_size_checked :
  recv_at warmup_mismatch_peer 0%nat = RecvMsg (bytes "abc") /\
  size (bytes "abc") <> SizeT.of_int (atoi "2") /\
  fst (run (local_lat_main ["./local_lat"; "tcp://*:5555"; "2"; "1"])
           (init warmup_mismatch_peer)) = 0 /\
  exchanges
    (snd (run (local_lat_main ["./local_lat"; "tcp://*:5555"; "2"; "1"])
              (init warmup_mismatch_peer)))
  = [ERecv (RecvMsg (bytes "abc")); ESend (bytes "abc") SendOk;
     ERecv (RecvMsg (bytes "ab")); ESend (bytes "ab") SendOk] /\
  fst (run (remote_lat_main ["./remote_lat"; "tcp://localhost:5555"; "2"; "1"])
           (init warmup_mismatch_peer)) = 0.
Proof.
  split; [reflexivity|]. split; [vm_compute; discriminate|].
  split; [vm_compute; reflexivity|]. split; vm_compute; reflexivity.
Qed.

(** ** The throughput receiver's report *)

Lemma local_thr_session_report addr s n e o w' :
  local_thr_session addr s n (init e) = (o, w') ->
  match o with
  | Normal _ =>
      let t := local_thr_elapsed_sec (measured_us e) in
      reported "Total data: " " MB\n" w' = Some (total_data_mb s n) /\
      reported "Elapsed time: " " seconds\n" w' = Some t /\
      reported "Throughput: " " msg/s\n" w'
      = Some (local_thr_throughput n t) /\
      reported "Throughput: " " Mb/s\n" w'
      = Some (local_thr_megabits (local_thr_throughput n t) s)
  | Returned c => c = 1
  | Thrown _ => True
  end.
Proof.
  unfold local_thr_session, for_range.
  setup_step; [|done_run; exact I].
  setup_step; [|done_run; exact I].
  setup_step; [|done_run; exact I].
  do 4 emit_step.
  unfold bind at 1. unfold local_thr_first, bind at 1, socket_recv at 1.
  cbn [env record n_recv n_send n_now log init].
  destruct (recv_at e 0%nat) as [m0| |];
    [ | unfold bind at 1, cerr, emit, return_; done_run; reflexivity
      | done_run; exact I ].
  destruct (size m0 =? s); cbn [negb];
    [ | unfold bind at 1, cerr, emit, return_; done_run; reflexivity ].
  unfold ret at 1. emit_step. clock_step. unfold bind at 1.
  match goal with
  | |- context [for_loop ?f ?i ?b ?w0] =>
      destruct (for_loop f i b w0) as [o1 w1] eqn:Hloop
  end.
  apply (quiet_loop _ (local_thr_receive_quiet s n)) in Hloop.
  cbn [env n_now] in Hloop. destruct Hloop as (He & Hn & Hc).
  destruct o1 as [[]|c1|e1];
    [ | done_run; exact Hc | done_run; exact I ].
  clock_step. rewrite He, Hn.
  unfold local_thr_report. do 6 emit_step. unfold cout, emit.
  done_run. unfold reported.
  cbn [record log find_report String.eqb Ascii.eqb Bool.eqb andb].
  repeat split; reflexivity.
Qed.

Lemma total_data_mb_spec s c :
  0 < s <= Int32.max_signed -> 0 < c <= Int32.max_signed ->
  total_data_mb s c = spec_total_mb s c.
Proof.
  unfold Int32.max_signed. intros Hs Hc.
  unfold total_data_mb, spec_total_mb, SizeT.mul, SizeT.of_int, SizeT.modulus.
  rewrite (Z.mod_small c) by lia.
  rewrite Z.mod_small by nia.
  f_equal.
Qed.

(** C2. A run of the throughput receiver that exits with status 0, with
    message size [s > 0] and message count [c], prints as elapsed seconds
    [t] the measured microseconds over 1 000 000, as message throughput
    [(c - 1) / t], as megabit rate exactly that throughput [* s * 8 /
    1 000 000], and as total data [s * c / (1024 * 1024)] MB. *)
Theorem local_thr_reports_spec_metrics e prog addr sarg carg w' :
  0 < atoi sarg ->
  run (local_thr_main [prog; addr; sarg; carg]) (init e) = (0, w') ->
  let s := atoi sarg in
  let c := atoi carg in
  let t := spec_elapsed_sec (measured_us e) in
  0 < c /\
  reported "Elapsed time: " " seconds\n" w' = Some t /\
  reported "Throughput: " " msg/s\n" w' = Some (spec_throughput c t) /\
  reported "Throughput: " " Mb/s\n" w'
  = Some (spec_megabits (spec_throughput c t) s) /\
  reported "Total data: " " MB\n" w' = Some (spec_total_mb s c).
Proof.
  intros Hs Hrun s c t.
  pose proof (size_of_positive_argument sarg Hs) as Hsize.
  destruct (Z.le_gt_cases (atoi carg) 0) as [Hc|Hc].
  { rewrite local_thr_main_invalid in Hrun by now right. discriminate. }
  rewrite local_thr_main_valid in Hrun by (rewrite ?Hsize; assumption).
  rewrite Hsize in Hrun.
  destruct (local_thr_session _ _ _ _) as [o w1] eqn:Hses.
  apply local_thr_session_report in Hses.
  destruct o as [[]|c1|[]]; cbn [finish] in Hrun;
    [ injection Hrun as <-
    | injection Hrun as -> <-; discriminate
    | discriminate | discriminate ].
  destruct Hses as (Htotal & Ht & Hthr & Hmb).
  split; [exact Hc|]. split; [exact Ht|]. split; [exact Hthr|].
  split; [exact Hmb|].
  rewrite Htotal. f_equal. apply total_data_mb_spec.
  - pose proof (atoi_range sarg) as [_ H]. lia.
  - pose proof (atoi_range carg) as [_ H]. lia.
Qed.

Lemma local_thr_reports_spec_metrics_witness :
  (0 < atoi "2" /\
   run (local_thr_main ["./local_thr"; "tcp://*:5556"; "2"; "4"])
       (init (steady (bytes "ab") 0 2000000)) = (0, snd receiver_demo)) /\
  reported "Throughput: " " msg/s\n" (snd receiver_demo)
  = Some (spec_throughput (atoi "4")
            (spec_elapsed_sec (measured_us (steady (bytes "ab") 0 2000000)))).
Proof.
  assert (H1 : 0 < atoi "2") by (vm_compute; reflexivity).
  assert (H2 : run (local_thr_main ["./local_thr"; "tcp://*:5556"; "2"; "4"])
                   (init (steady (bytes "ab") 0 2000000))
               = (0, snd receiver_demo)) by (vm_compute; reflexivity).
  split; [split; assumption|].
  exact (proj1 (proj2 (proj2
    (local_thr_reports_spec_metrics _ _ _ _ _ _ H1 H2)))).
Defined.

(** ** A single message *)

(** Zero divided by anything is zero or not a number. *)
Lemma d_div_zero_cases x :
  d_div (d_of_Z 0) x = S754_nan \/ exists sg, d_div (d_of_Z 0) x = S754_zero sg.
Proof.
  destruct x as [sx|sx| |sx mx ex]; cbn; eauto.
Qed.

(** Zero divided by a positive number is zero, never not a number. *)
Lemma d_div_zero_positive x :
  SFltb (d_of_Z 0) x = true -> d_div (d_of_Z 0) x <> S754_nan.
Proof.
  destruct x as [sx|sx| |sx mx ex]; cbn; try discriminate.
Qed.

Lemma local_thr_single_session addr s e m :
  ctx_ok e = true -> socket_ok e = true -> attach_ok e = true ->
  recv_at e 0%nat = RecvMsg m -> size m = s ->
  exists w', local_thr_session addr s 1 (init e) = (Normal tt, w') /\
             n_recv w' = 1%nat.
Proof.
  intros Hctx Hsock Hatt Hfirst Hm.
  unfold local_thr_session, for_range.
  unfold bind at 1, context_new, guarded; cbn [env init record]; rewrite Hctx;
    cbn [env record n_recv n_send n_now log init].
  unfold bind at 1, socket_new, guarded; cbn [env init record]; rewrite Hsock;
    cbn [env record n_recv n_send n_now log init].
  unfold bind at 1, socket_bind, guarded; cbn [env init record]; rewrite Hatt;
    cbn [env record n_recv n_send n_now log init].
  do 4 emit_step.
  unfold bind at 1. unfold local_thr_first, bind at 1, socket_recv at 1.
  cbn [env record n_recv n_send n_now log init].
  rewrite Hfirst, Hm, Z.eqb_refl. cbn [negb]. unfold ret at 1.
  emit_step. clock_step.
  change (Z.to_nat (1 - 1)) with 0%nat. cbn [for_loop].
  unfold bind at 1, ret at 1. clock_step.
  unfold local_thr_report. do 6 emit_step. unfold cout, emit.
  eexists. split; reflexivity.
Qed.

(** C8, as the program has it. With [message_count = 1], a transport that
    sets up and a first message of the configured size, the throughput
    receiver performs that one receive and no other, prints its report and
    exits with status 0. The throughput is [0 / elapsed_sec] in IEEE
    arithmetic with the elapsed time as measured, no minimum applied: the
    division does not trap, and its result is a zero or, as whenever the
    clock did not advance by a microsecond, not a number. *)
Theorem local_thr_single_message e prog addr sarg carg m :
  0 < atoi sarg -> atoi carg = 1 ->
  ctx_ok e = true -> socket_ok e = true -> attach_ok e = true ->
  recv_at e 0%nat = RecvMsg m -> size m = atoi sarg ->
  fst (run (local_thr_main [prog; addr; sarg; carg]) (init e)) = 0 /\
  n_recv (snd (run (local_thr_main [prog; addr; sarg; carg]) (init e))) = 1%nat /\
  reported "Throughput: " " msg/s\n"
    (snd (run (local_thr_main [prog; addr; sarg; carg]) (init e)))
  = Some (d_div (d_of_Z 0) (spec_elapsed_sec (measured_us e))) /\
  (d_div (d_of_Z 0) (spec_elapsed_sec (measured_us e)) = S754_nan \/
   exists sg,
     d_div (d_of_Z 0) (spec_elapsed_sec (measured_us e)) = S754_zero sg) /\
  (measured_us e = 0 ->
   reported "Throughput: " " msg/s\n"
     (snd (run (local_thr_main [prog; addr; sarg; carg]) (init e)))
   = Some S754_nan /\
   reported "Throughput: " " Mb/s\n"
     (snd (run (local_thr_main [prog; addr; sarg; carg]) (init e)))
   = Some S754_nan).
Proof.
  intros Hs Hc Hctx Hsock Hatt Hfirst Hm.
  pose proof (size_of_positive_argument sarg Hs) as Hsize.
  rewrite local_thr_main_valid by (rewrite ?Hsize, ?Hc; lia).
  rewrite Hsize, Hc.
  destruct (local_thr_single_session addr (atoi sarg) e m
              Hctx Hsock Hatt Hfirst Hm) as (w' & Hses & Hn).
  rewrite Hses. cbn [finish fst snd].
  apply local_thr_session_report in Hses. cbn zeta in Hses.
  destruct Hses as (_ & _ & Hthr & Hmb).
  split; [reflexivity|]. split; [exact Hn|]. split; [exact Hthr|].
  split; [apply d_div_zero_cases|].
  intros H0. rewrite Hthr, Hmb, H0. split; reflexivity.
Qed.

Lemma local_thr_single_message_witness :
  (0 < atoi "2" /\ atoi "1" = 1 /\
   recv_at (steady (bytes "ab") 0 0) 0%nat = RecvMsg (bytes "ab") /\
   size (bytes "ab") = atoi "2") /\
  fst (run (local_thr_main ["./local_thr"; "tcp://*:5556"; "2"; "1"])
           (init (steady (bytes "ab") 0 0))) = 0.
Proof.
  assert (H1 : 0 < atoi "2") by (vm_compute; reflexivity).
  assert (H2 : atoi "1" = 1) by (vm_compute; reflexivity).
  assert (H3 : recv_at (steady (bytes "ab") 0 0) 0%nat = RecvMsg (bytes "ab"))
    by reflexivity.
  assert (H4 : size (bytes "ab") = atoi "2") by (vm_compute; reflexivity).
  split; [repeat split; assumption|].
  exact (proj1 (local_thr_single_message (steady (bytes "ab") 0 0)
                  "./local_thr" "tcp://*:5556" "2" "1" (bytes "ab")
                  H1 H2 eq_refl eq_refl eq_refl H3 H4)).
Defined.

(** C8 fails as stated: one message of two bytes, the clock read twice
    within the same microsecond. The receiver exits with status 0 and prints
    a throughput that is not a number, which no division of zero by a
    positive denominator, minimum or other, gives. *)
Lemma single_message_throughput_is_nan :
  fst (run (local_thr_main ["./local_thr"; "tcp://*:5556"; "2"; "1"])
           (init (steady (bytes "ab") 0 0))) = 0 /\
  reported "Elapsed time: " " seconds\n"
    (snd (run (local_thr_main ["./local_thr"; "tcp://*:5556"; "2"; "1"])
              (init (steady (bytes "ab") 0 0))))
  = Some (S754_zero false) /\
  reported "Throughput: " " msg/s\n"
    (snd (run (local_thr_main ["./local_thr"; "tcp://*:5556"; "2"; "1"])
              (init (steady (bytes "ab") 0 0))))
  = Some S754_nan /\
  ~ exists denominator,
      SFltb (d_of_Z 0) denominator = true /\
      d_div (d_of_Z (1 - 1)) denominator = S754_nan.
Proof.
  split; [vm_compute; reflexivity|]. split; [vm_compute; reflexivity|].
  split; [vm_compute; reflexivity|].
  intros (d & Hpos & Hnan). exact (d_div_zero_positive d Hpos Hnan).
Qed.

(** ** Parsing with [atoi] *)

Lemma read_digits_no_digit acc s :
  starts_with_digit s = false -> read_digits acc s = acc.
Proof.
  destruct s as [|c r]; cbn; [reflexivity|].
  destruct (digit_of c); [discriminate|reflexivity].
Qed.

Lemma digit_free_start s : digit_free s = true -> starts_with_digit s = false.
Proof.
  destruct s as [|c r]; cbn; [reflexivity|].
  destruct (digit_of c); [discriminate|reflexivity].
Qed.

Lemma digit_free_tail c r : digit_free (String c r) = true -> digit_free r = true.
Proof. cbn. destruct (digit_of c); [discriminate|auto]. Qed.

Lemma skip_spaces_digit_free s :
  digit_free s = true -> digit_free (skip_spaces s) = true.
Proof.
  induction s as [|c r IH]; intros H; [exact H|].
  cbn [skip_spaces]. destruct (is_space c); [|exact H].
  apply IH. exact (digit_free_tail c r H).
Qed.

Lemma atoi_digit_free s : digit_free s = true -> atoi s = 0.
Proof.
  intros H. apply skip_spaces_digit_free in H.
  unfold atoi, strtol. destruct (skip_spaces s) as [|c r]; [reflexivity|].
  pose proof (digit_free_start _ H) as Hc.
  pose proof (digit_free_start _ (digit_free_tail c r H)) as Hr.
  rewrite (read_digits_no_digit 0 r Hr), (read_digits_no_digit 0 _ Hc).
  destruct (Ascii.eqb c "-"); [reflexivity|].
  destruct (Ascii.eqb c "+"); reflexivity.
Qed.

Lemma digit_is_plain c d :
  digit_of c = Some d ->
  is_space c = false /\ Ascii.eqb c "-" = false /\ Ascii.eqb c "+" = false.
Proof.
  intros H. split; [|split].
  - unfold digit_of in H. unfold is_space.
    destruct ((48 <=? Z.of_nat (nat_of_ascii c))
              && (Z.of_nat (nat_of_ascii c) <=? 57))%bool eqn:E;
      [|discriminate].
    apply andb_true_iff in E as [E1 E2].
    apply Z.leb_le in E1. apply Z.leb_le in E2.
    apply orb_false_iff. split; [apply Z.eqb_neq; lia|].
    apply andb_false_iff. right. apply Z.leb_gt. lia.
  - destruct (Ascii.eqb_spec c "-") as [->|]; [discriminate|reflexivity].
  - destruct (Ascii.eqb_spec c "+") as [->|]; [discriminate|reflexivity].
Qed.

Lemma read_digits_app ds rest : forall acc,
  all_digits ds = true -> starts_with_digit rest = false ->
  read_digits acc (ds ++ rest)%string = read_digits acc ds.
Proof.
  induction ds as [|c ds IH]; intros acc Hds Hrest.
  - cbn. now apply read_digits_no_digit.
  - cbn in *. destruct (digit_of c); [|discriminate]. now apply IH.
Qed.

Lemma atoi_leading_digits ds rest :
  ds <> EmptyString -> all_digits ds = true -> starts_with_digit rest = false ->
  atoi (ds ++ rest)%string = atoi ds /\
  atoi ds = Int32.wrap (Int64.clamp (read_digits 0 ds)).
Proof.
  intros Hne Hds Hrest. destruct ds as [|c ds]; [now elim Hne|].
  assert (Hc : exists d, digit_of c = Some d).
  { cbn in Hds. destruct (digit_of c) as [d|]; [now exists d|discriminate]. }
  destruct Hc as [d Hd].
  destruct (digit_is_plain c d Hd) as (Hsp & Hminus & Hplus).
  unfold atoi, strtol. cbn [append skip_spaces]. rewrite Hsp, Hminus, Hplus.
  change (String c (ds ++ rest)%string) with (String c ds ++ rest)%string.
  now rewrite read_digits_app.
Qed.

Lemma wrong_argument_count e argv :
  List.length argv <> 4%nat ->
  Forall (fun p => rejected (run (fst p argv) (init e))) programs.
Proof.
  intros Hlen.
  assert (Hargc : (argc argv =? 4) = false)
    by (apply Z.eqb_neq; unfold argc; lia).
  repeat constructor; cbn [fst];
    unfold local_lat_main, remote_lat_main, local_thr_main, remote_thr_main;
    rewrite Hargc; reflexivity.
Qed.

Lemma non_positive_argument e prog addr sarg carg :
  SizeT.of_int (atoi sarg) <= 0 \/ atoi carg <= 0 ->
  Forall (fun p => rejected (run (fst p [prog; addr; sarg; carg]) (init e)))
         programs.
Proof.
  intros H. repeat constructor; cbn [fst].
  all: first [ rewrite local_lat_main_invalid by assumption
             | rewrite remote_lat_main_invalid by assumption
             | rewrite local_thr_main_invalid by assumption
             | rewrite remote_thr_main_invalid by assumption ];
    reflexivity.
Qed.

Lemma programs_read_arguments_with_atoi prog addr s1 s2 c1 c2 :
  atoi s1 = atoi s2 -> atoi c1 = atoi c2 ->
  Forall (fun p => fst p [prog; addr; s1; c1] = fst p [prog; addr; s2; c2])
         programs.
Proof.
  intros Hs Hc. repeat constructor; cbn [fst];
    unfold local_lat_main, remote_lat_main, local_thr_main, remote_thr_main;
    cbn [arg nth argc List.length]; rewrite Hs, Hc; reflexivity.
Qed.

Lemma negative_size_wraps sarg :
  atoi sarg < 0 ->
  SizeT.of_int (atoi sarg) = 2 ^ 64 + atoi sarg /\
  2 ^ 64 - 2 ^ 31 <= SizeT.of_int (atoi sarg).
Proof.
  intros Hneg. pose proof (atoi_range sarg) as [Hlo _].
  unfold Int32.min_signed in Hlo.
  assert (H : SizeT.of_int (atoi sarg) = 2 ^ 64 + atoi sarg).
  { unfold SizeT.of_int, SizeT.modulus. symmetry.
    apply Z.mod_unique with (q := -1); [left; lia|lia]. }
  split; [exact H|]. rewrite H. lia.
Qed.

Lemma valid_arguments_enter_session prog addr sarg carg w :
  0 < SizeT.of_int (atoi sarg) -> 0 < atoi carg ->
  Forall (fun p =>
            run (fst p [prog; addr; sarg; carg]) w
            = finish (snd p addr (SizeT.of_int (atoi sarg)) (atoi carg) w))
         programs.
Proof.
  intros Hs Hc. repeat constructor; cbn [fst snd].
  - now apply local_lat_main_valid.
  - now apply remote_lat_main_valid.
  - now apply local_thr_main_valid.
  - now apply remote_thr_main_valid.
Qed.

(** C10. The numeric arguments go through [atoi]. A string without any
    digit parses to 0 and, in either numeric position, has the program
    reject its arguments with status 1 before touching the transport. A
    string of digits followed by anything that is not a digit parses to the
    value of the digits, and no program can tell it from the digits alone
    (["64abc"] is 64). A negative [message_size] argument becomes
    [2^64 + atoi] as a [size_t], at least [2^64 - 2^31], passes the
    positivity check and the session is entered with that size. *)
Theorem arguments_are_parsed_by_atoi e prog addr :
  (forall junk other, digit_free junk = true ->
     atoi junk = 0 /\
     Forall (fun p =>
               rejected (run (fst p [prog; addr; junk; other]) (init e)) /\
               rejected (run (fst p [prog; addr; other; junk]) (init e)))
            programs) /\
  (forall ds rest other,
     ds <> EmptyString -> all_digits ds = true ->
     starts_with_digit rest = false ->
     atoi (ds ++ rest)%string = atoi ds /\
     atoi ds = Int32.wrap (Int64.clamp (read_digits 0 ds)) /\
     Forall (fun p =>
               fst p [prog; addr; (ds ++ rest)%string; other]
               = fst p [prog; addr; ds; other] /\
               fst p [prog; addr; other; (ds ++ rest)%string]
               = fst p [prog; addr; other; ds])
            programs) /\
  atoi "64abc" = 64 /\
  (forall sarg carg, atoi sarg < 0 -> 0 < atoi carg ->
     SizeT.of_int (atoi sarg) = 2 ^ 64 + atoi sarg /\
     2 ^ 64 - 2 ^ 31 <= SizeT.of_int (atoi sarg) /\
     Forall (fun p =>
               run (fst p [prog; addr; sarg; carg]) (init e)
               = finish (snd p addr (2 ^ 64 + atoi sarg) (atoi carg) (init e)))
            programs).
Proof.
  split; [|split; [|split]].
  - intros junk other Hjunk.
    pose proof (atoi_digit_free junk Hjunk) as H0. split; [exact H0|].
    assert (Hs : SizeT.of_int (atoi junk) <= 0) by (rewrite H0; cbv; discriminate).
    assert (Hc : atoi junk <= 0) by lia.
    pose proof (non_positive_argument e prog addr junk other (or_introl Hs))
      as H1.
    pose proof (non_positive_argument e prog addr other junk (or_intror Hc))
      as H2.
    rewrite Forall_forall in *. intros p Hp. split; auto.
  - intros ds rest other Hne Hds Hrest.
    destruct (atoi_leading_digits ds rest Hne Hds Hrest) as [Happ Hval].
    split; [exact Happ|]. split; [exact Hval|].
    pose proof (programs_read_arguments_with_atoi prog addr
                  (ds ++ rest)%string ds other other Happ eq_refl) as H1.
    pose proof (programs_read_arguments_with_atoi prog addr
                  other other (ds ++ rest)%string ds eq_refl Happ) as H2.
    rewrite Forall_forall in *. intros p Hp. split; auto.
  - vm_compute. reflexivity.
  - intros sarg carg Hneg Hc.
    destruct (negative_size_wraps sarg Hneg) as [Hwrap Hbig].
    split; [exact Hwrap|]. split; [exact Hbig|].
    rewrite <- Hwrap. apply valid_arguments_enter_session; lia.
Qed.

Lemma arguments_are_parsed_by_atoi_witness :
  (digit_free "abc" = true /\
   all_digits "64" = true /\ starts_with_digit "abc" = false /\
   atoi "-5" < 0 /\ 0 < atoi "10") /\
  atoi "abc" = 0 /\
  atoi ("64" ++ "abc")%string = atoi "64" /\
  SizeT.of_int (atoi "-5") = 2 ^ 64 + atoi "-5".
Proof.
  assert (H1 : digit_free "abc" = true) by reflexivity.
  assert (H2 : all_digits "64" = true) by reflexivity.
  assert (H3 : starts_with_digit "abc" = false) by reflexivity.
  assert (H4 : atoi "-5" < 0) by (vm_compute; reflexivity).
  assert (H5 : 0 < atoi "10") by (vm_compute; reflexivity).
  split; [repeat split; assumption|].
  pose proof (arguments_are_parsed_by_atoi (steady (bytes "ab") 0 0)
                "./remote_thr" "tcp://localhost:5556") as (Ha & Hb & _ & Hc).
  split; [exact (proj1 (Ha "abc" "10" H1))|].
  split.
  - refine (proj1 (Hb "64" "abc" "10" _ H2 H3)). discriminate.
  - exact (proj1 (Hc "-5" "10" H4 H5)).
Defined.

(** ** Negative sizes *)

(** C7, at [message_size = -1]. The argument becomes the [size_t]
    [2^64 - 1], the positivity check lets it through, and each of the four
    programs creates its context and socket and binds or connects before it
    fails on something else. *)
Theorem negative_message_size_reaches_the_transport :
  SizeT.of_int (atoi "-1") = 18446744073709551615 /\
  transport_ops
    (snd (run (local_lat_main ["./local_lat"; "tcp://*:5555"; "-1"; "10"])
              (init (steady (bytes "ab") 0 0))))
  = [EContext true; ESocket REP true; EBind "tcp://*:5555" true;
     ERecv (RecvMsg (bytes "ab")); ESend (bytes "ab") SendOk;
     ERecv (RecvMsg (bytes "ab"))] /\
  transport_ops
    (snd (run (remote_lat_main
                 ["./remote_lat"; "tcp://localhost:5555"; "-1"; "10"])
              (init (steady (bytes "ab") 0 0))))
  = [EContext true; ESocket REQ true; EConnect "tcp://localhost:5555" true] /\
  transport_ops
    (snd (run (local_thr_main ["./local_thr"; "tcp://*:5556"; "-1"; "10"])
              (init (steady (bytes "ab") 0 0))))
  = [EContext true; ESocket PULL true; EBind "tcp://*:5556" true;
     ERecv (RecvMsg (bytes "ab"))] /\
  transport_ops
    (snd (run (remote_thr_main
                 ["./remote_thr"; "tcp://localhost:5556"; "-1"; "10"])
              (init (steady (bytes "ab") 0 0))))
  = [EContext true; ESocket PUSH true; EConnect "tcp://localhost:5556" true].
Proof.
  repeat split; vm_compute; reflexivity.
Qed.

(** ** The progress indicator *)

Lemma progress_lines_record ev w :
  progress_lines (record ev w) = progress_lines w ++ progress_of ev.
Proof.
  unfold progress_lines, history. cbn [record log rev].
  now rewrite flat_map_app; cbn; rewrite app_nil_r.
Qed.

Lemma progress_lines_log w1 w2 :
  log w1 = log w2 -> progress_lines w1 = progress_lines w2.
Proof. unfold progress_lines, history. now intros ->. Qed.

Lemma progress_loop c body (Hbody : progress_turn c body) fuel : forall i w w',
  for_loop fuel i body w = (Normal tt, w') ->
  progress_lines w'
  = progress_lines w
    ++ map (progress_line c) (filter (progress_due c) (indices fuel i)).
Proof.
  induction fuel as [|fuel IH]; intros i w w' Hrun.
  - injection Hrun as <-. cbn. now rewrite app_nil_r.
  - cbn [for_loop] in Hrun. unfold bind in Hrun.
    destruct (body i w) as [[[]|c1|e1] w1] eqn:Hb; try discriminate.
    rewrite (IH _ _ _ Hrun), (Hbody _ _ _ Hb). cbn [indices filter].
    destruct (progress_due c i); cbn [map]; now rewrite <- app_assoc.
Qed.

Lemma progress_indicator_lines c i w :
  progress_lines (snd (progress_indicator c i w))
  = progress_lines w ++ (if progress_due c i then [progress_line c i] else []).
Proof.
  unfold progress_indicator. destruct (progress_due c i).
  - unfold cout, emit. cbn [snd]. now rewrite progress_lines_record.
  - cbn. now rewrite app_nil_r.
Qed.

Lemma local_thr_receive_progress s c : progress_turn c (local_thr_receive s c).
Proof.
  intros i w w'.
  unfold local_thr_receive, bind, socket_recv, cerr, emit, return_, ret.
  destruct (recv_at (env w) (n_recv w)) as [m| |]; cbn; try discriminate.
  destruct (size m =? s); cbn; try discriminate.
  intros H.
  match type of H with progress_indicator c i ?w0 = _ =>
    pose proof (progress_indicator_lines c i w0) as Hp; rewrite H in Hp
  end.
  cbn [snd] in Hp. rewrite Hp. f_equal.
  change (progress_lines (record (ERecv (RecvMsg m)) w) = progress_lines w).
  rewrite progress_lines_record. cbn. now rewrite app_nil_r.
Qed.

Lemma remote_thr_send_progress buf s c :
  progress_turn c (remote_thr_send buf s c).
Proof.
  intros i w w'.
  unfold remote_thr_send, bind, socket_send, cerr, emit, return_, ret.
  destruct (send_at (env w) (n_send w)); cbn; try discriminate.
  intros H.
  match type of H with progress_indicator c i ?w0 = _ =>
    pose proof (progress_indicator_lines c i w0) as Hp; rewrite H in Hp
  end.
  cbn [snd] in Hp. rewrite Hp. f_equal.
  change (progress_lines (record (ESend (message_of buf s) SendOk) w)
          = progress_lines w).
  rewrite progress_lines_record. cbn. now rewrite app_nil_r.
Qed.

Lemma remote_thr_send_quiet buf s c : quiet_turn (remote_thr_send buf s c).
Proof.
  intros i w o w'.
  unfold remote_thr_send, bind, socket_send, cerr, emit, return_, ret.
  destruct (send_at (env w) (n_send w)); cbn;
    [unfold progress_indicator, cout, emit, ret;
     destruct (progress_due c i)| |];
    done_run; auto.
Qed.

Lemma local_thr_session_progress addr s c e o w' :
  local_thr_session addr s c (init e) = (o, w') ->
  match o with
  | Normal _ =>
      progress_lines w'
      = map (progress_line c)
            (filter (progress_due c) (indices (Z.to_nat (c - 1)) 1))
  | Returned c1 => c1 = 1
  | Thrown _ => True
  end.
Proof.
  unfold local_thr_session, for_range.
  setup_step; [|done_run; exact I].
  setup_step; [|done_run; exact I].
  setup_step; [|done_run; exact I].
  do 4 emit_step.
  unfold bind at 1. unfold local_thr_first, bind at 1, socket_recv at 1.
  cbn [env record n_recv n_send n_now log init].
  destruct (recv_at e 0%nat) as [m0| |];
    [ | unfold bind at 1, cerr, emit, return_; done_run; reflexivity
      | done_run; exact I ].
  destruct (size m0 =? s); cbn [negb];
    [ | unfold bind at 1, cerr, emit, return_; done_run; reflexivity ].
  unfold ret at 1. emit_step. clock_step. unfold bind at 1.
  match goal with
  | |- context [for_loop ?f ?i ?b ?w0] =>
      destruct (for_loop f i b w0) as [o1 w1] eqn:Hloop
  end.
  pose proof (quiet_loop _ (local_thr_receive_quiet s c) _ _ _ _ _ Hloop)
    as (_ & _ & Hc).
  destruct o1 as [[]|c1|e1];
    [ | done_run; exact Hc | done_run; exact I ].
  apply (progress_loop c _ (local_thr_receive_progress s c)) in Hloop.
  clock_step.
  unfold local_thr_report. do 6 emit_step. unfold cout, emit.
  done_run. rewrite !progress_lines_record.
  cbn [progress_of String.eqb Ascii.eqb Bool.eqb].
  rewrite !app_nil_r.
  rewrite (progress_lines_log _ w1) by reflexivity. rewrite Hloop.
  reflexivity.
Qed.

Lemma remote_thr_session_progress addr s c e o w' :
  remote_thr_session addr s c (init e) = (o, w') ->
  match o with
  | Normal _ =>
      progress_lines w'
      = map (progress_line c)
            (filter (progress_due c) (indices (Z.to_nat (c - 0)) 0))
  | Returned c1 => c1 = 1
  | Thrown _ => True
  end.
Proof.
  unfold remote_thr_session, for_range.
  setup_step; [|done_run; exact I].
  setup_step; [|done_run; exact I].
  setup_step; [|done_run; exact I].
  do 4 emit_step.
  vector_step; [done_run; exact I|].
  emit_step. unfold bind at 1.
  match goal with
  | |- context [for_loop ?f ?i ?b ?w0] =>
      destruct (for_loop f i b w0) as [o1 w1] eqn:Hloop
  end.
  pose proof (quiet_loop _ (remote_thr_send_quiet _ s c) _ _ _ _ _ Hloop)
    as (_ & _ & Hc).
  destruct o1 as [[]|c1|e1];
    [ | done_run; exact Hc | done_run; exact I ].
  apply (progress_loop c _ (remote_thr_send_progress _ s c)) in Hloop.
  do 2 emit_step. unfold sleep_for, emit.
  done_run. rewrite !progress_lines_record.
  cbn [progress_of String.eqb Ascii.eqb Bool.eqb].
  rewrite !app_nil_r. rewrite Hloop. reflexivity.
Qed.

(** *** Arithmetic of the schedule *)

Lemma progress_due_small c i : c <= 100 -> progress_due c i = false.
Proof.
  intros Hc. unfold progress_due.
  now replace (c >? 100) with false
    by (symmetry; rewrite Z.gtb_ltb; apply Z.ltb_ge; lia).
Qed.

Lemma progress_due_on_tenth c i :
  100 < c -> 0 <= i -> progress_due c i = on_tenth c (i + 1).
Proof.
  intros Hc Hi. unfold progress_due, on_tenth.
  replace (c >? 100) with true
    by (symmetry; rewrite Z.gtb_ltb; apply Z.ltb_lt; lia).
  rewrite Z.quot_div_nonneg by lia.
  assert (0 < c / 10) by (apply Z.div_str_pos; lia).
  now rewrite Z.rem_mod_nonneg by lia.
Qed.

Lemma progress_line_spec c i :
  0 <= i -> i < c -> c <= 21474836 ->
  progress_line c i = spec_progress_line c (i + 1).
Proof.
  intros Hi Hic Hc. unfold progress_line, spec_progress_line, progress_percent.
  unfold Int32.wrap. rewrite Z.mod_small by lia.
  replace ((i + 1) * 100 + 2 ^ 31 - 2 ^ 31) with ((i + 1) * 100) by lia.
  now rewrite Z.quot_div_nonneg by lia.
Qed.

Lemma shown_counts_schedule c fuel : forall lo,
  100 < c -> 0 <= lo ->
  flat_map shown_count
    (map (progress_line c) (filter (progress_due c) (indices fuel lo)))
  = filter (on_tenth c) (indices fuel (lo + 1)).
Proof.
  induction fuel as [|fuel IH]; intros lo Hc Hlo; [reflexivity|].
  cbn [indices filter]. rewrite progress_due_on_tenth by assumption.
  destruct (on_tenth c (lo + 1));
    cbn [map flat_map shown_count progress_line app];
    now rewrite IH by lia.
Qed.

Lemma progress_lines_schedule c fuel : forall lo,
  100 < c -> c <= 21474836 -> 0 <= lo -> lo + Z.of_nat fuel <= c ->
  map (progress_line c) (filter (progress_due c) (indices fuel lo))
  = map (spec_progress_line c) (filter (on_tenth c) (indices fuel (lo + 1))).
Proof.
  induction fuel as [|fuel IH]; intros lo Hc Hmax Hlo Hfit; [reflexivity|].
  cbn [indices filter]. rewrite progress_due_on_tenth by assumption.
  destruct (on_tenth c (lo + 1)); cbn [map].
  - rewrite progress_line_spec by lia. f_equal. apply IH; lia.
  - apply IH; lia.
Qed.

Lemma on_tenth_exact c k :
  0 < c -> c mod 10 = 0 -> on_tenth c k = ((10 * k) mod c =? 0).
Proof.
  intros Hc H10. unfold on_tenth.
  assert (Hq : c = 10 * (c / 10)) by (apply Z.div_exact; lia).
  rewrite Hq at 2. rewrite Z.mul_mod_distr_l by lia.
  destruct (Z.eqb_spec (k mod (c / 10)) 0) as [->|Hne]; symmetry.
  - reflexivity.
  - apply Z.eqb_neq. lia.
Qed.

Lemma scheduled first fuel c w :
  0 <= first - 1 -> fuel = Z.to_nat (c - first + 1) ->
  (100 < c -> first <= c) ->
  progress_lines w
  = map (progress_line c)
        (filter (progress_due c) (indices fuel (first - 1))) ->
  progress_as_scheduled first c w.
Proof.
  intros Hfirst Hfuel Hle Hlines. split.
  - intros Hc. rewrite Hlines.
    replace (filter (progress_due c) (indices fuel (first - 1))) with (@nil Z);
      [reflexivity|].
    symmetry. apply filter_none. apply Forall_forall. intros i _.
    now apply progress_due_small.
  - intros Hc. split; [|split].
    + unfold shown_counts. rewrite Hlines, shown_counts_schedule by lia.
      unfold tenth_multiples, cumulative_counts. rewrite <- Hfuel.
      do 2 f_equal. lia.
    + intros Hmax. rewrite Hlines, progress_lines_schedule by lia.
      unfold tenth_multiples, cumulative_counts. rewrite <- Hfuel.
      do 3 f_equal. lia.
    + intros H10. unfold tenth_multiples. apply filter_ext.
      intros k. apply on_tenth_exact; lia.
Qed.

Lemma local_thr_success e prog addr sarg carg w' :
  run (local_thr_main [prog; addr; sarg; carg]) (init e) = (0, w') ->
  0 < atoi carg /\
  local_thr_session addr (SizeT.of_int (atoi sarg)) (atoi carg) (init e)
  = (Normal tt, w').
Proof.
  intros Hrun.
  destruct (Z.le_gt_cases (SizeT.of_int (atoi sarg)) 0) as [Hs|Hs].
  { rewrite local_thr_main_invalid in Hrun by now left. discriminate. }
  destruct (Z.le_gt_cases (atoi carg) 0) as [Hc|Hc].
  { rewrite local_thr_main_invalid in Hrun by now right. discriminate. }
  split; [exact Hc|].
  rewrite local_thr_main_valid in Hrun by assumption.
  destruct (local_thr_session _ _ _ _) as [o w1] eqn:Hses.
  apply local_thr_session_progress in Hses.
  destruct o as [[]|c|[]]; cbn in Hrun.
  - now injection Hrun as <-.
  - injection Hrun as -> <-. discriminate.
  - discriminate.
  - discriminate.
Qed.

Lemma remote_thr_success e prog addr sarg carg w' :
  run (remote_thr_main [prog; addr; sarg; carg]) (init e) = (0, w') ->
  0 < atoi carg /\
  remote_thr_session addr (SizeT.of_int (atoi sarg)) (atoi carg) (init e)
  = (Normal tt, w').
Proof.
  intros Hrun.
  destruct (Z.le_gt_cases (SizeT.of_int (atoi sarg)) 0) as [Hs|Hs].
  { rewrite remote_thr_main_invalid in Hrun by now left. discriminate. }
  destruct (Z.le_gt_cases (atoi carg) 0) as [Hc|Hc].
  { rewrite remote_thr_main_invalid in Hrun by now right. discriminate. }
  split; [exact Hc|].
  rewrite remote_thr_main_valid in Hrun by assumption.
  destruct (remote_thr_session _ _ _ _) as [o w1] eqn:Hses.
  apply remote_thr_session_progress in Hses.
  destruct o as [[]|c|[]]; cbn in Hrun.
  - now injection Hrun as <-.
  - injection Hrun as -> <-. discriminate.
  - discriminate.
  - discriminate.
Qed.

(** *** Runs that stop early *)

Lemma delivered_grow s evs w w' :
  log w' = evs ++ log w ->
  delivered s w'
  = delivered s w + Z.of_nat (List.length (filter (made_it s) (rev evs))).
Proof.
  unfold delivered, history. intros ->.
  rewrite rev_app_distr, filter_app, length_app. lia.
Qed.

Lemma progress_lines_grow evs w w' :
  log w' = evs ++ log w ->
  progress_lines w' = progress_lines w ++ flat_map progress_of (rev evs).
Proof.
  unfold progress_lines, history. intros ->.
  now rewrite rev_app_distr, flat_map_app.
Qed.

Lemma progress_indicator_counts s c i w :
  exists w', progress_indicator c i w = (Normal tt, w') /\
             delivered s w' = delivered s w /\
             progress_lines w'
             = progress_lines w
               ++ (if progress_due c i then [progress_line c i] else []).
Proof.
  unfold progress_indicator. destruct (progress_due c i).
  - eexists. split; [reflexivity|]. unfold cout, emit. split.
    + rewrite (delivered_grow s [EStdout (progress_line c i)] w)
        by reflexivity.
      cbn. lia.
    + now rewrite progress_lines_record.
  - exists w. split; [reflexivity|]. split; [reflexivity|].
    now rewrite app_nil_r.
Qed.

Lemma local_thr_receive_counting s c : counting_turn s c (local_thr_receive s c).
Proof.
  intros i w o w'.
  unfold local_thr_receive, bind, socket_recv, cerr, emit, return_, ret.
  destruct (recv_at (env w) (n_recv w)) as [m| |] eqn:Hr; cbn.
  - destruct (size m =? s) eqn:Hsz; cbn.
    + match goal with |- progress_indicator c i ?w0 = _ -> _ =>
        destruct (progress_indicator_counts s c i w0) as (w2 & -> & Hd & Hp)
      end.
      done_run. rewrite Hd, Hp. split.
      * rewrite (delivered_grow s [ERecv (RecvMsg m)] w) by reflexivity.
        cbn. now rewrite Hsz.
      * f_equal.
        rewrite (progress_lines_grow [ERecv (RecvMsg m)] w) by reflexivity.
        cbn. now rewrite app_nil_r.
    + done_run. split.
      * rewrite (delivered_grow s
                   [EStderr (mismatch_diagnostic_at i s (size m));
                    ERecv (RecvMsg m)] w) by reflexivity.
        cbn. rewrite Hsz. cbn. lia.
      * rewrite (progress_lines_grow
                   [EStderr (mismatch_diagnostic_at i s (size m));
                    ERecv (RecvMsg m)] w) by reflexivity.
        cbn. now rewrite app_nil_r.
  - done_run. split.
    + rewrite (delivered_grow s
                 [EStderr [Str "Error: Failed to receive message "; Num i;
                           Str "\n"]; ERecv RecvAgain] w) by reflexivity.
      cbn. lia.
    + rewrite (progress_lines_grow
                 [EStderr [Str "Error: Failed to receive message "; Num i;
                           Str "\n"]; ERecv RecvAgain] w) by reflexivity.
      cbn. now rewrite app_nil_r.
  - done_run. split.
    + rewrite (delivered_grow s [ERecv RecvThrow] w) by reflexivity.
      cbn. lia.
    + rewrite (progress_lines_grow [ERecv RecvThrow] w) by reflexivity.
      cbn. now rewrite app_nil_r.
Qed.

Lemma remote_thr_send_counting buf s c :
  counting_turn s c (remote_thr_send buf s c).
Proof.
  intros i w o w'.
  unfold remote_thr_send, bind, socket_send, cerr, emit, return_, ret.
  destruct (send_at (env w) (n_send w)) eqn:Hsd; cbn.
  - match goal with |- progress_indicator c i ?w0 = _ -> _ =>
      destruct (progress_indicator_counts s c i w0) as (w2 & -> & Hd & Hp)
    end.
    done_run. rewrite Hd, Hp. split.
    + rewrite (delivered_grow s [ESend (message_of buf s) SendOk] w)
        by reflexivity.
      reflexivity.
    + f_equal.
      rewrite (progress_lines_grow [ESend (message_of buf s) SendOk] w)
        by reflexivity.
      cbn. now rewrite app_nil_r.
  - done_run. split.
    + rewrite (delivered_grow s
                 [EStderr [Str "Error: Failed to send message "; Num i;
                           Str "\n"]; ESend (message_of buf s) SendAgain] w)
        by reflexivity.
      cbn. lia.
    + rewrite (progress_lines_grow
                 [EStderr [Str "Error: Failed to send message "; Num i;
                           Str "\n"]; ESend (message_of buf s) SendAgain] w)
        by reflexivity.
      cbn. now rewrite app_nil_r.
  - done_run. split.
    + rewrite (delivered_grow s [ESend (message_of buf s) SendThrow] w)
        by reflexivity.
      cbn. lia.
    + rewrite (progress_lines_grow [ESend (message_of buf s) SendThrow] w)
        by reflexivity.
      cbn. now rewrite app_nil_r.
Qed.

(** A loop of counting turns, however it ends: [n] turns completed. *)
Lemma counting_loop s c body (Hbody : counting_turn s c body) fuel :
  forall i w o w',
  for_loop fuel i body w = (o, w') ->
  exists n, (n <= fuel)%nat /\
    delivered s w' = delivered s w + Z.of_nat n /\
    progress_lines w'
    = progress_lines w
      ++ map (progress_line c) (filter (progress_due c) (indices n i)).
Proof.
  induction fuel as [|fuel IH]; intros i w o w' Hrun.
  - injection Hrun as <- <-. exists 0%nat. split; [lia|].
    cbn. rewrite app_nil_r. split; [lia|reflexivity].
  - cbn [for_loop] in Hrun. unfold bind in Hrun.
    destruct (body i w) as [o1 w1] eqn:Hb.
    pose proof (Hbody _ _ _ _ Hb) as Hturn.
    destruct o1 as [[]|c1|e1].
    + destruct Hturn as [Hd Hp].
      destruct (IH _ _ _ _ Hrun) as (n & Hn & Hd' & Hp').
      exists (S n). split; [lia|]. split; [lia|].
      rewrite Hp', Hp. cbn [indices filter].
      destruct (progress_due c i); cbn [map]; now rewrite <- app_assoc.
    + injection Hrun as <- <-. destruct Hturn as [Hd Hp].
      exists 0%nat. split; [lia|]. cbn. rewrite app_nil_r.
      split; [lia|assumption].
    + injection Hrun as <- <-. destruct Hturn as [Hd Hp].
      exists 0%nat. split; [lia|]. cbn. rewrite app_nil_r.
      split; [lia|assumption].
Qed.

Lemma delivered_record s ev w :
  delivered s (record ev w)
  = delivered s w + (if made_it s ev then 1 else 0).
Proof.
  rewrite (delivered_grow s [ev] w) by reflexivity.
  cbn [rev app filter]. now destruct (made_it s ev).
Qed.

Lemma delivered_log s w1 w2 : log w1 = log w2 -> delivered s w1 = delivered s w2.
Proof. unfold delivered, history. now intros ->. Qed.

Lemma local_thr_session_counts addr s c e o w' :
  local_thr_session addr s c (init e) = (o, w') ->
  exists n, (n <= Z.to_nat (c - 1))%nat /\
    Z.to_nat (delivered s w' - 2 + 1) = n /\
    progress_lines w'
    = map (progress_line c) (filter (progress_due c) (indices n 1)).
Proof.
  assert (Hnone : forall w, delivered s w = 0 -> progress_lines w = [] ->
            exists n, (n <= Z.to_nat (c - 1))%nat /\
              Z.to_nat (delivered s w - 2 + 1) = n /\
              progress_lines w
              = map (progress_line c)
                    (filter (progress_due c) (indices n 1))).
  { intros w Hd Hp. exists 0%nat. rewrite Hd, Hp. repeat split. lia. }
  unfold local_thr_session, for_range.
  setup_step; [|done_run; apply Hnone; reflexivity].
  setup_step; [|done_run; apply Hnone; reflexivity].
  setup_step; [|done_run; apply Hnone; reflexivity].
  do 4 emit_step.
  unfold bind at 1. unfold local_thr_first, bind at 1, socket_recv at 1.
  cbn [env record n_recv n_send n_now log init].
  destruct (recv_at e 0%nat) as [m0| |];
    [ | unfold bind at 1, cerr, emit, return_; done_run;
        apply Hnone; reflexivity
      | done_run; apply Hnone; reflexivity ].
  destruct (size m0 =? s) eqn:Hm0; cbn [negb].
  2:{ unfold bind at 1, cerr, emit, return_. done_run.
      apply Hnone; [|reflexivity].
      unfold delivered, history.
      cbn [record log rev app filter made_it]. now rewrite Hm0. }
  unfold ret at 1. emit_step. clock_step. unfold bind at 1.
  match goal with
  | |- context [for_loop ?f ?i ?b ?w0] =>
      destruct (for_loop f i b w0) as [o1 w1] eqn:Hloop;
      assert (Hd0 : delivered s w0 = 1)
        by (unfold delivered, history;
            cbn [record log rev app filter made_it]; now rewrite Hm0);
      assert (Hp0 : progress_lines w0 = []) by reflexivity
  end.
  destruct (counting_loop s c _ (local_thr_receive_counting s c) _ _ _ _ _
              Hloop) as (n & Hn & Hd & Hp).
  rewrite Hd0 in Hd. rewrite Hp0 in Hp. cbn [app] in Hp.
  assert (Hw1 : exists n0, (n0 <= Z.to_nat (c - 1))%nat /\
            Z.to_nat (delivered s w1 - 2 + 1) = n0 /\
            progress_lines w1
            = map (progress_line c) (filter (progress_due c) (indices n0 1))).
  { exists n. split; [exact Hn|]. split; [lia|exact Hp]. }
  destruct o1 as [[]|c1|e1]; [ | done_run; exact Hw1 | done_run; exact Hw1 ].
  clock_step. unfold local_thr_report. do 6 emit_step. unfold cout, emit.
  done_run.
  rewrite !delivered_record, !progress_lines_record.
  cbn [made_it progress_of String.eqb Ascii.eqb Bool.eqb].
  rewrite !app_nil_r, !Z.add_0_r.
  match goal with
  | |- context [delivered s ?w2] =>
      rewrite (delivered_log s w2 w1) by reflexivity;
      rewrite (progress_lines_log w2 w1) by reflexivity
  end.
  exact Hw1.
Qed.

Lemma remote_thr_session_counts addr s c e o w' :
  remote_thr_session addr s c (init e) = (o, w') ->
  exists n, (n <= Z.to_nat (c - 0))%nat /\
    Z.to_nat (delivered s w' - 1 + 1) = n /\
    progress_lines w'
    = map (progress_line c) (filter (progress_due c) (indices n 0)).
Proof.
  assert (Hnone : forall w, delivered s w = 0 -> progress_lines w = [] ->
            exists n, (n <= Z.to_nat (c - 0))%nat /\
              Z.to_nat (delivered s w - 1 + 1) = n /\
              progress_lines w
              = map (progress_line c)
                    (filter (progress_due c) (indices n 0))).
  { intros w Hd Hp. exists 0%nat. rewrite Hd, Hp. repeat split. lia. }
  unfold remote_thr_session, for_range.
  setup_step; [|done_run; apply Hnone; reflexivity].
  setup_step; [|done_run; apply Hnone; reflexivity].
  setup_step; [|done_run; apply Hnone; reflexivity].
  do 4 emit_step.
  vector_step; [done_run; apply Hnone; reflexivity|].
  emit_step. unfold bind at 1.
  match goal with
  | |- context [for_loop ?f ?i ?b ?w0] =>
      destruct (for_loop f i b w0) as [o1 w1] eqn:Hloop;
      assert (Hd0 : delivered s w0 = 0) by reflexivity;
      assert (Hp0 : progress_lines w0 = []) by reflexivity
  end.
  destruct (counting_loop s c _ (remote_thr_send_counting _ s c) _ _ _ _ _
              Hloop) as (n & Hn & Hd & Hp).
  rewrite Hd0 in Hd. rewrite Hp0 in Hp. cbn [app] in Hp.
  assert (Hw1 : exists n0, (n0 <= Z.to_nat (c - 0))%nat /\
            Z.to_nat (delivered s w1 - 1 + 1) = n0 /\
            progress_lines w1
            = map (progress_line c) (filter (progress_due c) (indices n0 0))).
  { exists n. split; [exact Hn|]. split; [lia|exact Hp]. }
  destruct o1 as [[]|c1|e1]; [ | done_run; exact Hw1 | done_run; exact Hw1 ].
  do 2 emit_step. unfold sleep_for, emit. done_run.
  rewrite !delivered_record, !progress_lines_record.
  cbn [made_it progress_of String.eqb Ascii.eqb Bool.eqb].
  rewrite !app_nil_r, !Z.add_0_r.
  exact Hw1.
Qed.

Lemma follows first n c s w :
  1 <= first ->
  Z.to_nat (delivered s w - first + 1) = n ->
  (100 < c -> first - 1 + Z.of_nat n <= c) ->
  progress_lines w
  = map (progress_line c)
        (filter (progress_due c) (indices n (first - 1))) ->
  progress_follows first c s w.
Proof.
  intros Hfirst Hn Hfit Hlines. unfold progress_follows, cumulative_counts.
  rewrite Hn. split.
  - intros Hc. rewrite Hlines.
    replace (filter (progress_due c) (indices n (first - 1))) with (@nil Z);
      [reflexivity|].
    symmetry. apply filter_none. apply Forall_forall. intros i _.
    now apply progress_due_small.
  - intros Hc. specialize (Hfit Hc). split; [|split].
    + unfold shown_counts. rewrite Hlines, shown_counts_schedule by lia.
      do 2 f_equal. lia.
    + intros Hmax. rewrite Hlines, progress_lines_schedule by lia.
      do 3 f_equal. lia.
    + intros H10. apply filter_ext. intros k. apply on_tenth_exact; lia.
Qed.

Lemma progress_follows_same first c s w1 w2 :
  delivered s w1 = delivered s w2 -> progress_lines w1 = progress_lines w2 ->
  progress_follows first c s w2 -> progress_follows first c s w1.
Proof.
  unfold progress_follows, shown_counts. now intros -> ->.
Qed.

Lemma finish_keeps_progress s (r : outcome unit * world) :
  delivered s (snd (finish r)) = delivered s (snd r) /\
  progress_lines (snd (finish r)) = progress_lines (snd r).
Proof.
  destruct r as [[[]|c|[]] w]; cbn [finish snd];
    rewrite ?delivered_record, ?progress_lines_record; cbn;
    rewrite ?app_nil_r, ?Z.add_0_r; now split.
Qed.

Lemma nothing_delivered first c s w :
  1 <= first <= 2 -> delivered s w = 0 -> progress_lines w = [] ->
  progress_follows first c s w.
Proof.
  intros Hfirst Hd Hp.
  apply (follows first 0 c s w); [lia|rewrite Hd; lia|lia|now rewrite Hp].
Qed.

Lemma local_thr_progress_follows e prog addr sarg carg :
  progress_follows 2 (atoi carg) (SizeT.of_int (atoi sarg))
    (snd (run (local_thr_main [prog; addr; sarg; carg]) (init e))).
Proof.
  destruct (Z.le_gt_cases (SizeT.of_int (atoi sarg)) 0) as [Hs|Hs];
    [|destruct (Z.le_gt_cases (atoi carg) 0) as [Hc|Hc]].
  - rewrite local_thr_main_invalid by now left.
    apply nothing_delivered; [lia|reflexivity|reflexivity].
  - rewrite local_thr_main_invalid by now right.
    apply nothing_delivered; [lia|reflexivity|reflexivity].
  - rewrite local_thr_main_valid by assumption.
    destruct (local_thr_session _ _ _ _) as [o w1] eqn:Hses.
    destruct (finish_keeps_progress (SizeT.of_int (atoi sarg)) (o, w1))
      as [Hd Hp].
    apply (progress_follows_same _ _ _ _ w1 Hd Hp).
    destruct (local_thr_session_counts _ _ _ _ _ _ Hses) as (n & Hn & Hd1 & Hp1).
    apply (follows 2 n); [lia|exact Hd1|lia|exact Hp1].
Qed.

Lemma remote_thr_progress_follows e prog addr sarg carg :
  progress_follows 1 (atoi carg) (SizeT.of_int (atoi sarg))
    (snd (run (remote_thr_main [prog; addr; sarg; carg]) (init e))).
Proof.
  destruct (Z.le_gt_cases (SizeT.of_int (atoi sarg)) 0) as [Hs|Hs];
    [|destruct (Z.le_gt_cases (atoi carg) 0) as [Hc|Hc]].
  - rewrite remote_thr_main_invalid by now left.
    apply nothing_delivered; [lia|reflexivity|reflexivity].
  - rewrite remote_thr_main_invalid by now right.
    apply nothing_delivered; [lia|reflexivity|reflexivity].
  - rewrite remote_thr_main_valid by assumption.
    destruct (remote_thr_session _ _ _ _) as [o w1] eqn:Hses.
    destruct (finish_keeps_progress (SizeT.of_int (atoi sarg)) (o, w1))
      as [Hd Hp].
    apply (progress_follows_same _ _ _ _ w1 Hd Hp).
    destruct (remote_thr_session_counts _ _ _ _ _ _ Hses)
      as (n & Hn & Hd1 & Hp1).
    apply (follows 1 n); [lia|exact Hd1|lia|exact Hp1].
Qed.

(** C9, as the programs have it. In every run, however it ends, the
    throughput receiver (cumulative counts from 2) and the throughput
    sender (counts from 1) print no progress line when
    [message_count <= 100]; when it is larger they print one exactly at the
    counts, up to the count the run reached, that are multiples of
    [message_count / 10], the tenth rounded down, each showing that count
    and, while [count * 100] fits an [int], the percentage rounded down.
    When 10 divides [message_count] those counts are exactly the ones at
    which a multiple of 10% is reached. In a run that exits with status 0
    the counts go up to [message_count]. *)
Theorem progress_lines_at_multiples_of_a_tenth e prog addr sarg carg w' :
  (run (local_thr_main [prog; addr; sarg; carg]) (init e) = (0, w') ->
   progress_as_scheduled 2 (atoi carg) w') /\
  (run (remote_thr_main [prog; addr; sarg; carg]) (init e) = (0, w') ->
   progress_as_scheduled 1 (atoi carg) w') /\
  progress_follows 2 (atoi carg) (SizeT.of_int (atoi sarg))
    (snd (run (local_thr_main [prog; addr; sarg; carg]) (init e))) /\
  progress_follows 1 (atoi carg) (SizeT.of_int (atoi sarg))
    (snd (run (remote_thr_main [prog; addr; sarg; carg]) (init e))).
Proof.
  split; [|split; [|split]].
  - intros Hrun. apply local_thr_success in Hrun as [Hc Hses].
    apply local_thr_session_progress in Hses.
    apply (scheduled 2 (Z.to_nat (atoi carg - 1))); [lia|lia|lia|exact Hses].
  - intros Hrun. apply remote_thr_success in Hrun as [Hc Hses].
    apply remote_thr_session_progress in Hses.
    apply (scheduled 1 (Z.to_nat (atoi carg - 0))); [lia|lia|lia|exact Hses].
  - apply local_thr_progress_follows.
  - apply remote_thr_progress_follows.
Qed.

Lemma progress_lines_at_multiples_of_a_tenth_witness :
  run (local_thr_main ["./local_thr"; "tcp://*:5556"; "2"; "110"])
      (init (steady (bytes "ab") 0 2000000))
  = (0, snd progress_demo) /\
  progress_as_scheduled 2 (atoi "110") (snd progress_demo) /\
  (fst stopped_demo = 1 /\
   delivered (SizeT.of_int (atoi "2")) (snd stopped_demo) = 149 /\
   shown_counts (snd stopped_demo) = [20; 40; 60; 80; 100; 120; 140]) /\
  progress_follows 2 (atoi "200") (SizeT.of_int (atoi "2"))
    (snd stopped_demo).
Proof.
  assert (H : run (local_thr_main ["./local_thr"; "tcp://*:5556"; "2"; "110"])
                  (init (steady (bytes "ab") 0 2000000))
              = (0, snd progress_demo)) by (vm_compute; reflexivity).
  split; [exact H|].
  split; [exact (proj1 (progress_lines_at_multiples_of_a_tenth _ _ _ _ _ _) H)|].
  split; [repeat split; vm_compute; reflexivity|].
  exact (proj1 (proj2 (proj2
    (progress_lines_at_multiples_of_a_tenth late_mismatch_peer
       "./local_thr" "tcp://*:5556" "2" "200" (snd stopped_demo))))).
Defined.

(** C9 fails as stated: with 105 messages the receiver prints its first
    progress line at count 10, showing 9%, where no multiple of 10% has been
    reached; the 10% mark is reached with the 11th message, and there it
    prints nothing. *)
Lemma progress_lines_miss_the_ten_percent_marks :
  fst (run (local_thr_main ["./local_thr"; "tcp://*:5556"; "2"; "105"])
           (init (steady (bytes "ab") 0 2000000))) = 0 /\
  shown_counts
    (snd (run (local_thr_main ["./local_thr"; "tcp://*:5556"; "2"; "105"])
              (init (steady (bytes "ab") 0 2000000))))
  = [10; 20; 30; 40; 50; 60; 70; 80; 90; 100] /\
  hd_error
    (progress_lines
       (snd (run (local_thr_main ["./local_thr"; "tcp://*:5556"; "2"; "105"])
                 (init (steady (bytes "ab") 0 2000000)))))
  = Some [Str "Progress: "; Num 9; Str "% ("; Num 10; Str "/"; Num 105;
          Str ")\n"] /\
  crosses_tenth 105 10 = false /\
  crosses_tenth 105 11 = true.
Proof.
  repeat split; vm_compute; reflexivity.
Qed.

(** * The rest of the four programs *)

(** ** Actions and diagnostics, turn by turn *)

Lemma actions_record ev w :
  actions (record ev w) = actions w ++ (if is_action ev then [ev] else []).
Proof.
  unfold actions, history. cbn [record log rev].
  rewrite filter_app. cbn [filter]. now destruct (is_action ev).
Qed.

Lemma stderr_lines_record ev w :
  stderr_lines (record ev w) = stderr_lines w ++ stderr_of ev.
Proof.
  unfold stderr_lines, history. cbn [record log rev].
  rewrite flat_map_app. cbn. now rewrite app_nil_r.
Qed.

Lemma actions_log w1 w2 : log w1 = log w2 -> actions w1 = actions w2.
Proof. unfold actions, history. now intros ->. Qed.

Lemma stderr_lines_log w1 w2 :
  log w1 = log w2 -> stderr_lines w1 = stderr_lines w2.
Proof. unfold stderr_lines, history. now intros ->. Qed.

Lemma orderly_loop P body (Hbody : orderly_turn P body) fuel i w o w' :
  for_loop fuel i body w = (o, w') ->
  match o with
  | Normal _ =>
      (exists segs, List.length segs = fuel /\ Forall P segs /\
                    actions w' = actions w ++ List.concat segs) /\
      stderr_lines w' = stderr_lines w
  | Returned c => c = 1 /\ exists d l, log w' = EStderr d :: l
  | Thrown _ => stderr_lines w' = stderr_lines w
  end.
Proof.
  intros Hrun.
  pose (Inv := fun (j : Z) (w1 : world) =>
    (exists segs, Z.of_nat (List.length segs) = j - i /\ Forall P segs /\
                  actions w1 = actions w ++ List.concat segs) /\
    stderr_lines w1 = stderr_lines w).
  pose (Post := fun (o1 : outcome unit) (w1 : world) =>
    match o1 with
    | Normal _ => True
    | Returned c => c = 1 /\ exists d l, log w1 = EStderr d :: l
    | Thrown _ => stderr_lines w1 = stderr_lines w
    end).
  assert (Hstart : Inv i w).
  { split; [|reflexivity]. exists []. cbn.
    split; [lia|]. split; [constructor|now rewrite app_nil_r]. }
  assert (Hstep : forall j w1 o1 w2, Inv j w1 -> body j w1 = (o1, w2) ->
            match o1 with Normal _ => Inv (j + 1) w2 | _ => Post o1 w2 end).
  { intros j w1 o1 w2 [(segs & Hlen & Hall & Hact) Herr] Hb.
    pose proof (Hbody _ _ _ _ Hb) as Hturn.
    destruct o1 as [[]|c1|e1]; unfold Post.
    - destruct Hturn as [(seg & Hseg & Hact2) Herr2]. split; [|congruence].
      exists (segs ++ [seg]). split; [rewrite length_app; cbn; lia|].
      split; [apply Forall_app; split; [assumption|now constructor]|].
      rewrite Hact2, Hact, concat_app. cbn.
      now rewrite app_nil_r, app_assoc.
    - exact Hturn.
    - congruence. }
  pose proof (for_loop_rule body Inv Post Hstep fuel i w o w' Hstart Hrun) as H.
  destruct o as [[]|c1|e1]; try exact H.
  destruct H as [(segs & Hlen & Hall & Hact) Herr]. split; [|exact Herr].
  exists segs. split; [lia|]. now split.
Qed.

Lemma actions_grow evs w w' :
  log w' = evs ++ log w ->
  actions w' = actions w ++ filter is_action (rev evs).
Proof.
  unfold actions, history. intros ->. now rewrite rev_app_distr, filter_app.
Qed.

Lemma stderr_lines_grow evs w w' :
  log w' = evs ++ log w ->
  stderr_lines w' = stderr_lines w ++ flat_map stderr_of (rev evs).
Proof.
  unfold stderr_lines, history. intros ->.
  now rewrite rev_app_distr, flat_map_app.
Qed.

Lemma progress_indicator_silent c i w :
  exists w', progress_indicator c i w = (Normal tt, w') /\
             actions w' = actions w /\ stderr_lines w' = stderr_lines w.
Proof.
  unfold progress_indicator. destruct (progress_due c i).
  - eexists. split; [reflexivity|]. unfold cout, emit.
    rewrite actions_record, stderr_lines_record. cbn.
    now rewrite !app_nil_r.
  - exists w. now repeat split.
Qed.

Lemma local_lat_echo_orderly s :
  orderly_turn
    (fun seg => exists m, size m = s /\
                          seg = [ERecv (RecvMsg m); ESend m SendOk])
    (local_lat_echo s).
Proof.
  intros i w o w'.
  unfold local_lat_echo, bind, socket_recv, socket_send, cerr, emit, return_,
    ret.
  destruct (recv_at (env w) (n_recv w)) as [m| |] eqn:Hr; cbn.
  - destruct (size m =? s) eqn:Hsz; cbn.
    + apply Z.eqb_eq in Hsz.
      destruct (send_at (env w) (n_send w)) eqn:Hsd; cbn; done_run.
      * split.
        -- exists [ERecv (RecvMsg m); ESend m SendOk].
           split; [now exists m|].
           now rewrite (actions_grow [ESend m SendOk; ERecv (RecvMsg m)] w).
        -- rewrite (stderr_lines_grow [ESend m SendOk; ERecv (RecvMsg m)] w)
             by reflexivity.
           cbn. now rewrite app_nil_r.
      * split; [reflexivity|]. eexists _, _. reflexivity.
      * rewrite (stderr_lines_grow [ESend m SendThrow; ERecv (RecvMsg m)] w)
          by reflexivity.
        cbn. now rewrite app_nil_r.
    + done_run. split; [reflexivity|]. eexists _, _. reflexivity.
  - done_run. split; [reflexivity|]. eexists _, _. reflexivity.
  - done_run. rewrite (stderr_lines_grow [ERecv RecvThrow] w) by reflexivity.
    cbn. now rewrite app_nil_r.
Qed.

Lemma remote_lat_roundtrip_orderly buf s :
  orderly_turn
    (fun seg => exists m, size m = s /\
                          seg = [ESend (message_of buf s) SendOk;
                                 ERecv (RecvMsg m)])
    (remote_lat_roundtrip buf s).
Proof.
  intros i w o w'.
  unfold remote_lat_roundtrip, bind, socket_recv, socket_send, cerr, emit,
    return_, ret.
  destruct (send_at (env w) (n_send w)) eqn:Hsd; cbn.
  - destruct (recv_at (env w) (n_recv w)) as [m| |] eqn:Hr; cbn.
    + destruct (size m =? s) eqn:Hsz; cbn; done_run.
      * apply Z.eqb_eq in Hsz. split.
        -- eexists. split; [now exists m|].
           now rewrite (actions_grow [ERecv (RecvMsg m);
                                      ESend (message_of buf s) SendOk] w).
        -- rewrite (stderr_lines_grow [ERecv (RecvMsg m);
                                       ESend (message_of buf s) SendOk] w)
             by reflexivity.
           cbn. now rewrite app_nil_r.
      * split; [reflexivity|]. eexists _, _. reflexivity.
    + done_run. split; [reflexivity|]. eexists _, _. reflexivity.
    + done_run.
      rewrite (stderr_lines_grow [ERecv RecvThrow;
                                  ESend (message_of buf s) SendOk] w)
        by reflexivity.
      cbn. now rewrite app_nil_r.
  - done_run. split; [reflexivity|]. eexists _, _. reflexivity.
  - done_run.
    rewrite (stderr_lines_grow [ESend (message_of buf s) SendThrow] w)
      by reflexivity.
    cbn. now rewrite app_nil_r.
Qed.

Lemma local_thr_receive_orderly s c :
  orderly_turn
    (fun seg => exists m, size m = s /\ seg = [ERecv (RecvMsg m)])
    (local_thr_receive s c).
Proof.
  intros i w o w'.
  unfold local_thr_receive, bind, socket_recv, cerr, emit, return_, ret.
  destruct (recv_at (env w) (n_recv w)) as [m| |] eqn:Hr; cbn.
  - destruct (size m =? s) eqn:Hsz; cbn.
    + apply Z.eqb_eq in Hsz.
      match goal with |- progress_indicator c i ?w0 = _ -> _ =>
        destruct (progress_indicator_silent c i w0) as (w2 & -> & Ha & He)
      end.
      done_run. rewrite Ha, He. split.
      * eexists. split; [now exists m|].
        now rewrite (actions_grow [ERecv (RecvMsg m)] w).
      * rewrite (stderr_lines_grow [ERecv (RecvMsg m)] w) by reflexivity.
        cbn. now rewrite app_nil_r.
    + done_run. split; [reflexivity|]. eexists _, _. reflexivity.
  - done_run. split; [reflexivity|]. eexists _, _. reflexivity.
  - done_run. rewrite (stderr_lines_grow [ERecv RecvThrow] w) by reflexivity.
    cbn. now rewrite app_nil_r.
Qed.

Lemma remote_thr_send_orderly buf s c :
  orderly_turn (fun seg => seg = [ESend (message_of buf s) SendOk])
    (remote_thr_send buf s c).
Proof.
  intros i w o w'.
  unfold remote_thr_send, bind, socket_send, cerr, emit, return_, ret.
  destruct (send_at (env w) (n_send w)) eqn:Hsd; cbn.
  - match goal with |- progress_indicator c i ?w0 = _ -> _ =>
      destruct (progress_indicator_silent c i w0) as (w2 & -> & Ha & He)
    end.
    done_run. rewrite Ha, He. split.
    + eexists. split; [reflexivity|].
      now rewrite (actions_grow [ESend (message_of buf s) SendOk] w).
    + rewrite (stderr_lines_grow [ESend (message_of buf s) SendOk] w)
        by reflexivity.
      cbn. now rewrite app_nil_r.
  - done_run. split; [reflexivity|]. eexists _, _. reflexivity.
  - done_run.
    rewrite (stderr_lines_grow [ESend (message_of buf s) SendThrow] w)
      by reflexivity.
    cbn. now rewrite app_nil_r.
Qed.

Lemma message_of_buffer c s : message_of (repeat c (Z.to_nat s)) s = repeat c (Z.to_nat s).
Proof.
  unfold message_of.
  rewrite <- (repeat_length c (Z.to_nat s)) at 1. apply firstn_all.
Qed.

Lemma concat_constant {A} (x : list A) segs :
  Forall (fun seg => seg = x) segs ->
  List.concat segs = List.concat (repeat x (List.length segs)).
Proof.
  induction 1 as [|seg segs -> _ IH]; [reflexivity|].
  cbn. now rewrite IH.
Qed.

Lemma concat_singletons {A} (x : A) n :
  List.concat (repeat [x] n) = repeat x n.
Proof. induction n as [|n IH]; [reflexivity|]. cbn. now rewrite IH. Qed.

Lemma concat_segments {A B} (g : A -> list B) (Q : A -> Prop) segs :
  Forall (fun seg => exists m, Q m /\ seg = g m) segs ->
  exists ms, List.length ms = List.length segs /\ Forall Q ms /\
             List.concat segs = flat_map g ms.
Proof.
  induction 1 as [|seg segs (m & Hm & ->) _ (ms & Hlen & Hall & Heq)].
  - now exists [].
  - exists (m :: ms). cbn. rewrite Hlen, Heq. repeat split. now constructor.
Qed.

Lemma remote_thr_session_orderly addr s c e o w' :
  remote_thr_session addr s c (init e) = (o, w') ->
  match o with
  | Normal _ =>
      actions w' = remote_thr_actions addr s c /\ stderr_lines w' = []
  | Returned c1 => c1 = 1 /\ exists d l, log w' = EStderr d :: l
  | Thrown _ => stderr_lines w' = []
  end.
Proof.
  unfold remote_thr_session, for_range.
  setup_step; [|done_run; reflexivity].
  setup_step; [|done_run; reflexivity].
  setup_step; [|done_run; reflexivity].
  do 4 emit_step.
  vector_step; [done_run; reflexivity|].
  emit_step. unfold bind at 1.
  match goal with
  | |- context [for_loop ?f ?i ?b ?w0] =>
      destruct (for_loop f i b w0) as [o1 w1] eqn:Hloop
  end.
  apply (orderly_loop _ _ (remote_thr_send_orderly _ s c)) in Hloop.
  destruct o1 as [[]|c1|e1];
    [ | done_run; exact Hloop | done_run; exact Hloop ].
  destruct Hloop as [(segs & Hlen & Hall & Hact) Herr].
  do 2 emit_step. unfold sleep_for, emit. done_run.
  rewrite !actions_record, !stderr_lines_record. cbn [is_action stderr_of].
  rewrite !app_nil_r, Hact, Herr. split; [|reflexivity].
  rewrite (concat_constant _ _ Hall), concat_singletons, Hlen.
  rewrite message_of_buffer, Z.sub_0_r. unfold remote_thr_actions.
  cbn [actions history log rev filter is_action app].
  now rewrite <- app_assoc.
Qed.

Lemma remote_lat_session_orderly addr s n e o w' :
  remote_lat_session addr s n (init e) = (o, w') ->
  match o with
  | Normal _ =>
      (exists s0 r0 replies,
         List.length replies = Z.to_nat n /\
         Forall (fun m => size m = s) replies /\
         actions w' = remote_lat_actions addr s s0 r0 replies) /\
      stderr_lines w' = []
  | Returned c1 => c1 = 1 /\ exists d l, log w' = EStderr d :: l
  | Thrown _ => stderr_lines w' = []
  end.
Proof.
  unfold remote_lat_session, for_range.
  setup_step; [|done_run; reflexivity].
  setup_step; [|done_run; reflexivity].
  setup_step; [|done_run; reflexivity].
  do 3 emit_step.
  vector_step; [done_run; reflexivity|].
  vector_step; [done_run; reflexivity|].
  unfold bind at 1. unfold socket_send at 1.
  cbn [env record n_recv n_send n_now log init].
  remember (send_at e 0%nat) as s0 eqn:Hs0.
  destruct s0; [ | | done_run; reflexivity].
  all: unfold bind at 1; unfold socket_recv at 1;
    cbn [env record n_recv n_send n_now log init];
    remember (recv_at e 0%nat) as r0 eqn:Hr0;
    destruct r0 as [m0| |]; [ | | done_run; reflexivity].
  all: clock_step; unfold bind at 1;
    match goal with
    | |- context [for_loop ?f ?i ?b ?w0] =>
        destruct (for_loop f i b w0) as [o1 w1] eqn:Hloop
    end;
    apply (orderly_loop _ _ (remote_lat_roundtrip_orderly _ s)) in Hloop;
    (destruct o1 as [[]|c1|e1];
     [ | done_run; exact Hloop | done_run; exact Hloop ]);
    destruct Hloop as [(segs & Hlen & Hall & Hact) Herr];
    destruct (concat_segments _ _ _ Hall) as (ms & Hms & Hsz & Hcat);
    clock_step; unfold remote_lat_report; do 3 emit_step; unfold cout, emit;
    done_run;
    rewrite !actions_record, !stderr_lines_record; cbn [is_action stderr_of];
    rewrite !app_nil_r;
    match goal with
    | |- context [actions ?w2] =>
        rewrite (actions_log w2 w1) by reflexivity
    end;
    match goal with
    | |- context [stderr_lines ?w2] =>
        rewrite (stderr_lines_log w2 w1) by reflexivity
    end;
    rewrite Hact, Herr, Hcat, message_of_buffer;
    (split; [|reflexivity]);
    eexists _, _, ms;
    (split; [rewrite Hms, Hlen; f_equal; lia|]);
    (split; [exact Hsz|]);
    reflexivity.
Qed.

Lemma flat_map_singleton {A B} (f : A -> B) l :
  flat_map (fun x => [f x]) l = map f l.
Proof. induction l as [|x l IH]; [reflexivity|]. cbn. now rewrite IH. Qed.

Lemma local_thr_session_orderly addr s c e o w' :
  0 < c ->
  local_thr_session addr s c (init e) = (o, w') ->
  match o with
  | Normal _ =>
      (exists msgs,
         List.length msgs = Z.to_nat c /\
         Forall (fun m => size m = s) msgs /\
         actions w' = local_thr_actions addr msgs) /\
      stderr_lines w' = []
  | Returned c1 => c1 = 1 /\ exists d l, log w' = EStderr d :: l
  | Thrown _ => stderr_lines w' = []
  end.
Proof.
  intros Hc. unfold local_thr_session, for_range.
  setup_step; [|done_run; reflexivity].
  setup_step; [|done_run; reflexivity].
  setup_step; [|done_run; reflexivity].
  do 4 emit_step.
  unfold bind at 1. unfold local_thr_first, bind at 1, socket_recv at 1.
  cbn [env record n_recv n_send n_now log init].
  destruct (recv_at e 0%nat) as [m0| |];
    [ | unfold bind at 1, cerr, emit, return_; done_run;
        split; [reflexivity|eexists _, _; reflexivity]
      | done_run; reflexivity ].
  destruct (size m0 =? s) eqn:Hm0; cbn [negb];
    [ | unfold bind at 1, cerr, emit, return_; done_run;
        split; [reflexivity|eexists _, _; reflexivity] ].
  apply Z.eqb_eq in Hm0.
  unfold ret at 1. emit_step. clock_step. unfold bind at 1.
  match goal with
  | |- context [for_loop ?f ?i ?b ?w0] =>
      destruct (for_loop f i b w0) as [o1 w1] eqn:Hloop
  end.
  apply (orderly_loop _ _ (local_thr_receive_orderly s c)) in Hloop.
  destruct o1 as [[]|c1|e1];
    [ | done_run; exact Hloop | done_run; exact Hloop ].
  destruct Hloop as [(segs & Hlen & Hall & Hact) Herr].
  destruct (concat_segments _ _ _ Hall) as (ms & Hms & Hsz & Hcat).
  clock_step. unfold local_thr_report. do 6 emit_step. unfold cout, emit.
  done_run.
  rewrite !actions_record, !stderr_lines_record. cbn [is_action stderr_of].
  rewrite !app_nil_r.
  match goal with
  | |- context [actions ?w2] => rewrite (actions_log w2 w1) by reflexivity
  end.
  match goal with
  | |- context [stderr_lines ?w2] =>
      rewrite (stderr_lines_log w2 w1) by reflexivity
  end.
  rewrite Hact, Herr, Hcat, flat_map_singleton. split; [|reflexivity].
  exists (m0 :: ms). split; [cbn [List.length]; rewrite Hms, Hlen; lia|].
  split; [now constructor|reflexivity].
Qed.

Lemma local_lat_session_orderly addr s n e o w' :
  local_lat_session addr s n (init e) = (o, w') ->
  match o with
  | Normal _ => stderr_lines w' = []
  | Returned c1 => c1 = 1 /\ exists d l, log w' = EStderr d :: l
  | Thrown _ => stderr_lines w' = []
  end.
Proof.
  unfold local_lat_session, for_range.
  setup_step; [|done_run; reflexivity].
  setup_step; [|done_run; reflexivity].
  setup_step; [|done_run; reflexivity].
  do 4 emit_step.
  unfold bind at 1. unfold socket_recv at 1.
  cbn [env record n_recv n_send n_now log init].
  destruct (recv_at e 0%nat) as [m0| |]; [ | | done_run; reflexivity].
  all: unfold bind at 1; unfold socket_send at 1;
    cbn [env record n_recv n_send n_now log init];
    destruct (send_at e 0%nat); [ | | done_run; reflexivity].
  all: unfold bind at 1;
    match goal with
    | |- context [for_loop ?f ?i ?b ?w0] =>
        destruct (for_loop f i b w0) as [o1 w1] eqn:Hloop
    end;
    apply (orderly_loop _ _ (local_lat_echo_orderly s)) in Hloop;
    (destruct o1 as [[]|c1|e1];
     [ | done_run; exact Hloop | done_run; exact Hloop ]);
    destruct Hloop as [_ Herr];
    unfold cout, emit; done_run;
    rewrite stderr_lines_record, Herr; reflexivity.
Qed.

(** ** Status and diagnostics *)

Ltac each_program :=
  unfold programs; repeat apply Forall_cons; [ | | | | apply Forall_nil ];
  cbn [fst snd].

Lemma argv_cases (argv : list string) :
  List.length argv <> 4%nat \/ exists p a s c, argv = [p; a; s; c].
Proof.
  destruct argv as [|p [|a [|s [|c [|x argv]]]]]; cbn;
    try (left; lia).
  right. now exists p, a, s, c.
Qed.

Lemma finish_accounted (r : outcome unit * world) :
  match fst r with
  | Normal _ => stderr_lines (snd r) = []
  | Returned c => c = 1 /\ exists d l, log (snd r) = EStderr d :: l
  | Thrown _ => True
  end ->
  accounted (finish r).
Proof.
  destruct r as [[[]|c|[]] w]; cbn [fst snd finish]; intros H.
  - left. now split.
  - right. destruct H as [-> H]. now split.
  - right. split; [reflexivity|]. eexists _, _. reflexivity.
  - right. split; [reflexivity|]. eexists _, _. reflexivity.
Qed.

Lemma wrong_count_accounted e argv :
  List.length argv <> 4%nat ->
  Forall (fun p => accounted (run (fst p argv) (init e))) programs.
Proof.
  intros Hlen.
  assert (Hargc : (argc argv =? 4) = false)
    by (apply Z.eqb_neq; unfold argc; lia).
  each_program;
    unfold local_lat_main, remote_lat_main, local_thr_main, remote_thr_main;
    rewrite Hargc; right; (split; [reflexivity|]); eexists _, _; reflexivity.
Qed.

Lemma programs_accounted e argv :
  Forall (fun p => accounted (run (fst p argv) (init e))) programs.
Proof.
  destruct (argv_cases argv) as [Hlen|(prog & addr & sarg & carg & ->)];
    [now apply wrong_count_accounted|].
  assert (Hbad : forall w d, accounted (1, record (EStderr d) w)).
  { intros w d. right. split; [reflexivity|]. eexists _, _. reflexivity. }
  destruct (Z.le_gt_cases (SizeT.of_int (atoi sarg)) 0) as [Hs|Hs];
    [|destruct (Z.le_gt_cases (atoi carg) 0) as [Hc|Hc]].
  - each_program;
      first [ rewrite local_lat_main_invalid by now left
            | rewrite remote_lat_main_invalid by now left
            | rewrite local_thr_main_invalid by now left
            | rewrite remote_thr_main_invalid by now left ];
      apply Hbad.
  - each_program;
      first [ rewrite local_lat_main_invalid by now right
            | rewrite remote_lat_main_invalid by now right
            | rewrite local_thr_main_invalid by now right
            | rewrite remote_thr_main_invalid by now right ];
      apply Hbad.
  - each_program.
    + rewrite local_lat_main_valid by assumption. apply finish_accounted.
      destruct (local_lat_session _ _ _ _) as [o w1] eqn:Hses.
      apply local_lat_session_orderly in Hses.
      destruct o; cbn [fst snd]; auto.
    + rewrite remote_lat_main_valid by assumption. apply finish_accounted.
      destruct (remote_lat_session _ _ _ _) as [o w1] eqn:Hses.
      apply remote_lat_session_orderly in Hses.
      destruct o; cbn [fst snd]; auto. apply Hses.
    + rewrite local_thr_main_valid by assumption. apply finish_accounted.
      destruct (local_thr_session _ _ _ _) as [o w1] eqn:Hses.
      apply local_thr_session_orderly in Hses; [|assumption].
      destruct o; cbn [fst snd]; auto. apply Hses.
    + rewrite remote_thr_main_valid by assumption. apply finish_accounted.
      destruct (remote_thr_session _ _ _ _) as [o w1] eqn:Hses.
      apply remote_thr_session_orderly in Hses.
      destruct o; cbn [fst snd]; auto. apply Hses.
Qed.

Lemma remote_lat_success e prog addr sarg carg w' :
  run (remote_lat_main [prog; addr; sarg; carg]) (init e) = (0, w') ->
  0 < atoi carg /\
  remote_lat_session addr (SizeT.of_int (atoi sarg)) (atoi carg) (init e)
  = (Normal tt, w').
Proof.
  intros Hrun.
  destruct (Z.le_gt_cases (SizeT.of_int (atoi sarg)) 0) as [Hs|Hs].
  { rewrite remote_lat_main_invalid in Hrun by now left. discriminate. }
  destruct (Z.le_gt_cases (atoi carg) 0) as [Hc|Hc].
  { rewrite remote_lat_main_invalid in Hrun by now right. discriminate. }
  split; [exact Hc|].
  rewrite remote_lat_main_valid in Hrun by assumption.
  destruct (remote_lat_session _ _ _ _) as [o w1] eqn:Hses.
  apply remote_lat_session_report in Hses.
  destruct o as [[]|c|[]]; cbn in Hrun.
  - now injection Hrun as <-.
  - injection Hrun as -> <-. discriminate.
  - discriminate.
  - discriminate.
Qed.

Lemma size_request s : 0 <= s -> size (request s) = s.
Proof.
  intros Hs. unfold size, request. rewrite repeat_length. lia.
Qed.

Lemma size_t_nonneg z : 0 <= SizeT.of_int z.
Proof.
  unfold SizeT.of_int, SizeT.modulus.
  pose proof (Z.mod_pos_bound z (2 ^ 64)). lia.
Qed.

(** X1. A run of the throughput sender that exits with status 0 did, apart
    from its output, exactly this: context, PUSH socket, connect, a pause of
    100 ms, [message_count] sends each accepted and each of [message_size]
    bytes ['X'], a second pause of 100 ms. It never receives. *)
Theorem remote_thr_sends_every_message e prog addr sarg carg w' :
  run (remote_thr_main [prog; addr; sarg; carg]) (init e) = (0, w') ->
  actions w'
  = remote_thr_actions addr (SizeT.of_int (atoi sarg)) (atoi carg) /\
  size (request (SizeT.of_int (atoi sarg))) = SizeT.of_int (atoi sarg) /\
  0 < atoi carg.
Proof.
  intros Hrun. apply remote_thr_success in Hrun as [Hc Hses].
  apply remote_thr_session_orderly in Hses. destruct Hses as [Hact _].
  split; [exact Hact|]. split; [apply size_request, size_t_nonneg|exact Hc].
Qed.

(** X2. A run of the latency client that exits with status 0 did, apart
    from its output, exactly this: context, REQ socket, connect, the warm-up
    send and receive, then [roundtrip_count] times a send of [message_size]
    bytes ['X'] followed by the receive of a reply of [message_size]
    bytes. *)
Theorem remote_lat_requests_then_replies e prog addr sarg carg w' :
  run (remote_lat_main [prog; addr; sarg; carg]) (init e) = (0, w') ->
  exists s0 r0 replies,
    Z.of_nat (List.length replies) = atoi carg /\
    Forall (fun m => size m = SizeT.of_int (atoi sarg)) replies /\
    actions w'
    = remote_lat_actions addr (SizeT.of_int (atoi sarg)) s0 r0 replies.
Proof.
  intros Hrun. apply remote_lat_success in Hrun as [Hc Hses].
  apply remote_lat_session_orderly in Hses.
  destruct Hses as [(s0 & r0 & replies & Hlen & Hall & Hact) _].
  exists s0, r0, replies. split; [lia|]. now split.
Qed.

(** X3. A run of the throughput receiver that exits with status 0 did,
    apart from its output, exactly this: context, PULL socket, bind, and
    [message_count] receives, each of a message of [message_size] bytes. It
    never sends. *)
Theorem local_thr_receives_every_message e prog addr sarg carg w' :
  run (local_thr_main [prog; addr; sarg; carg]) (init e) = (0, w') ->
  exists msgs,
    Z.of_nat (List.length msgs) = atoi carg /\
    Forall (fun m => size m = SizeT.of_int (atoi sarg)) msgs /\
    actions w' = local_thr_actions addr msgs.
Proof.
  intros Hrun. apply local_thr_success in Hrun as [Hc Hses].
  apply local_thr_session_orderly in Hses; [|exact Hc].
  destruct Hses as [(msgs & Hlen & Hall & Hact) _].
  exists msgs. split; [lia|]. now split.
Qed.

Ltac setup_fails attach :=
  unfold bind at 1, context_new, guarded; cbn [env init record];
  destruct (ctx_ok _);
  [ unfold bind at 1, socket_new, guarded; cbn [env init record];
    destruct (socket_ok _);
    [ unfold bind at 1, attach, guarded; cbn [env init record];
      destruct (attach_ok _);
      [ | eexists; split; [reflexivity|];
          split; [repeat constructor|reflexivity] ]
    | eexists; split; [reflexivity|];
      split; [repeat constructor|reflexivity] ]
  | eexists; split; [reflexivity|];
    split; [repeat constructor|reflexivity] ].

Lemma local_lat_setup_failure addr s n e :
  ~ set_up e ->
  exists l, local_lat_session addr s n (init e)
            = (Thrown ZmqError, mkWorld e 0 0 0 l) /\
            Forall (fun ev => is_exchange ev = false) l /\
            flat_map stderr_of (rev l) = [].
Proof.
  unfold set_up. intros Hno. unfold local_lat_session.
  setup_fails socket_bind. elim Hno. now repeat split.
Qed.

Lemma remote_lat_setup_failure addr s n e :
  ~ set_up e ->
  exists l, remote_lat_session addr s n (init e)
            = (Thrown ZmqError, mkWorld e 0 0 0 l) /\
            Forall (fun ev => is_exchange ev = false) l /\
            flat_map stderr_of (rev l) = [].
Proof.
  unfold set_up. intros Hno. unfold remote_lat_session.
  setup_fails socket_connect. elim Hno. now repeat split.
Qed.

Lemma local_thr_setup_failure addr s n e :
  ~ set_up e ->
  exists l, local_thr_session addr s n (init e)
            = (Thrown ZmqError, mkWorld e 0 0 0 l) /\
            Forall (fun ev => is_exchange ev = false) l /\
            flat_map stderr_of (rev l) = [].
Proof.
  unfold set_up. intros Hno. unfold local_thr_session.
  setup_fails socket_bind. elim Hno. now repeat split.
Qed.

Lemma remote_thr_setup_failure addr s n e :
  ~ set_up e ->
  exists l, remote_thr_session addr s n (init e)
            = (Thrown ZmqError, mkWorld e 0 0 0 l) /\
            Forall (fun ev => is_exchange ev = false) l /\
            flat_map stderr_of (rev l) = [].
Proof.
  unfold set_up. intros Hno. unfold remote_thr_session.
  setup_fails socket_connect. elim Hno. now repeat split.
Qed.

Lemma thrown_at_setup e l :
  Forall (fun ev => is_exchange ev = false) l ->
  flat_map stderr_of (rev l) = [] ->
  failed_at_setup (finish (Thrown ZmqError, mkWorld e 0 0 0 l)).
Proof.
  intros Hl Herr. unfold failed_at_setup. cbn [finish fst snd].
  split; [reflexivity|].
  unfold exchanges, stderr_lines, history. cbn [record log rev].
  rewrite filter_app, flat_map_app, Herr. cbn.
  rewrite app_nil_r. split; [|reflexivity].
  apply filter_none. now apply Forall_rev.
Qed.

(** X5. With valid arguments, when the context, the socket, or the bind or
    connect fails, each of the four programs exits with status 1 without
    having received or sent anything, and the only line on standard error
    is the one of the [zmq::error_t] handler. *)
Theorem setup_failure_is_fatal e prog addr sarg carg :
  0 < SizeT.of_int (atoi sarg) -> 0 < atoi carg -> ~ set_up e ->
  Forall (fun p =>
            failed_at_setup (run (fst p [prog; addr; sarg; carg]) (init e)))
         programs.
Proof.
  intros Hs Hc Hno. each_program.
  - rewrite local_lat_main_valid by assumption.
    destruct (local_lat_setup_failure addr (SizeT.of_int (atoi sarg))
                (atoi carg) e Hno) as (l & -> & Hl & Herr).
    now apply thrown_at_setup.
  - rewrite remote_lat_main_valid by assumption.
    destruct (remote_lat_setup_failure addr (SizeT.of_int (atoi sarg))
                (atoi carg) e Hno) as (l & -> & Hl & Herr).
    now apply thrown_at_setup.
  - rewrite local_thr_main_valid by assumption.
    destruct (local_thr_setup_failure addr (SizeT.of_int (atoi sarg))
                (atoi carg) e Hno) as (l & -> & Hl & Herr).
    now apply thrown_at_setup.
  - rewrite remote_thr_main_valid by assumption.
    destruct (remote_thr_setup_failure addr (SizeT.of_int (atoi sarg))
                (atoi carg) e Hno) as (l & -> & Hl & Herr).
    now apply thrown_at_setup.
Qed.

(** *** A buffer that cannot be allocated *)

Lemma remote_lat_buffer_too_large addr s n e :
  set_up e -> SizeT.vector_max_size < s ->
  exists w', remote_lat_session addr s n (init e) = (Thrown StdException, w')
             /\ actions w' = [EContext true; ESocket REQ true;
                              EConnect addr true]
             /\ stderr_lines w' = [].
Proof.
  intros (Hctx & Hsock & Hatt) Hs. unfold remote_lat_session.
  unfold bind at 1, context_new, guarded; cbn [env init record]; rewrite Hctx.
  unfold bind at 1, socket_new, guarded; cbn [env init record]; rewrite Hsock.
  unfold bind at 1, socket_connect, guarded; cbn [env init record];
    rewrite Hatt.
  do 3 emit_step.
  unfold bind at 1, vector_new at 1.
  replace (s >? SizeT.vector_max_size) with true
    by (symmetry; rewrite Z.gtb_ltb; now apply Z.ltb_lt).
  unfold throw. eexists. split; [reflexivity|]. split; reflexivity.
Qed.

Lemma remote_thr_buffer_too_large addr s n e :
  set_up e -> SizeT.vector_max_size < s ->
  exists w', remote_thr_session addr s n (init e) = (Thrown StdException, w')
             /\ actions w' = [EContext true; ESocket PUSH true;
                              EConnect addr true; ESleep 100]
             /\ stderr_lines w' = [].
Proof.
  intros (Hctx & Hsock & Hatt) Hs. unfold remote_thr_session.
  unfold bind at 1, context_new, guarded; cbn [env init record]; rewrite Hctx.
  unfold bind at 1, socket_new, guarded; cbn [env init record]; rewrite Hsock.
  unfold bind at 1, socket_connect, guarded; cbn [env init record];
    rewrite Hatt.
  do 4 emit_step.
  unfold bind at 1, vector_new at 1.
  replace (s >? SizeT.vector_max_size) with true
    by (symmetry; rewrite Z.gtb_ltb; now apply Z.ltb_lt).
  unfold throw. eexists. split; [reflexivity|]. split; reflexivity.
Qed.

(** X6. Given a negative [message_size] and a transport that sets up, the
    latency client and the throughput sender connect and then fail to
    allocate their buffer: the [std::exception] handler reports it, the
    status is 1, and nothing was sent or received (the sender has made its
    first pause). *)
Theorem negative_size_stops_the_active_programs e prog addr sarg carg :
  atoi sarg < 0 -> 0 < atoi carg -> set_up e ->
  (fst (run (remote_lat_main [prog; addr; sarg; carg]) (init e)) = 1 /\
   actions (snd (run (remote_lat_main [prog; addr; sarg; carg]) (init e)))
   = [EContext true; ESocket REQ true; EConnect addr true] /\
   stderr_lines (snd (run (remote_lat_main [prog; addr; sarg; carg])
                          (init e)))
   = [std_error_line]) /\
  (fst (run (remote_thr_main [prog; addr; sarg; carg]) (init e)) = 1 /\
   actions (snd (run (remote_thr_main [prog; addr; sarg; carg]) (init e)))
   = [EContext true; ESocket PUSH true; EConnect addr true; ESleep 100] /\
   stderr_lines (snd (run (remote_thr_main [prog; addr; sarg; carg])
                          (init e)))
   = [std_error_line]).
Proof.
  intros Hneg Hc Hup.
  destruct (negative_size_wraps sarg Hneg) as [_ Hbig].
  assert (Hs : 0 < SizeT.of_int (atoi sarg)) by lia.
  assert (Hmax : SizeT.vector_max_size < SizeT.of_int (atoi sarg))
    by (unfold SizeT.vector_max_size; lia).
  split.
  - rewrite remote_lat_main_valid by assumption.
    destruct (remote_lat_buffer_too_large addr _ (atoi carg) e Hup Hmax)
      as (w' & -> & Hact & Herr).
    cbn [finish fst snd].
    rewrite actions_record, stderr_lines_record, Hact, Herr.
    repeat split.
  - rewrite remote_thr_main_valid by assumption.
    destruct (remote_thr_buffer_too_large addr _ (atoi carg) e Hup Hmax)
      as (w' & -> & Hact & Herr).
    cbn [finish fst snd].
    rewrite actions_record, stderr_lines_record, Hact, Herr.
    repeat split.
Qed.

(** *** The throughput pair with a peer that plays along *)

Lemma local_thr_loop_completes s c fuel : forall i w,
  (forall k, exists m, recv_at (env w) k = RecvMsg m /\ size m = s) ->
  exists w', for_loop fuel i (local_thr_receive s c) w = (Normal tt, w').
Proof.
  induction fuel as [|fuel IH]; intros i w Hrecv.
  - now exists w.
  - cbn [for_loop]. unfold bind at 1.
    unfold local_thr_receive at 1, bind, socket_recv.
    destruct (Hrecv (n_recv w)) as (m & -> & Hm).
    rewrite Hm, Z.eqb_refl. cbn [negb].
    match goal with |- context [progress_indicator c i ?w0] =>
      destruct (progress_indicator_silent c i w0) as (w2 & Hp & _);
      pose proof (f_equal snd Hp) as Henv; rewrite Hp
    end.
    apply IH.
    replace (env w2) with (env w); [exact Hrecv|].
    cbn [snd] in Henv. rewrite <- Henv. unfold progress_indicator.
    now destruct (progress_due c i).
Qed.

Lemma remote_thr_loop_completes buf s c fuel : forall i w,
  (forall k, send_at (env w) k = SendOk) ->
  exists w', for_loop fuel i (remote_thr_send buf s c) w = (Normal tt, w').
Proof.
  induction fuel as [|fuel IH]; intros i w Hsend.
  - now exists w.
  - cbn [for_loop]. unfold bind at 1.
    unfold remote_thr_send at 1, bind, socket_send.
    rewrite Hsend. cbn [negb].
    match goal with |- context [progress_indicator c i ?w0] =>
      destruct (progress_indicator_silent c i w0) as (w2 & Hp & _);
      pose proof (f_equal snd Hp) as Henv; rewrite Hp
    end.
    apply IH.
    replace (env w2) with (env w); [exact Hsend|].
    cbn [snd] in Henv. rewrite <- Henv. unfold progress_indicator.
    now destruct (progress_due c i).
Qed.

Lemma local_thr_session_completes addr s c e :
  set_up e ->
  (forall k, exists m, recv_at e k = RecvMsg m /\ size m = s) ->
  exists w', local_thr_session addr s c (init e) = (Normal tt, w').
Proof.
  intros (Hctx & Hsock & Hatt) Hrecv. unfold local_thr_session, for_range.
  unfold bind at 1, context_new, guarded; cbn [env init record]; rewrite Hctx.
  unfold bind at 1, socket_new, guarded; cbn [env init record]; rewrite Hsock.
  unfold bind at 1, socket_bind, guarded; cbn [env init record]; rewrite Hatt.
  do 4 emit_step.
  unfold bind at 1. unfold local_thr_first, bind at 1, socket_recv at 1.
  cbn [env record n_recv n_send n_now log init].
  destruct (Hrecv 0%nat) as (m0 & -> & Hm0).
  rewrite Hm0, Z.eqb_refl. cbn [negb]. unfold ret at 1.
  emit_step. clock_step. unfold bind at 1.
  match goal with
  | |- context [for_loop ?f ?i ?b ?w0] =>
      destruct (local_thr_loop_completes s c f i w0) as [w1 Hloop];
      [exact Hrecv | rewrite Hloop]
  end.
  clock_step. unfold local_thr_report. do 6 emit_step. unfold cout, emit.
  eexists. reflexivity.
Qed.

Lemma remote_thr_session_completes addr s c e :
  set_up e -> s <= SizeT.vector_max_size ->
  (forall k, send_at e k = SendOk) ->
  exists w', remote_thr_session addr s c (init e) = (Normal tt, w').
Proof.
  intros (Hctx & Hsock & Hatt) Hs Hsend. unfold remote_thr_session, for_range.
  unfold bind at 1, context_new, guarded; cbn [env init record]; rewrite Hctx.
  unfold bind at 1, socket_new, guarded; cbn [env init record]; rewrite Hsock.
  unfold bind at 1, socket_connect, guarded; cbn [env init record];
    rewrite Hatt.
  do 4 emit_step.
  unfold bind at 1, vector_new at 1.
  replace (s >? SizeT.vector_max_size) with false
    by (symmetry; rewrite Z.gtb_ltb; now apply Z.ltb_ge).
  unfold ret at 1. emit_step. unfold bind at 1.
  match goal with
  | |- context [for_loop ?f ?i ?b ?w0] =>
      destruct (remote_thr_loop_completes
                  (repeat "X"%char (Z.to_nat s)) s c f i w0) as [w1 Hloop];
      [exact Hsend | rewrite Hloop]
  end.
  do 2 emit_step. unfold sleep_for, emit. eexists. reflexivity.
Qed.

(** X8. With positive arguments and a transport that sets up, the
    throughput receiver exits with status 0 when every message delivered
    has the configured size, and the throughput sender exits with status 0
    when every send is accepted. *)
Theorem throughput_pair_completes e prog addr sarg carg :
  0 < atoi sarg -> 0 < atoi carg -> set_up e ->
  ((forall k, exists m, recv_at e k = RecvMsg m /\ size m = atoi sarg) ->
   fst (run (local_thr_main [prog; addr; sarg; carg]) (init e)) = 0) /\
  ((forall k, send_at e k = SendOk) ->
   fst (run (remote_thr_main [prog; addr; sarg; carg]) (init e)) = 0).
Proof.
  intros Hs Hc Hup.
  pose proof (size_of_positive_argument sarg Hs) as Hsize.
  pose proof (atoi_range sarg) as [_ Hmax]. unfold Int32.max_signed in Hmax.
  split.
  - intros Hrecv.
    rewrite local_thr_main_valid by (rewrite ?Hsize; assumption).
    rewrite Hsize.
    now destruct (local_thr_session_completes addr (atoi sarg) (atoi carg) e
                    Hup Hrecv) as [w' ->].
  - intros Hsend.
    rewrite remote_thr_main_valid by (rewrite ?Hsize; assumption).
    rewrite Hsize.
    destruct (remote_thr_session_completes addr (atoi sarg) (atoi carg) e
                Hup) as [w' ->]; try assumption; [|reflexivity].
    unfold SizeT.vector_max_size. lia.
Qed.

(** *** Ten progress lines *)

Lemma indices_app n m : forall lo,
  indices (n + m) lo = indices n lo ++ indices m (lo + Z.of_nat n).
Proof.
  induction n as [|n IH]; intros lo.
  - cbn. now rewrite Z.add_0_r.
  - cbn [Nat.add indices app]. rewrite IH. do 3 f_equal. lia.
Qed.

Lemma no_multiple q a n : forall lo,
  0 < q -> a * q < lo -> lo + Z.of_nat n <= (a + 1) * q ->
  filter (fun k => k mod q =? 0) (indices n lo) = [].
Proof.
  induction n as [|n IH]; intros lo Hq Hlo Hhi; [reflexivity|].
  cbn [indices filter].
  replace (lo mod q =? 0) with false.
  - apply IH; lia.
  - symmetry. apply Z.eqb_neq.
    rewrite <- (Z.mod_unique lo q a (lo - a * q)); lia.
Qed.

Lemma one_multiple q a :
  0 < q ->
  filter (fun k => k mod q =? 0) (indices (Z.to_nat q) (a * q + 1))
  = [(a + 1) * q].
Proof.
  intros Hq.
  replace (Z.to_nat q) with (Z.to_nat (q - 1) + 1)%nat by lia.
  rewrite indices_app, filter_app, (no_multiple q a) by lia.
  cbn [indices filter app].
  replace (a * q + 1 + Z.of_nat (Z.to_nat (q - 1))) with ((a + 1) * q) by lia.
  now rewrite Z.mod_mul, Z.eqb_refl by lia.
Qed.

Lemma multiples_step q j :
  multiples q (S j) = multiples q j ++ [(Z.of_nat j + 1) * q].
Proof.
  unfold multiples. replace (S j) with (j + 1)%nat by lia.
  rewrite indices_app, map_app. cbn [indices map]. f_equal. f_equal. lia.
Qed.

Lemma multiples_in_blocks q j :
  0 < q ->
  filter (fun k => k mod q =? 0) (indices (j * Z.to_nat q) 1)
  = multiples q j.
Proof.
  intros Hq. induction j as [|j IH]; [reflexivity|].
  replace (S j * Z.to_nat q)%nat with (j * Z.to_nat q + Z.to_nat q)%nat by lia.
  rewrite indices_app, filter_app, IH, multiples_step. f_equal.
  replace (1 + Z.of_nat (j * Z.to_nat q)) with (Z.of_nat j * q + 1) by nia.
  now apply one_multiple.
Qed.

Lemma tenth_multiples_from_one c :
  100 < c -> tenth_multiples 1 c = multiples (c / 10) 10.
Proof.
  intros Hc. unfold tenth_multiples, cumulative_counts.
  pose proof (Z.div_mod c 10 ltac:(lia)) as Hdm.
  pose proof (Z.mod_pos_bound c 10 ltac:(lia)) as Hr.
  assert (Hq : 10 <= c / 10) by (apply Z.div_le_lower_bound; lia).
  replace (Z.to_nat (c - 1 + 1))
    with (10 * Z.to_nat (c / 10) + Z.to_nat (c mod 10))%nat by lia.
  rewrite indices_app, filter_app.
  change (filter (on_tenth c)) with (filter (fun k => k mod (c / 10) =? 0)).
  rewrite multiples_in_blocks by lia.
  rewrite (no_multiple (c / 10) 10) by lia.
  apply app_nil_r.
Qed.

Lemma tenth_multiples_from_two c :
  100 < c -> tenth_multiples 2 c = multiples (c / 10) 10.
Proof.
  intros Hc. rewrite <- tenth_multiples_from_one by assumption.
  unfold tenth_multiples, cumulative_counts.
  assert (Hq : 10 <= c / 10) by (apply Z.div_le_lower_bound; lia).
  replace (Z.to_nat (c - 1 + 1)) with (S (Z.to_nat (c - 2 + 1))) by lia.
  cbn [indices filter]. unfold on_tenth at 2.
  rewrite Z.mod_small by lia. reflexivity.
Qed.

(** X7. With more than 100 messages, a run of the throughput receiver or
    sender that exits with status 0 prints exactly ten progress lines, at
    the counts [q], [2q], ..., [10q] for [q = message_count / 10] rounded
    down. *)
Theorem ten_progress_lines e prog addr sarg carg w' :
  100 < atoi carg ->
  (run (local_thr_main [prog; addr; sarg; carg]) (init e) = (0, w') ->
   shown_counts w' = multiples (atoi carg / 10) 10) /\
  (run (remote_thr_main [prog; addr; sarg; carg]) (init e) = (0, w') ->
   shown_counts w' = multiples (atoi carg / 10) 10).
Proof.
  intros Hc. split; intros Hrun.
  - apply local_thr_success in Hrun as [_ Hses].
    apply local_thr_session_progress in Hses.
    rewrite <- tenth_multiples_from_two by assumption.
    apply (scheduled 2 (Z.to_nat (atoi carg - 1))); try assumption; lia.
  - apply remote_thr_success in Hrun as [_ Hses].
    apply remote_thr_session_progress in Hses.
    rewrite <- tenth_multiples_from_one by assumption.
    apply (scheduled 1 (Z.to_nat (atoi carg - 0))); try assumption; lia.
Qed.

(** X4. Whatever its arguments and whatever the transport does, each of the
    four programs ends in one of two ways: with status 0 and nothing written
    to standard error, or with status 1 and a diagnostic on standard error
    as the last thing it did. No exception leaves [main]. *)
Theorem every_run_is_accounted e argv :
  Forall (fun p => accounted (run (fst p argv) (init e))) programs.
Proof. apply programs_accounted. Qed.

(** ** The sender's total *)

Lemma remote_thr_session_total addr s c e w' :
  remote_thr_session addr s c (init e) = (Normal tt, w') ->
  reported "Total data sent: " " MB\n" w' = Some (total_data_mb s c).
Proof.
  unfold remote_thr_session, for_range.
  setup_step; [|discriminate].
  setup_step; [|discriminate].
  setup_step; [|discriminate].
  do 4 emit_step.
  vector_step; [discriminate|].
  emit_step. unfold bind at 1.
  match goal with
  | |- context [for_loop ?f ?i ?b ?w0] =>
      destruct (for_loop f i b w0) as [o1 w1]
  end.
  destruct o1 as [[]|c1|e1]; try discriminate.
  do 2 emit_step. unfold sleep_for, emit.
  intros Hend. injection Hend as <-. reflexivity.
Qed.

(** X9. A run of the throughput sender that exits with status 0, with
    message size [s > 0] and message count [c], prints as total data sent
    [s * c / (1024 * 1024)] MB. *)
Theorem remote_thr_reports_total_sent e prog addr sarg carg w' :
  0 < atoi sarg ->
  run (remote_thr_main [prog; addr; sarg; carg]) (init e) = (0, w') ->
  reported "Total data sent: " " MB\n" w'
  = Some (spec_total_mb (atoi sarg) (atoi carg)).
Proof.
  intros Hs Hrun. apply remote_thr_success in Hrun as [Hc Hses].
  rewrite (size_of_positive_argument sarg Hs) in Hses.
  rewrite (remote_thr_session_total _ _ _ _ _ Hses). f_equal.
  apply total_data_mb_spec.
  - pose proof (atoi_range sarg) as [_ H]. lia.
  - pose proof (atoi_range carg) as [_ H]. lia.
Qed.

(** ** Instances *)

Lemma remote_thr_sends_every_message_witness :
  run (remote_thr_main ["./remote_thr"; "tcp://localhost:5556"; "2"; "3"])
      (init (steady (bytes "ab") 0 0))
  = (0, snd sender_demo) /\
  actions (snd sender_demo)
  = remote_thr_actions "tcp://localhost:5556" (SizeT.of_int (atoi "2"))
      (atoi "3").
Proof.
  assert (H : run (remote_thr_main
                     ["./remote_thr"; "tcp://localhost:5556"; "2"; "3"])
                  (init (steady (bytes "ab") 0 0)) = (0, snd sender_demo))
    by (vm_compute; reflexivity).
  split; [exact H|].
  exact (proj1 (remote_thr_sends_every_message _ _ _ _ _ _ H)).
Defined.

Lemma remote_lat_requests_then_replies_witness :
  run (remote_lat_main ["./remote_lat"; "tcp://localhost:5555"; "2"; "3"])
      (init (steady (bytes "ab") 0 50000))
  = (0, snd client_demo) /\
  exists s0 r0 replies,
    Z.of_nat (List.length replies) = atoi "3" /\
    Forall (fun m => size m = SizeT.of_int (atoi "2")) replies /\
    actions (snd client_demo)
    = remote_lat_actions "tcp://localhost:5555" (SizeT.of_int (atoi "2"))
        s0 r0 replies.
Proof.
  assert (H : run (remote_lat_main
                     ["./remote_lat"; "tcp://localhost:5555"; "2"; "3"])
                  (init (steady (bytes "ab") 0 50000)) = (0, snd client_demo))
    by (vm_compute; reflexivity).
  split; [exact H|].
  exact (remote_lat_requests_then_replies _ _ _ _ _ _ H).
Defined.

Lemma local_thr_receives_every_message_witness :
  run (local_thr_main ["./local_thr"; "tcp://*:5556"; "2"; "4"])
      (init (steady (bytes "ab") 0 2000000))
  = (0, snd receiver_demo) /\
  exists msgs,
    Z.of_nat (List.length msgs) = atoi "4" /\
    Forall (fun m => size m = SizeT.of_int (atoi "2")) msgs /\
    actions (snd receiver_demo) = local_thr_actions "tcp://*:5556" msgs.
Proof.
  assert (H : run (local_thr_main ["./local_thr"; "tcp://*:5556"; "2"; "4"])
                  (init (steady (bytes "ab") 0 2000000))
              = (0, snd receiver_demo)) by (vm_compute; reflexivity).
  split; [exact H|].
  exact (local_thr_receives_every_message _ _ _ _ _ _ H).
Defined.

Lemma setup_failure_is_fatal_witness :
  (0 < SizeT.of_int (atoi "64") /\ 0 < atoi "1000" /\ ~ set_up unreachable) /\
  Forall (fun p =>
            failed_at_setup
              (run (fst p ["./local_lat"; "tcp://*:5555"; "64"; "1000"])
                   (init unreachable)))
         programs.
Proof.
  assert (H1 : 0 < SizeT.of_int (atoi "64")) by (vm_compute; reflexivity).
  assert (H2 : 0 < atoi "1000") by (vm_compute; reflexivity).
  assert (H3 : ~ set_up unreachable)
    by (intros (_ & _ & H); vm_compute in H; discriminate).
  split; [split; [exact H1|split; [exact H2|exact H3]]|].
  exact (setup_failure_is_fatal unreachable
           "./local_lat" "tcp://*:5555" "64" "1000" H1 H2 H3).
Defined.

Lemma steady_set_up m t0 t1 : set_up (steady m t0 t1).
Proof. repeat split. Qed.

Lemma negative_size_stops_the_active_programs_witness :
  (atoi "-1" < 0 /\ 0 < atoi "10" /\ set_up (steady (bytes "ab") 0 0)) /\
  fst (run (remote_thr_main
              ["./remote_thr"; "tcp://localhost:5556"; "-1"; "10"])
           (init (steady (bytes "ab") 0 0))) = 1.
Proof.
  assert (H1 : atoi "-1" < 0) by (vm_compute; reflexivity).
  assert (H2 : 0 < atoi "10") by (vm_compute; reflexivity).
  assert (H3 : set_up (steady (bytes "ab") 0 0)) by apply steady_set_up.
  split; [split; [exact H1|split; [exact H2|exact H3]]|].
  exact (proj1 (proj2 (negative_size_stops_the_active_programs
           (steady (bytes "ab") 0 0)
           "./remote_thr" "tcp://localhost:5556" "-1" "10" H1 H2 H3))).
Defined.

Lemma throughput_pair_completes_witness :
  (0 < atoi "2" /\ 0 < atoi "3" /\ set_up (steady (bytes "ab") 0 0)) /\
  fst (run (local_thr_main ["./local_thr"; "tcp://*:5556"; "2"; "3"])
           (init (steady (bytes "ab") 0 0))) = 0 /\
  fst (run (remote_thr_main ["./local_thr"; "tcp://*:5556"; "2"; "3"])
           (init (steady (bytes "ab") 0 0))) = 0.
Proof.
  assert (H1 : 0 < atoi "2") by (vm_compute; reflexivity).
  assert (H2 : 0 < atoi "3") by (vm_compute; reflexivity).
  assert (H3 : set_up (steady (bytes "ab") 0 0)) by apply steady_set_up.
  split; [split; [exact H1|split; [exact H2|exact H3]]|].
  pose proof (throughput_pair_completes (steady (bytes "ab") 0 0)
                "./local_thr" "tcp://*:5556" "2" "3" H1 H2 H3) as [Hr Hs].
  split.
  - apply Hr. intros k. exists (bytes "ab"). split; reflexivity.
  - apply Hs. intros k. reflexivity.
Defined.

Lemma ten_progress_lines_witness :
  (100 < atoi "110" /\
   run (local_thr_main ["./local_thr"; "tcp://*:5556"; "2"; "110"])
       (init (steady (bytes "ab") 0 2000000)) = (0, snd progress_demo)) /\
  shown_counts (snd progress_demo) = multiples (atoi "110" / 10) 10.
Proof.
  assert (H1 : 100 < atoi "110") by (vm_compute; reflexivity).
  assert (H2 : run (local_thr_main
                      ["./local_thr"; "tcp://*:5556"; "2"; "110"])
                   (init (steady (bytes "ab") 0 2000000))
               = (0, snd progress_demo)) by (vm_compute; reflexivity).
  split; [split; [exact H1|exact H2]|].
  exact (proj1 (ten_progress_lines _ _ _ _ _ _ H1) H2).
Defined.

Lemma remote_thr_reports_total_sent_witness :
  (0 < atoi "2" /\
   run (remote_thr_main ["./remote_thr"; "tcp://localhost:5556"; "2"; "3"])
       (init (steady (bytes "ab") 0 0)) = (0, snd sender_demo)) /\
  reported "Total data sent: " " MB\n" (snd sender_demo)
  = Some (spec_total_mb (atoi "2") (atoi "3")).
Proof.
  assert (H1 : 0 < atoi "2") by (vm_compute; reflexivity).
  assert (H2 : run (remote_thr_main
                      ["./remote_thr"; "tcp://localhost:5556"; "2"; "3"])
                   (init (steady (bytes "ab") 0 0)) = (0, snd sender_demo))
    by (vm_compute; reflexivity).
  split; [split; [exact H1|exact H2]|].
  exact (remote_thr_reports_total_sent _ _ _ _ _ _ H1 H2).
Defined.

(** ** The latency report within range, and rejected configurations *)

(** X10. A run of the latency client that exits with status 0 with a
    round-trip count below 2^30 prints as average latency the measured
    microseconds over [roundtrip_count * 2] and as message rate
    [roundtrip_count * 1 000 000] over the measured microseconds. *)
Theorem remote_lat_reports_spec_metrics e prog addr sarg carg w' :
  atoi carg < 2 ^ 30 ->
  run (remote_lat_main [prog; addr; sarg; carg]) (init e) = (0, w') ->
  reported "Average latency: " " us\n" w'
  = Some (spec_latency_us (measured_us e) (atoi carg)) /\
  reported "Message rate: " " msg/s\n" w'
  = Some (spec_message_rate (measured_us e) (atoi carg)).
Proof.
  intros Hmax Hrun.
  apply remote_lat_success_report in Hrun as (Hc & Hlat & Hrate).
  rewrite Hlat, Hrate, remote_lat_latency_in_range by lia. now split.
Qed.

Lemma remote_lat_reports_spec_metrics_witness :
  (atoi "3" < 2 ^ 30 /\
   run (remote_lat_main ["./remote_lat"; "tcp://localhost:5555"; "2"; "3"])
       (init (steady (bytes "ab") 0 50000)) = (0, snd client_demo)) /\
  reported "Average latency: " " us\n" (snd client_demo)
  = Some (spec_latency_us (measured_us (steady (bytes "ab") 0 50000))
            (atoi "3")).
Proof.
  assert (H1 : atoi "3" < 2 ^ 30) by (vm_compute; reflexivity).
  assert (H2 : run (remote_lat_main
                      ["./remote_lat"; "tcp://localhost:5555"; "2"; "3"])
                   (init (steady (bytes "ab") 0 50000))
               = (0, snd client_demo)) by (vm_compute; reflexivity).
  split; [split; [exact H1|exact H2]|].
  exact (proj1 (remote_lat_reports_spec_metrics _ _ _ _ _ _ H1 H2)).
Defined.

(** X11. Given other than three arguments, or a [message_size] that parses
    to 0, or a count that parses to 0 or less, each of the four programs
    exits with status 1 without creating a context or a socket. *)
Theorem configuration_errors_are_rejected e argv :
  (List.length argv <> 4%nat \/
   exists prog addr sarg carg,
     argv = [prog; addr; sarg; carg] /\ (atoi sarg = 0 \/ atoi carg <= 0)) ->
  Forall (fun p => rejected (run (fst p argv) (init e))) programs.
Proof.
  intros [Hlen|(prog & addr & sarg & carg & -> & Hbad)].
  - now apply wrong_argument_count.
  - apply non_positive_argument. destruct Hbad as [H0|Hc]; [left|now right].
    rewrite H0. cbv. discriminate.
Qed.

Lemma configuration_errors_are_rejected_witness :
  (exists prog addr sarg carg,
     ["./remote_lat"; "tcp://localhost:5555"; "0"; "100"]
     = [prog; addr; sarg; carg] /\ (atoi sarg = 0 \/ atoi carg <= 0)) /\
  Forall (fun p =>
            rejected
              (run (fst p ["./remote_lat"; "tcp://localhost:5555"; "0"; "100"])
                   (init (steady (bytes "ab") 0 0))))
         programs.
Proof.
  assert (H : exists prog addr sarg carg,
             ["./remote_lat"; "tcp://localhost:5555"; "0"; "100"]
             = [prog; addr; sarg; carg] /\ (atoi sarg = 0 \/ atoi carg <= 0)).
  { exists "./remote_lat", "tcp://localhost:5555", "0", "100".
    split; [reflexivity|left; vm_compute; reflexivity]. }
  split; [exact H|].
  exact (configuration_errors_are_rejected (steady (bytes "ab") 0 0) _
           (or_intror H)).
Defined.
